(** * SmartMatrix refresh code (Teensy 3.x): a shallow embedding

    The development follows [SmartMatrix_Impl.h]: the BCM timer table
    ([calculateTimerLut]), the address table filled by [begin], the pixel
    encoder ([loadMatrixBuffers]), the refresh pump ([matrixCalculations])
    and the row-complete interrupt handler ([rowShiftCompleteISR]).

    Integers of the C code are [Z] with the conversions of the C types
    ([uint8], [uint16], [uint32], [int32]) written where the code stores
    into a variable of that type.  Memory reached through a pointer (the
    block array, the two look-up tables, the DMA data buffer) is a finite
    map from the element index to the element. *)

From Stdlib Require Import ZArith Lia Bool List.
From stdpp Require Import base decidable option list list_numbers gmap fin_maps.

Local Open Scope Z_scope.

(** ** Machine integers *)

Definition uint8 (z : Z) : Z := z mod 2 ^ 8.
Definition uint16 (z : Z) : Z := z mod 2 ^ 16.
Definition uint32 (z : Z) : Z := z mod 2 ^ 32.

(** Two's complement [int]; the C standard leaves signed overflow
    undefined, the Cortex-M4 wraps. *)
Definition int32 (z : Z) : Z := (z + 2 ^ 31) mod 2 ^ 32 - 2 ^ 31.

(** [for (i = 0; i < n; i++) body] *)
Definition for_loop {S : Type} (n : Z) (body : Z -> S -> S) (s : S) : S :=
  foldl (fun acc i => body i acc) s (seqZ 0 n).

(** ** Data declared in SmartMatrix.h, as this file uses it *)

(** [addresspair]: two 16-bit GPIO masks (the DMA set-up in [begin]
    transfers them as two [uint16_t]). *)
Record addresspair := { bits_to_clear : Z; bits_to_set : Z }.

(** [timerpair]: the two 16-bit FTM1 compare values. *)
Record timerpair := { timer_oe : Z; timer_period : Z }.

Record matrixUpdateBlock := { timerValues : timerpair; addressValues : addresspair }.

Record rgb48 := { red : Z; green : Z; blue : Z }.

Inductive rotationDegrees := rotation0 | rotation90 | rotation180 | rotation270.

#[global] Instance addresspair_inhabited : Inhabited addresspair :=
  populate {| bits_to_clear := 0; bits_to_set := 0 |}.
#[global] Instance timerpair_inhabited : Inhabited timerpair :=
  populate {| timer_oe := 0; timer_period := 0 |}.
#[global] Instance matrixUpdateBlock_inhabited : Inhabited matrixUpdateBlock :=
  populate {| timerValues := inhabitant; addressValues := inhabitant |}.

(** The bit-fields named by the macro [GPIO_WORD_ORDER]: four bytes
    [p0] .. [p3], each with the six colour lines of a pixel pair, the clock
    line and one unused line. *)
Inductive gpio_byte := p0 | p1 | p2 | p3.
Inductive gpio_line := r1 | g1 | b1 | r2 | g2 | b2 | clk | pad.

#[global] Instance gpio_byte_eq_dec : EqDecision gpio_byte.
Proof. solve_decision. Defined.
#[global] Instance gpio_line_eq_dec : EqDecision gpio_line.
Proof. solve_decision. Defined.

Definition byte_index (p : gpio_byte) : Z :=
  match p with p0 => 0 | p1 => 1 | p2 => 2 | p3 => 3 end.

Definition byte_of_index (k : Z) : gpio_byte :=
  if k =? 0 then p0 else if k =? 1 then p1 else if k =? 2 then p2 else p3.

(** ** Constants of the hardware headers

    None of these is defined in [SmartMatrix_Impl.h]; the code is modelled
    over all of them.  [LATCH_TIMER_PULSE_WIDTH_TICKS] and
    [MIN_BLOCK_PERIOD_PER_PIXEL_TICKS] are the [uint32_t] results of the
    compile-time floating point macro [NS_TO_TICKS].  [GPIO_WORD_ORDER]
    gives, for each one-bit field of the output word, its bit position.
    [ADDX_PIN_3] is optional ([#ifdef ADDX_PIN_3]). *)
Record MatrixHardware := {
  F_BUS : Z;
  LATCH_TIMER_PULSE_WIDTH_TICKS : Z;
  MIN_BLOCK_PERIOD_PER_PIXEL_TICKS : Z;
  ADDX_PIN_0 : Z;
  ADDX_PIN_1 : Z;
  ADDX_PIN_2 : Z;
  ADDX_PIN_3 : option Z;
  ADDX_PIN_MASK : Z;
  GPIO_WORD_ORDER : gpio_byte -> gpio_line -> Z;
  dimmingMaximum : Z
}.

Definition COLOR_CHANNELS_PER_PIXEL : Z := 3.
Definition DMA_UPDATES_PER_CLOCK : Z := 2.
Definition sizeof_uint32_t : Z := 4.

(** FTM status-and-control fields (kinetis.h of the Teensy core). *)
Definition LATCH_TIMER_PRESCALE : Z := 0.
Definition FTM_SC_CLKS (n : Z) : Z := Z.shiftl (Z.land n 3) 3.
Definition FTM_SC_PS (n : Z) : Z := Z.land n 7.

(** ** The row slot ring *)

(** Modelled from the spec: CircularBuffer.h and its functions are not
    among the sources.  The ring is count-based with capacity [cb_size]
    (spec §3, §4.5): [cbGetNextWrite] is the slot a write would reserve,
    [cbWrite] commits it, [cbGetNextRead] is the oldest committed slot,
    [cbRead] releases it; the write cursor never advances onto a slot that
    is not yet consumed and the read cursor never passes the write
    cursor. *)
Record CircularBuffer := { cb_size : Z; cb_start : Z; cb_count : Z }.

Definition cbInit (size : Z) : CircularBuffer :=
  {| cb_size := size; cb_start := 0; cb_count := 0 |}.

Definition cbIsFull (cb : CircularBuffer) : bool := cb_count cb =? cb_size cb.

Definition cbIsEmpty (cb : CircularBuffer) : bool := cb_count cb =? 0.

Definition cbGetNextWrite (cb : CircularBuffer) : Z :=
  (cb_start cb + cb_count cb) mod cb_size cb.

Definition cbWrite (cb : CircularBuffer) : CircularBuffer :=
  if cbIsFull cb then cb
  else {| cb_size := cb_size cb; cb_start := cb_start cb; cb_count := cb_count cb + 1 |}.

Definition cbGetNextRead (cb : CircularBuffer) : Z := cb_start cb.

Definition cbRead (cb : CircularBuffer) : CircularBuffer :=
  if cbIsEmpty cb then cb
  else {| cb_size := cb_size cb;
          cb_start := (cb_start cb + 1) mod cb_size cb;
          cb_count := cb_count cb - 1 |}.

(** ** Layers

    The drawable layers are outside this file; the driver only calls the
    four virtual methods below on every layer of the chain. *)
Class SM_Layer (L : Type) := {
  fillRefreshRow : Z -> (Z -> rgb48) -> L -> (Z -> rgb48) * L;
  setRotation : rotationDegrees -> L -> L;
  setRefreshRate : Z -> L -> L;
  frameRefreshCallback : L -> L
}.

(** ** Peripheral registers written by [begin] and by the interrupt handler *)

Record Peripherals := {
  FTM1_SC : Z;
  FTM1_CNT : Z;
  FTM1_MOD : Z;
  FTM1_C0V : Z;
  FTM1_C1V : Z;
  dmaOutputAddress_enabled : bool;
  dmaUpdateAddress_enabled : bool;
  dmaUpdateTimer_enabled : bool;
  dmaClockOutData_enabled : bool;
  (* source positions of the three reloading channels: a block index for the
     address and timer channels, a byte offset into the data buffer *)
  dmaUpdateAddress_SADDR : Z;
  dmaUpdateTimer_SADDR : Z;
  dmaClockOutData_SADDR : Z;
  dmaClockOutData_SOFF : Z;
  dmaClockOutData_CITER : Z;
  rowCalculation_pending : bool
}.

Definition reset_peripherals : Peripherals :=
  {| FTM1_SC := 0; FTM1_CNT := 0; FTM1_MOD := 0; FTM1_C0V := 0; FTM1_C1V := 0;
     dmaOutputAddress_enabled := false; dmaUpdateAddress_enabled := false;
     dmaUpdateTimer_enabled := false; dmaClockOutData_enabled := false;
     dmaUpdateAddress_SADDR := 0; dmaUpdateTimer_SADDR := 0;
     dmaClockOutData_SADDR := 0; dmaClockOutData_SOFF := 0;
     dmaClockOutData_CITER := 0; rowCalculation_pending := false |}.

(** ** Driver state

    [PanelConfig] holds the static members written by the constructor and
    never afterwards; [SmartMatrix3] adds the buffers, the ring, the static
    local [currentRow] of [matrixCalculations], the members set by the
    brightness and rotation setters, the layer chain and the peripherals.
    The constructor cuts the block array and the two tables out of one
    caller-supplied buffer; they are separate maps here, that is, the
    buffer is taken to be large enough for the three not to overlap. *)
Record PanelConfig := {
  matrixWidth : Z;
  matrixHeight : Z;
  colorDepthRgb : Z;
  dmaBufferNumRows : Z;
  latchesPerRow : Z;
  dmaBufferBytesPerPixel : Z;
  dmaBufferBytesPerRow : Z;
  refreshRate : Z
}.

Record SmartMatrix3 (L : Type) := {
  config : PanelConfig;
  matrixUpdateBlocks : gmap Z matrixUpdateBlock;
  addressLUT : gmap Z addresspair;
  timerLUT : gmap Z timerpair;
  matrixUpdateData : gmap Z Z;
  dmaBuffer : CircularBuffer;
  currentRow : Z;
  rotationChange : bool;
  rotation : rotationDegrees;
  brightnessChange : bool;
  dimmingFactor : Z;
  baseLayer : list L;
  peripherals : Peripherals
}.

Arguments config {L} _.
Arguments matrixUpdateBlocks {L} _.
Arguments addressLUT {L} _.
Arguments timerLUT {L} _.
Arguments matrixUpdateData {L} _.
Arguments dmaBuffer {L} _.
Arguments currentRow {L} _.
Arguments rotationChange {L} _.
Arguments rotation {L} _.
Arguments brightnessChange {L} _.
Arguments dimmingFactor {L} _.
Arguments baseLayer {L} _.
Arguments peripherals {L} _.

Section Setters.
Context {L : Type}.
Implicit Type s : SmartMatrix3 L.

Definition set_config (c : PanelConfig) s : SmartMatrix3 L :=
  {| config := c; matrixUpdateBlocks := matrixUpdateBlocks s;
     addressLUT := addressLUT s; timerLUT := timerLUT s;
     matrixUpdateData := matrixUpdateData s; dmaBuffer := dmaBuffer s;
     currentRow := currentRow s; rotationChange := rotationChange s;
     rotation := rotation s; brightnessChange := brightnessChange s;
     dimmingFactor := dimmingFactor s; baseLayer := baseLayer s;
     peripherals := peripherals s |}.

Definition set_matrixUpdateBlocks (b : gmap Z matrixUpdateBlock) s : SmartMatrix3 L :=
  {| config := config s; matrixUpdateBlocks := b;
     addressLUT := addressLUT s; timerLUT := timerLUT s;
     matrixUpdateData := matrixUpdateData s; dmaBuffer := dmaBuffer s;
     currentRow := currentRow s; rotationChange := rotationChange s;
     rotation := rotation s; brightnessChange := brightnessChange s;
     dimmingFactor := dimmingFactor s; baseLayer := baseLayer s;
     peripherals := peripherals s |}.

Definition set_addressLUT (a : gmap Z addresspair) s : SmartMatrix3 L :=
  {| config := config s; matrixUpdateBlocks := matrixUpdateBlocks s;
     addressLUT := a; timerLUT := timerLUT s;
     matrixUpdateData := matrixUpdateData s; dmaBuffer := dmaBuffer s;
     currentRow := currentRow s; rotationChange := rotationChange s;
     rotation := rotation s; brightnessChange := brightnessChange s;
     dimmingFactor := dimmingFactor s; baseLayer := baseLayer s;
     peripherals := peripherals s |}.

Definition set_timerLUT (t : gmap Z timerpair) s : SmartMatrix3 L :=
  {| config := config s; matrixUpdateBlocks := matrixUpdateBlocks s;
     addressLUT := addressLUT s; timerLUT := t;
     matrixUpdateData := matrixUpdateData s; dmaBuffer := dmaBuffer s;
     currentRow := currentRow s; rotationChange := rotationChange s;
     rotation := rotation s; brightnessChange := brightnessChange s;
     dimmingFactor := dimmingFactor s; baseLayer := baseLayer s;
     peripherals := peripherals s |}.

Definition set_matrixUpdateData (d : gmap Z Z) s : SmartMatrix3 L :=
  {| config := config s; matrixUpdateBlocks := matrixUpdateBlocks s;
     addressLUT := addressLUT s; timerLUT := timerLUT s;
     matrixUpdateData := d; dmaBuffer := dmaBuffer s;
     currentRow := currentRow s; rotationChange := rotationChange s;
     rotation := rotation s; brightnessChange := brightnessChange s;
     dimmingFactor := dimmingFactor s; baseLayer := baseLayer s;
     peripherals := peripherals s |}.

Definition set_dmaBuffer (cb : CircularBuffer) s : SmartMatrix3 L :=
  {| config := config s; matrixUpdateBlocks := matrixUpdateBlocks s;
     addressLUT := addressLUT s; timerLUT := timerLUT s;
     matrixUpdateData := matrixUpdateData s; dmaBuffer := cb;
     currentRow := currentRow s; rotationChange := rotationChange s;
     rotation := rotation s; brightnessChange := brightnessChange s;
     dimmingFactor := dimmingFactor s; baseLayer := baseLayer s;
     peripherals := peripherals s |}.

Definition set_currentRow (r : Z) s : SmartMatrix3 L :=
  {| config := config s; matrixUpdateBlocks := matrixUpdateBlocks s;
     addressLUT := addressLUT s; timerLUT := timerLUT s;
     matrixUpdateData := matrixUpdateData s; dmaBuffer := dmaBuffer s;
     currentRow := r; rotationChange := rotationChange s;
     rotation := rotation s; brightnessChange := brightnessChange s;
     dimmingFactor := dimmingFactor s; baseLayer := baseLayer s;
     peripherals := peripherals s |}.

Definition set_rotationChange (b : bool) s : SmartMatrix3 L :=
  {| config := config s; matrixUpdateBlocks := matrixUpdateBlocks s;
     addressLUT := addressLUT s; timerLUT := timerLUT s;
     matrixUpdateData := matrixUpdateData s; dmaBuffer := dmaBuffer s;
     currentRow := currentRow s; rotationChange := b;
     rotation := rotation s; brightnessChange := brightnessChange s;
     dimmingFactor := dimmingFactor s; baseLayer := baseLayer s;
     peripherals := peripherals s |}.

Definition set_brightnessChange (b : bool) s : SmartMatrix3 L :=
  {| config := config s; matrixUpdateBlocks := matrixUpdateBlocks s;
     addressLUT := addressLUT s; timerLUT := timerLUT s;
     matrixUpdateData := matrixUpdateData s; dmaBuffer := dmaBuffer s;
     currentRow := currentRow s; rotationChange := rotationChange s;
     rotation := rotation s; brightnessChange := b;
     dimmingFactor := dimmingFactor s; baseLayer := baseLayer s;
     peripherals := peripherals s |}.

Definition set_baseLayer (ls : list L) s : SmartMatrix3 L :=
  {| config := config s; matrixUpdateBlocks := matrixUpdateBlocks s;
     addressLUT := addressLUT s; timerLUT := timerLUT s;
     matrixUpdateData := matrixUpdateData s; dmaBuffer := dmaBuffer s;
     currentRow := currentRow s; rotationChange := rotationChange s;
     rotation := rotation s; brightnessChange := brightnessChange s;
     dimmingFactor := dimmingFactor s; baseLayer := ls;
     peripherals := peripherals s |}.

Definition set_peripherals (p : Peripherals) s : SmartMatrix3 L :=
  {| config := config s; matrixUpdateBlocks := matrixUpdateBlocks s;
     addressLUT := addressLUT s; timerLUT := timerLUT s;
     matrixUpdateData := matrixUpdateData s; dmaBuffer := dmaBuffer s;
     currentRow := currentRow s; rotationChange := rotationChange s;
     rotation := rotation s; brightnessChange := brightnessChange s;
     dimmingFactor := dimmingFactor s; baseLayer := baseLayer s;
     peripherals := p |}.
End Setters.

(** ** The driver *)

Section Driver.
Context (hw : MatrixHardware) {L : Type} `{!SM_Layer L}.

(** Contents of the variable-length arrays [tempRow0] and [tempRow1] of
    [loadMatrixBuffers] before any layer has drawn into them; the code
    does not initialise them. *)
Variable uninitialized_row : Z -> rgb48.

Implicit Type s : SmartMatrix3 L.
Implicit Type c : PanelConfig.

(** *** Constructor *)

Definition SmartMatrix3_ctor (width height depth bufferrows : Z) s : SmartMatrix3 L :=
  let width := uint8 width in
  let height := uint8 height in
  let depth := uint8 depth in
  let bufferrows := uint8 bufferrows in
  let latches := uint8 (Z.quot depth COLOR_CHANNELS_PER_PIXEL) in
  let bytesPerPixel := uint8 (latches * DMA_UPDATES_PER_CLOCK) in
  set_config
    {| matrixWidth := width; matrixHeight := height; colorDepthRgb := depth;
       dmaBufferNumRows := bufferrows; latchesPerRow := latches;
       dmaBufferBytesPerPixel := bytesPerPixel;
       dmaBufferBytesPerRow := uint16 (bytesPerPixel * width);
       refreshRate := refreshRate (config s) |} s.

(** *** Macros of the file

    The divisions are those of [int]; C leaves a division by zero
    undefined, [Z.quot] yields 0 there, which is also what the SDIV
    instruction of the Cortex-M4 returns while its divide-by-zero trap
    is off.  [begin_divides_by_zero] below tells for which
    configurations [begin] executes such a division; what is stated
    about the run of [begin] as a whole is stated for the others. *)

Definition MATRIX_ROWS_PER_FRAME c : Z := Z.quot (matrixHeight c) 2.
Definition MATRIX_ROW_PAIR_OFFSET c : Z := Z.quot (matrixHeight c) 2.
Definition TICKS_PER_ROW c : Z :=
  Z.quot (Z.quot (F_BUS hw) (refreshRate c)) (MATRIX_ROWS_PER_FRAME c).
Definition MSB_BLOCK_TICKS c : Z := Z.quot (TICKS_PER_ROW c) 2.

(** *** calculateTimerLut *)

(** [MSB_BLOCK_TICKS >> (latchesPerRow - i - 1)].  With more than 32
    planes the shift count of the low planes reaches 32, which C leaves
    undefined; [Z.shiftr] yields 0 there. *)
Definition block_ticks c (i : Z) : Z :=
  Z.shiftr (MSB_BLOCK_TICKS c) (latchesPerRow c - i - 1).

(** The locals [period] and [ontime] as first assigned (both
    [uint16_t]; the sums are formed in [uint32_t]). *)
Definition initial_period c (i : Z) : Z :=
  uint16 (uint32 (block_ticks c i + LATCH_TIMER_PULSE_WIDTH_TICKS hw)).

Definition initial_ontime c (factor : Z) (i : Z) : Z :=
  uint16 (uint32 (Z.quot (int32 (block_ticks c i * factor)) (dimmingMaximum hw)
                  + LATCH_TIMER_PULSE_WIDTH_TICKS hw)).

(** [MIN_BLOCK_PERIOD_PER_PIXEL_TICKS * matrixWidth] *)
Definition min_block_period c : Z :=
  uint32 (MIN_BLOCK_PERIOD_PER_PIXEL_TICKS hw * matrixWidth c).

(** The [if (period < ...)] block. *)
Definition pad_block c (t : timerpair) : timerpair :=
  if timer_period t <? min_block_period c then
    let padding := uint16 (uint32 (min_block_period c - timer_period t)) in
    {| timer_oe := uint16 (timer_oe t + padding);
       timer_period := uint16 (timer_period t + padding) |}
  else t.

Definition timer_block c (factor : Z) (i : Z) : timerpair :=
  pad_block c {| timer_oe := initial_ontime c factor i;
                 timer_period := initial_period c i |}.

Definition calculateTimerLut s : SmartMatrix3 L :=
  set_timerLUT
    (for_loop (latchesPerRow (config s))
       (fun i lut => <[i := timer_block (config s) (dimmingFactor s) i]> lut)
       (timerLUT s)) s.

(** *** The address table loop of [begin] *)

(** [if (i & mask) bits_to_set |= (1 << pin);] on the 16-bit field. *)
Definition set_address_bit (i mask pin : Z) (bits : Z) : Z :=
  if Z.land i mask =? 0 then bits else uint16 (Z.lor bits (Z.shiftl 1 pin)).

Definition address_bits_to_set (i : Z) : Z :=
  let bits := 0 in
  let bits := set_address_bit i 1 (ADDX_PIN_0 hw) bits in
  let bits := set_address_bit i 2 (ADDX_PIN_1 hw) bits in
  let bits := set_address_bit i 4 (ADDX_PIN_2 hw) bits in
  match ADDX_PIN_3 hw with
  | Some pin3 => set_address_bit i 8 pin3 bits
  | None => bits
  end.

Definition address_entry (i : Z) : addresspair :=
  {| bits_to_clear :=
       uint16 (Z.land (Z.lnot (address_bits_to_set i)) (ADDX_PIN_MASK hw));
     bits_to_set := address_bits_to_set i |}.

Definition fill_addressLUT s : SmartMatrix3 L :=
  set_addressLUT
    (for_loop (MATRIX_ROWS_PER_FRAME (config s))
       (fun i lut => <[i := address_entry i]> lut)
       (addressLUT s)) s.

(** *** loadMatrixBuffers *)

(** Assignment to a one-bit unsigned bit-field at bit position [f]. *)
Definition set_field (o : Z) (f : Z) (v : Z) : Z :=
  Z.lor (Z.ldiff o (Z.shiftl 1 f)) (Z.shiftl (Z.land v 1) f).

(** The six assignments [o.pNb1 = temp0blue >> sh; ... o.pNb2 = ...],
    in the order of the source. *)
Definition set_byte (p : gpio_byte) (sh : Z) (temp0 temp1 : rgb48) (o : Z) : Z :=
  let o := set_field o (GPIO_WORD_ORDER hw p b1) (Z.shiftr (blue temp0) sh) in
  let o := set_field o (GPIO_WORD_ORDER hw p r1) (Z.shiftr (red temp0) sh) in
  let o := set_field o (GPIO_WORD_ORDER hw p r2) (Z.shiftr (red temp1) sh) in
  let o := set_field o (GPIO_WORD_ORDER hw p g1) (Z.shiftr (green temp0) sh) in
  let o := set_field o (GPIO_WORD_ORDER hw p g2) (Z.shiftr (green temp1) sh) in
  let o := set_field o (GPIO_WORD_ORDER hw p b2) (Z.shiftr (blue temp1) sh) in
  o.

(** The words [o0], [o1], [o2], [o3]: word [q] holds the bits
    [0 + q * sizeof(uint32_t)] .. [3 + q * sizeof(uint32_t)] of the six
    samples. *)
Definition gpio_word (q : Z) (temp0 temp1 : rgb48) : Z :=
  let o := 0 in
  let o := set_byte p0 (0 + q * sizeof_uint32_t) temp0 temp1 o in
  let o := set_byte p1 (1 + q * sizeof_uint32_t) temp0 temp1 o in
  let o := set_byte p2 (2 + q * sizeof_uint32_t) temp0 temp1 o in
  let o := set_byte p3 (3 + q * sizeof_uint32_t) temp0 temp1 o in
  o.

Definition clkset_word : Z :=
  let o := 0 in
  let o := set_field o (GPIO_WORD_ORDER hw p0 clk) 1 in
  let o := set_field o (GPIO_WORD_ORDER hw p1 clk) 1 in
  let o := set_field o (GPIO_WORD_ORDER hw p2 clk) 1 in
  let o := set_field o (GPIO_WORD_ORDER hw p3 clk) 1 in
  o.

(** The two [if (latchesPerRow == ...)] blocks on one [uint16_t] sample. *)
Definition reduce_sample (latches : Z) (v : Z) : Z :=
  let v := if latches =? 12 then uint16 (Z.shiftr v 4) else v in
  let v := if latches =? 8 then uint16 (Z.shiftr v 8) else v in
  v.

(** The six [uint16_t] temporaries of one row of the pair. *)
Definition load_temp (latches : Z) (px : rgb48) : rgb48 :=
  {| red := reduce_sample latches (uint16 (red px));
     green := reduce_sample latches (uint16 (green px));
     blue := reduce_sample latches (uint16 (blue px)) |}.

(** Index, in 32-bit words, of the first word of pixel [i] in row buffer
    [freeRowBuffer]. *)
Definition pixel_tempptr c (freeRowBuffer i : Z) : Z :=
  (freeRowBuffer * dmaBufferBytesPerRow c) / sizeof_uint32_t
  + (i * dmaBufferBytesPerPixel c) / sizeof_uint32_t.

(** The body of the pixel loop after the words are formed: the stores
    through [tempptr]. *)
Definition store_pixel c (freeRowBuffer i : Z) (temp0 temp1 : rgb48)
    (data : gmap Z Z) : gmap Z Z :=
  let half := latchesPerRow c / sizeof_uint32_t in
  let tempptr := pixel_tempptr c freeRowBuffer i in
  let data := <[tempptr := gpio_word 0 temp0 temp1]> data in
  let data := <[tempptr + half := Z.lor (gpio_word 0 temp0 temp1) clkset_word]> data in
  let tempptr := tempptr + 1 in
  let data := <[tempptr := gpio_word 1 temp0 temp1]> data in
  let data := <[tempptr + half := Z.lor (gpio_word 1 temp0 temp1) clkset_word]> data in
  let '(tempptr, data) :=
    if 12 <=? latchesPerRow c then
      let tempptr := tempptr + 1 in
      let data := <[tempptr := gpio_word 2 temp0 temp1]> data in
      (tempptr,
       <[tempptr + half := Z.lor (gpio_word 2 temp0 temp1) clkset_word]> data)
    else (tempptr, data) in
  if latchesPerRow c =? 16 then
    let tempptr := tempptr + 1 in
    let data := <[tempptr := gpio_word 3 temp0 temp1]> data in
    <[tempptr + half := Z.lor (gpio_word 3 temp0 temp1) clkset_word]> data
  else data.

(** The [while (templayer)] loop: every layer draws into both rows. *)
Fixpoint fill_rows (row pairRow : Z) (layers : list L)
    (tempRow0 tempRow1 : Z -> rgb48) : (Z -> rgb48) * (Z -> rgb48) * list L :=
  match layers with
  | [] => (tempRow0, tempRow1, [])
  | templayer :: rest =>
      let '(tempRow0, templayer) := fillRefreshRow row tempRow0 templayer in
      let '(tempRow1, templayer) := fillRefreshRow pairRow tempRow1 templayer in
      let '(tempRow0, tempRow1, rest) := fill_rows row pairRow rest tempRow0 tempRow1 in
      (tempRow0, tempRow1, templayer :: rest)
  end.

(** The block loop: address pair of the row and a copy of the timer
    table. *)
Definition load_blocks c (addresses : gmap Z addresspair) (timers : gmap Z timerpair)
    (row freeRowBuffer : Z) (blocks : gmap Z matrixUpdateBlock)
    : gmap Z matrixUpdateBlock :=
  let rowAddressPair :=
    {| bits_to_clear := bits_to_clear (addresses !!! row);
       bits_to_set := bits_to_set (addresses !!! row) |} in
  for_loop (latchesPerRow c)
    (fun j blocks =>
       <[freeRowBuffer * latchesPerRow c + j :=
           {| timerValues :=
                {| timer_oe := timer_oe (timers !!! j);
                   timer_period := timer_period (timers !!! j) |};
              addressValues :=
                {| bits_to_clear := bits_to_clear rowAddressPair;
                   bits_to_set := bits_to_set rowAddressPair |} |}]> blocks)
    blocks.

Definition load_pixels c (freeRowBuffer : Z) (tempRow0 tempRow1 : Z -> rgb48)
    (data : gmap Z Z) : gmap Z Z :=
  for_loop (matrixWidth c)
    (fun i data =>
       store_pixel c freeRowBuffer i
         (load_temp (latchesPerRow c) (tempRow0 i))
         (load_temp (latchesPerRow c) (tempRow1 i)) data)
    data.

Definition loadMatrixBuffers (row : Z) s : SmartMatrix3 L :=
  let c := config s in
  let row := uint8 row in
  let freeRowBuffer := uint8 (cbGetNextWrite (dmaBuffer s)) in
  let blocks :=
    load_blocks c (addressLUT s) (timerLUT s) row freeRowBuffer (matrixUpdateBlocks s) in
  let '(tempRow0, tempRow1, layers) :=
    fill_rows row (row + MATRIX_ROW_PAIR_OFFSET c) (baseLayer s)
      uninitialized_row uninitialized_row in
  let data := load_pixels c freeRowBuffer tempRow0 tempRow1 (matrixUpdateData s) in
  set_matrixUpdateData data (set_baseLayer layers (set_matrixUpdateBlocks blocks s)).

(** *** matrixCalculations *)

(** The once-per-frame block, entered when [currentRow] is 0. *)
Definition frame_updates s : SmartMatrix3 L :=
  let s :=
    if rotationChange s then
      set_rotationChange false
        (set_baseLayer (map (setRotation (rotation s)) (baseLayer s)) s)
    else s in
  let s :=
    set_baseLayer
      (map (fun templayer =>
              frameRefreshCallback (setRefreshRate (refreshRate (config s)) templayer))
         (baseLayer s)) s in
  if brightnessChange s then set_brightnessChange false (calculateTimerLut s)
  else s.

(** [if (++currentRow >= MATRIX_ROWS_PER_FRAME) currentRow = 0;] *)
Definition next_row c (row : Z) : Z :=
  let row := uint8 (row + 1) in
  if MATRIX_ROWS_PER_FRAME c <=? row then 0 else row.

(** [// do once-per-frame updates] *)
Definition once_per_frame s : SmartMatrix3 L :=
  if currentRow s =? 0 then frame_updates s else s.

(** [// enqueue row] *)
Definition enqueue s : SmartMatrix3 L :=
  let s := set_currentRow (next_row (config s) (currentRow s)) s in
  let s := loadMatrixBuffers (currentRow s) s in
  set_dmaBuffer (cbWrite (dmaBuffer s)) s.

(** One turn of the [while] loop. *)
Definition enqueue_row s : SmartMatrix3 L := enqueue (once_per_frame s).

Fixpoint matrixCalculations_loop (turns : nat) s : SmartMatrix3 L :=
  match turns with
  | O => s
  | S turns =>
      if cbIsFull (dmaBuffer s) then s
      else matrixCalculations_loop turns (enqueue_row s)
  end.

(** [while (!cbIsFull(&dmaBuffer)) { ... }].  Every turn commits one
    slot of the count-based ring, so the loop leaves after as many turns
    as the ring has free slots: [matrixCalculations_while] below is the
    equation of the loop and [matrixCalculations_returns] shows that the
    ring is full at the return. *)
Definition matrixCalculations s : SmartMatrix3 L :=
  matrixCalculations_loop
    (Z.to_nat (cb_size (dmaBuffer s) - cb_count (dmaBuffer s))) s.

(** *** begin *)

(** The timer and DMA set-up at the end of [begin]; pin modes and the
    fixed fields of the transfer descriptors are not modelled. *)
Definition start_hardware s : SmartMatrix3 L :=
  let c := config s in
  set_peripherals
    {| FTM1_SC := Z.lor (FTM_SC_CLKS 1) (FTM_SC_PS LATCH_TIMER_PRESCALE);
       FTM1_CNT := 0;
       FTM1_MOD := uint32 (MSB_BLOCK_TICKS c);
       FTM1_C0V := uint32 (LATCH_TIMER_PULSE_WIDTH_TICKS hw);
       FTM1_C1V := uint32 (MSB_BLOCK_TICKS c);
       dmaOutputAddress_enabled := true;
       dmaUpdateAddress_enabled := true;
       dmaUpdateTimer_enabled := true;
       dmaClockOutData_enabled := true;
       dmaUpdateAddress_SADDR := 0;
       dmaUpdateTimer_SADDR := 0;
       dmaClockOutData_SADDR := 0;
       dmaClockOutData_SOFF := latchesPerRow c;
       dmaClockOutData_CITER := latchesPerRow c;
       rowCalculation_pending := rowCalculation_pending (peripherals s) |} s.

Definition begin s : SmartMatrix3 L :=
  let s := set_dmaBuffer (cbInit (dmaBufferNumRows (config s))) s in
  let s := fill_addressLUT s in
  let s := calculateTimerLut s in
  let s := matrixCalculations s in
  start_hardware s.

(** The refresh pipeline runs when the four channels are enabled and the
    timer has a clock source. *)
Definition pipeline_started s : bool :=
  let p := peripherals s in
  dmaOutputAddress_enabled p && dmaUpdateAddress_enabled p
  && dmaUpdateTimer_enabled p && dmaClockOutData_enabled p
  && negb (Z.land (FTM1_SC p) (FTM_SC_CLKS 3) =? 0).

(** *** Interrupt handlers *)

Definition rowCalculationISR s : SmartMatrix3 L := matrixCalculations s.

Definition rowShiftCompleteISR s : SmartMatrix3 L :=
  let s := set_dmaBuffer (cbRead (dmaBuffer s)) s in
  let row := cbGetNextRead (dmaBuffer s) in
  let c := config s in
  let p := peripherals s in
  set_peripherals
    {| FTM1_SC := FTM1_SC p; FTM1_CNT := FTM1_CNT p; FTM1_MOD := FTM1_MOD p;
       FTM1_C0V := FTM1_C0V p; FTM1_C1V := FTM1_C1V p;
       dmaOutputAddress_enabled := dmaOutputAddress_enabled p;
       dmaUpdateAddress_enabled := dmaUpdateAddress_enabled p;
       dmaUpdateTimer_enabled := dmaUpdateTimer_enabled p;
       dmaClockOutData_enabled := dmaClockOutData_enabled p;
       dmaUpdateAddress_SADDR := row * latchesPerRow c;
       dmaUpdateTimer_SADDR := row * latchesPerRow c;
       dmaClockOutData_SADDR := row * dmaBufferBytesPerRow c;
       dmaClockOutData_SOFF := dmaClockOutData_SOFF p;
       dmaClockOutData_CITER := dmaClockOutData_CITER p;
       rowCalculation_pending := true |} s.

End Driver.

Arguments SmartMatrix3_ctor {L} width height depth bufferrows s.
Arguments calculateTimerLut hw {L} s.
Arguments fill_addressLUT hw {L} s.

(** ** Vocabulary of the properties *)

(** *** Constants and configurations *)

(** The address lines, least significant bit of the row number first. *)
Definition address_pins (hw : MatrixHardware) : list Z :=
  [ADDX_PIN_0 hw; ADDX_PIN_1 hw; ADDX_PIN_2 hw]
  ++ match ADDX_PIN_3 hw with Some pin3 => [pin3] | None => [] end.

(** The address lines are distinct bits of a 16-bit port half and
    [ADDX_PIN_MASK] is exactly their union. *)
Definition address_pins_ok (hw : MatrixHardware) : Prop :=
  NoDup (address_pins hw)
  /\ Forall (fun pin => 0 <= pin < 16) (address_pins hw)
  /\ ADDX_PIN_MASK hw = foldr (fun pin m => Z.lor (Z.shiftl 1 pin) m) 0 (address_pins hw).

(** Every field of [GPIO_WORD_ORDER] is a bit of the 32-bit word and no
    two fields share a bit. *)
Definition word_order_ok (hw : MatrixHardware) : Prop :=
  (forall p f, 0 <= GPIO_WORD_ORDER hw p f < 32)
  /\ (forall p f p' f',
        GPIO_WORD_ORDER hw p f = GPIO_WORD_ORDER hw p' f' -> p = p' /\ f = f').

(** The relations the constructor establishes between the static
    members. *)
Definition constructed (c : PanelConfig) : Prop :=
  0 <= matrixWidth c < 256
  /\ 0 <= matrixHeight c < 256
  /\ 0 <= colorDepthRgb c < 256
  /\ 0 <= dmaBufferNumRows c < 256
  /\ latchesPerRow c = uint8 (Z.quot (colorDepthRgb c) COLOR_CHANNELS_PER_PIXEL)
  /\ dmaBufferBytesPerPixel c = uint8 (latchesPerRow c * DMA_UPDATES_PER_CLOCK)
  /\ dmaBufferBytesPerRow c = uint16 (dmaBufferBytesPerPixel c * matrixWidth c).

(** The bit-plane counts the pixel encoder has code for (refresh depths
    24, 36 and 48). *)
Definition supported_latches (c : PanelConfig) : Prop :=
  latchesPerRow c = 8 \/ latchesPerRow c = 12 \/ latchesPerRow c = 16.

(** The members no part of the pump assigns. *)
Definition same_statics {L : Type} (s s' : SmartMatrix3 L) : Prop :=
  config s' = config s /\ addressLUT s' = addressLUT s
  /\ rotation s' = rotation s /\ dimmingFactor s' = dimmingFactor s
  /\ peripherals s' = peripherals s.

(** The state [begin] has reached when it calls [matrixCalculations]. *)
Definition prepared (hw : MatrixHardware) {L : Type} (s : SmartMatrix3 L) : SmartMatrix3 L :=
  calculateTimerLut hw
    (fill_addressLUT hw (set_dmaBuffer (cbInit (dmaBufferNumRows (config s))) s)).

(** [begin] divides by [refreshRate] and by [MATRIX_ROWS_PER_FRAME] when
    it loads the timer ([FTM1_MOD = MSB_BLOCK_TICKS]), and
    [calculateTimerLut] divides by [dimmingMaximum] once for every
    bit-plane. *)
Definition begin_divides_by_zero (hw : MatrixHardware) {L : Type} (s : SmartMatrix3 L)
    : bool :=
  let c := config s in
  (refreshRate c =? 0) || (MATRIX_ROWS_PER_FRAME c =? 0)
  || ((0 <? latchesPerRow c) && (dimmingMaximum hw =? 0)).

(** *** The running driver

    What happens after [begin]: the two interrupt handlers run, and the
    application calls the setters of the runtime controls.  The setters
    are outside this file; they are taken to store any values in the four
    members they own and to touch nothing else. *)
Inductive driver_event :=
  | row_calculation
  | row_shift_complete
  | runtime_control (degrees : rotationDegrees) (rotate dim : bool) (factor : Z).

Definition set_controls {L : Type} (degrees : rotationDegrees) (rotate dim : bool)
    (factor : Z) (s : SmartMatrix3 L) : SmartMatrix3 L :=
  {| config := config s; matrixUpdateBlocks := matrixUpdateBlocks s;
     addressLUT := addressLUT s; timerLUT := timerLUT s;
     matrixUpdateData := matrixUpdateData s; dmaBuffer := dmaBuffer s;
     currentRow := currentRow s; rotationChange := rotate;
     rotation := degrees; brightnessChange := dim;
     dimmingFactor := factor; baseLayer := baseLayer s;
     peripherals := peripherals s |}.

Definition run_event (hw : MatrixHardware) {L : Type} `{!SM_Layer L} (u : Z -> rgb48)
    (s : SmartMatrix3 L) (e : driver_event) : SmartMatrix3 L :=
  match e with
  | row_calculation => rowCalculationISR hw u s
  | row_shift_complete => rowShiftCompleteISR s
  | runtime_control degrees rotate dim factor => set_controls degrees rotate dim factor s
  end.

Definition run_events (hw : MatrixHardware) {L : Type} `{!SM_Layer L} (u : Z -> rgb48)
    (events : list driver_event) (s : SmartMatrix3 L) : SmartMatrix3 L :=
  foldl (run_event hw u) s events.

(** *** Timer values *)

(** The timer values of every plane fit the 16-bit timer and the signed
    product of [calculateTimerLut] does not overflow. *)
Definition timer_values_fit (hw : MatrixHardware) (c : PanelConfig) (factor : Z) : Prop :=
  0 <= LATCH_TIMER_PULSE_WIDTH_TICKS hw
  /\ 0 <= MSB_BLOCK_TICKS hw c
  /\ MSB_BLOCK_TICKS hw c + LATCH_TIMER_PULSE_WIDTH_TICKS hw < 65536
  /\ 0 < dimmingMaximum hw
  /\ 0 <= factor <= dimmingMaximum hw
  /\ MSB_BLOCK_TICKS hw c * dimmingMaximum hw < 2147483648.

(** *** Address lines *)

(** Line [n] is driven high for row [i]: some address line, the [k]-th
    counting from [k0], is line [n] and bit [k] of the row number is set. *)
Fixpoint on_pins (i n : Z) (k0 : Z) (pins : list Z) : bool :=
  match pins with
  | [] => false
  | pin :: rest => (Z.testbit i k0 && (n =? pin)) || on_pins i n (k0 + 1) rest
  end.

(** The number whose bit [k] is the level of the [k]-th address line in
    the mask [bits]. *)
Fixpoint read_address_pins (bits : Z) (pins : list Z) : Z :=
  match pins with
  | [] => 0
  | pin :: rest => Z.b2z (Z.testbit bits pin) + 2 * read_address_pins bits rest
  end.

(** *** Pixel planes *)

(** The six data lines, as opposed to the clock and the unused line. *)
Definition is_colour (f : gpio_line) : bool :=
  match f with clk | pad => false | _ => true end.

(** The sample a colour line carries: lines 1 belong to the row itself,
    lines 2 to the paired row. *)
Definition line_sample (f : gpio_line) (px0 px1 : rgb48) : Z :=
  match f with
  | r1 => red px0 | g1 => green px0 | b1 => blue px0
  | r2 => red px1 | g2 => green px1 | b2 => blue px1
  | clk | pad => 0
  end.

(** Bit-plane [k] of pixel [i] in row buffer [slot]: the shift-out channel
    reads, for plane [k], byte [k] of the pixel's clock-low group, which is
    field byte [k mod 4] of word [k / 4]; the clock-high group follows
    [latchesPerRow / 4] words later. *)
Definition plane_bit (hw : MatrixHardware) (c : PanelConfig) (data : gmap Z Z)
    (slot i k : Z) (f : gpio_line) : bool :=
  Z.testbit (data !!! (pixel_tempptr c slot i + k / 4))
    (GPIO_WORD_ORDER hw (byte_of_index (k mod 4)) f).

Definition clocked_plane_bit (hw : MatrixHardware) (c : PanelConfig) (data : gmap Z Z)
    (slot i k : Z) (f : gpio_line) : bool :=
  Z.testbit (data !!! (pixel_tempptr c slot i + latchesPerRow c / 4 + k / 4))
    (GPIO_WORD_ORDER hw (byte_of_index (k mod 4)) f).

(** The number written by a list of bits, most significant first. *)
Definition from_msb_first (bits : list bool) : Z :=
  foldl (fun acc (b : bool) => 2 * acc + Z.b2z b) 0 bits.

(** The planes of one line of one pixel, most significant plane first. *)
Definition planes_msb_first (latches : Z) (plane : Z -> bool) : list bool :=
  map plane (reverse (seqZ 0 latches)).

Definition reconstruct (hw : MatrixHardware) (c : PanelConfig) (data : gmap Z Z)
    (slot i : Z) (f : gpio_line) : Z :=
  from_msb_first (planes_msb_first (latchesPerRow c) (fun k => plane_bit hw c data slot i k f)).

Definition reconstruct_clocked (hw : MatrixHardware) (c : PanelConfig) (data : gmap Z Z)
    (slot i : Z) (f : gpio_line) : Z :=
  from_msb_first
    (planes_msb_first (latchesPerRow c) (fun k => clocked_plane_bit hw c data slot i k f)).

(** A 16-bit sample cut down to its [latches] most significant bits. *)
Definition truncated_sample (latches : Z) (v : Z) : Z :=
  Z.shiftr (uint16 v) (16 - latches).

(** *** Ring slots *)

Definition ring_ok (cb : CircularBuffer) : Prop :=
  0 <= cb_count cb <= cb_size cb /\ cb_size cb < 256.

(** Slot [k] is committed and not yet released. *)
Definition occupied (cb : CircularBuffer) (k : Z) : Prop :=
  exists d, 0 <= d < cb_count cb /\ k = (cb_start cb + d) mod cb_size cb.

(** Block [b] of the block array belongs to row buffer [slot]. *)
Definition slot_block (c : PanelConfig) (slot b : Z) : Prop :=
  slot * latchesPerRow c <= b < (slot + 1) * latchesPerRow c.

(** Word [a] of the data buffer lies in the bytes of row buffer [slot]:
    the bytes the shift-out channel reads from
    [slot * dmaBufferBytesPerRow] on. *)
Definition slot_word (c : PanelConfig) (slot a : Z) : Prop :=
  slot * dmaBufferBytesPerRow c <= 4 * a
  /\ 4 * a + 4 <= (slot + 1) * dmaBufferBytesPerRow c.

(** Word [a] is one of the words of pixel [i] of row buffer [slot]. *)
Definition pixel_words (c : PanelConfig) (slot i a : Z) : Prop :=
  pixel_tempptr c slot i <= a < pixel_tempptr c slot i + latchesPerRow c / 2.

(** What a row buffer holds: its blocks and its data words. *)
Definition same_slot {L : Type} (c : PanelConfig) (slot : Z) (s s' : SmartMatrix3 L) : Prop :=
  (forall b, slot_block c slot b -> matrixUpdateBlocks s' !! b = matrixUpdateBlocks s !! b)
  /\ (forall a, slot_word c slot a -> matrixUpdateData s' !! a = matrixUpdateData s !! a).

(** Nothing outside row buffer [slot] differs between [s] and [s']. *)
Definition writes_only_slot {L : Type} (c : PanelConfig) (slot : Z) (s s' : SmartMatrix3 L)
    : Prop :=
  (forall b, ~ slot_block c slot b -> matrixUpdateBlocks s' !! b = matrixUpdateBlocks s !! b)
  /\ (forall a, ~ slot_word c slot a -> matrixUpdateData s' !! a = matrixUpdateData s !! a).

(** ** Concrete boards, panels and states, for evaluation

    A Teensy 3.1 at 96 MHz has [F_BUS] = 48 MHz; the address and data
    lines below are one possible wiring of port D. *)
Definition example_word_order (p : gpio_byte) (f : gpio_line) : Z :=
  8 * byte_index p
  + match f with
    | r1 => 0 | clk => 1 | g2 => 2 | pad => 3 | b1 => 4 | b2 => 5 | r2 => 6 | g1 => 7
    end.

Definition example_hw : MatrixHardware :=
  {| F_BUS := 48000000;
     LATCH_TIMER_PULSE_WIDTH_TICKS := 21;
     MIN_BLOCK_PERIOD_PER_PIXEL_TICKS := 9;
     ADDX_PIN_0 := 4; ADDX_PIN_1 := 5; ADDX_PIN_2 := 6; ADDX_PIN_3 := Some 7;
     ADDX_PIN_MASK := 240;
     GPIO_WORD_ORDER := example_word_order;
     dimmingMaximum := 255 |}.

(** The bus clock and dead time of the worked example of the timing
    table: with 16 rows per frame and 135 Hz, [MSB_BLOCK_TICKS] is 256. *)
Definition timing_example_hw : MatrixHardware :=
  {| F_BUS := 1105920;
     LATCH_TIMER_PULSE_WIDTH_TICKS := 10;
     MIN_BLOCK_PERIOD_PER_PIXEL_TICKS := 0;
     ADDX_PIN_0 := 4; ADDX_PIN_1 := 5; ADDX_PIN_2 := 6; ADDX_PIN_3 := Some 7;
     ADDX_PIN_MASK := 240;
     GPIO_WORD_ORDER := example_word_order;
     dimmingMaximum := 255 |}.

(** A board file whose dimming maximum is 0. *)
Definition zero_dimming_hw : MatrixHardware :=
  {| F_BUS := F_BUS example_hw;
     LATCH_TIMER_PULSE_WIDTH_TICKS := LATCH_TIMER_PULSE_WIDTH_TICKS example_hw;
     MIN_BLOCK_PERIOD_PER_PIXEL_TICKS := MIN_BLOCK_PERIOD_PER_PIXEL_TICKS example_hw;
     ADDX_PIN_0 := ADDX_PIN_0 example_hw; ADDX_PIN_1 := ADDX_PIN_1 example_hw;
     ADDX_PIN_2 := ADDX_PIN_2 example_hw; ADDX_PIN_3 := ADDX_PIN_3 example_hw;
     ADDX_PIN_MASK := ADDX_PIN_MASK example_hw;
     GPIO_WORD_ORDER := GPIO_WORD_ORDER example_hw;
     dimmingMaximum := 0 |}.

(** A layer that paints one fixed colour and ignores the notifications. *)
Record solid_layer := { solid_colour : rgb48 }.

#[global] Instance solid_layer_SM_Layer : SM_Layer solid_layer :=
  {| fillRefreshRow := fun _ _ l => (fun _ => solid_colour l, l);
     setRotation := fun _ l => l;
     setRefreshRate := fun _ l => l;
     frameRefreshCallback := fun l => l |}.

Definition black : rgb48 := {| red := 0; green := 0; blue := 0 |}.

Definition sample_colour : rgb48 := {| red := 43981; green := 4660; blue := 65535 |}.

(** Static storage before the constructor has run: no buffer is written,
    [refreshRate] has its initialiser 135 and [currentRow] its initialiser
    0; the flags and the dimming factor are parameters, their
    initialisers are in SmartMatrix.h. *)
Definition static_storage {L : Type} (rotChange brChange : bool) (factor : Z)
    (layers : list L) : SmartMatrix3 L :=
  {| config := {| matrixWidth := 0; matrixHeight := 0; colorDepthRgb := 0;
                  dmaBufferNumRows := 0; latchesPerRow := 0;
                  dmaBufferBytesPerPixel := 0; dmaBufferBytesPerRow := 0;
                  refreshRate := 135 |};
     matrixUpdateBlocks := ∅; addressLUT := ∅; timerLUT := ∅;
     matrixUpdateData := ∅;
     dmaBuffer := {| cb_size := 0; cb_start := 0; cb_count := 0 |};
     currentRow := 0; rotationChange := rotChange; rotation := rotation0;
     brightnessChange := brChange; dimmingFactor := factor;
     baseLayer := layers; peripherals := reset_peripherals |}.

(** A 32 x 4 panel at refresh depth 24 on the example board. *)
Definition short_panel : PanelConfig :=
  config (SmartMatrix3_ctor 32 4 24 2 (static_storage (L := solid_layer) true false 128 [])).

(** A 32 x 32 panel with four bit-planes on the board of the worked
    timing example. *)
Definition timing_example_state : SmartMatrix3 solid_layer :=
  SmartMatrix3_ctor 32 32 12 2 (static_storage true false 128 []).

(** A 64 x 32 panel at refresh depth 24: the low planes are shorter than
    the time it takes to shift 64 pixels. *)
Definition wide_panel_state : SmartMatrix3 solid_layer :=
  SmartMatrix3_ctor 64 32 24 2 (static_storage true false 128 []).

(** A 32 x 32 panel at refresh depth 24 (eight planes), two row buffers,
    one solid layer, as [begin] has prepared it. *)
Definition example_state : SmartMatrix3 solid_layer :=
  prepared example_hw
    (SmartMatrix3_ctor 32 32 24 2
       (static_storage true true 128 [ {| solid_colour := sample_colour |} ])).

(** [example_state] after one turn of the pump: one row buffer is
    committed, one is free. *)
Definition half_full_state : SmartMatrix3 solid_layer :=
  enqueue_row example_hw (fun _ => black) example_state.

(** [example_state] at row 3 of the frame with a brightness change
    pending. *)
Definition mid_frame_state : SmartMatrix3 solid_layer :=
  set_brightnessChange true (set_currentRow 3 example_state).

(** A 32 x 4 panel (two row pairs) with one solid layer, as constructed,
    and the driver some time after [begin]: a rotation has been requested
    and the first row buffer has been shifted out. *)
Definition small_panel_state : SmartMatrix3 solid_layer :=
  SmartMatrix3_ctor 32 4 24 2
    (static_storage false false 128 [ {| solid_colour := sample_colour |} ]).

Definition rotating_state : SmartMatrix3 solid_layer :=
  run_events example_hw (fun _ => black)
    [runtime_control rotation90 true false 128; row_shift_complete]
    (begin example_hw (fun _ => black) small_panel_state).

(** A 2 x 4 panel at refresh depth 12: four planes. *)
Definition four_plane_state : SmartMatrix3 solid_layer :=
  prepared example_hw
    (SmartMatrix3_ctor 2 4 12 2
       (static_storage true true 128
          [ {| solid_colour := {| red := 15; green := 0; blue := 0 |} |} ])).

(** The four-plane panel after the pump has filled both row buffers and
    the consumer has released the first: row buffer 1 is still owned by
    the consumer, row buffer 0 is the next to be written. *)
Definition four_plane_running : SmartMatrix3 solid_layer :=
  rowShiftCompleteISR (matrixCalculations example_hw (fun _ => black) four_plane_state).

(** A 2 x 4 panel at refresh depth 30: ten planes. *)
Definition ten_plane_state : SmartMatrix3 solid_layer :=
  prepared example_hw
    (SmartMatrix3_ctor 2 4 30 2
       (static_storage true true 128
          [ {| solid_colour := {| red := 1; green := 0; blue := 0 |} |} ])).

(** Constructor arguments with refresh depth 0 (no bit-plane) and no row
    buffer; with refresh depth 2 (no bit-plane) and two row buffers; with
    refresh depth 24 and no row buffer. *)
Definition no_planes_no_rows : SmartMatrix3 solid_layer :=
  SmartMatrix3_ctor 32 32 0 0 (static_storage true true 128 []).

Definition no_planes : SmartMatrix3 solid_layer :=
  SmartMatrix3_ctor 32 32 2 2 (static_storage true true 128 []).

Definition no_rows : SmartMatrix3 solid_layer :=
  SmartMatrix3_ctor 32 32 24 0 (static_storage true true 128 []).

(** ** Further functions of the file *)

(** *** The layer chain, addLayer and useDefaultLayers

    Layers are objects linked through their [nextLayer] member and
    [baseLayer] points to the first.  A pointer is [None] when it is null
    and the address of a layer object otherwise; [next_of] holds the
    [nextLayer] member of every layer object.  The list [baseLayer] of the
    driver state above is the list of the objects of a chain that ends in
    a null pointer, in the order of the links ([is_chain] below). *)
Record layer_chain := { base_ptr : option Z; next_of : gmap Z (option Z) }.

(** [while (templayer->nextLayer) templayer = templayer->nextLayer;]: the
    layer the walk stops at.  There is no result when the walk has not
    come to an end after [fuel] steps or leaves the layer objects. *)
Fixpoint last_layer (fuel : nat) (next : gmap Z (option Z)) (templayer : Z) : option Z :=
  match fuel with
  | O => None
  | S fuel =>
      match next !! templayer with
      | None => None
      | Some None => Some templayer
      | Some (Some following) => last_layer fuel next following
      end
  end.

(** [addLayer] neither resets [newlayer->nextLayer] nor looks whether
    [newlayer] is in the chain already. *)
Definition addLayer (fuel : nat) (newlayer : Z) (ch : layer_chain) : option layer_chain :=
  match base_ptr ch with
  | Some base =>
      match last_layer fuel (next_of ch) base with
      | Some templayer =>
          Some {| base_ptr := Some base;
                  next_of := <[templayer := Some newlayer]> (next_of ch) |}
      | None => None
      end
  | None => Some {| base_ptr := Some newlayer; next_of := next_of ch |}
  end.

(** The [addLayer] calls of a sketch, in program order. *)
Fixpoint addLayers (fuel : nat) (layers : list Z) (ch : layer_chain) : option layer_chain :=
  match layers with
  | [] => Some ch
  | newlayer :: later =>
      match addLayer fuel newlayer ch with
      | Some ch => addLayers fuel later ch
      | None => None
      end
  end.

(** [backgroundLayer = baseLayer; foregroundLayer = baseLayer->nextLayer;]
    The result is the pair of pointers the function stores; with an empty
    chain the second assignment reads through the null [baseLayer] and
    there is no result. *)
Definition useDefaultLayers (ch : layer_chain) : option (Z * option Z) :=
  match base_ptr ch with
  | None => None
  | Some base =>
      match next_of ch !! base with
      | Some following => Some (base, following)
      | None => None
      end
  end.

(** The links from [start] lead through the layers [layers], in this
    order, to a null pointer. *)
Fixpoint is_chain (next : gmap Z (option Z)) (start : option Z) (layers : list Z) : Prop :=
  match layers with
  | [] => start = None
  | layer :: rest =>
      start = Some layer
      /\ exists following, next !! layer = Some following /\ is_chain next following rest
  end.

(** Three layer objects: the first two linked into a chain and the
    third not yet added; and the same three before any is added. *)
Definition two_layer_chain : layer_chain :=
  {| base_ptr := Some 1;
     next_of := {[ 1 := Some 2; 2 := None; 3 := None ]} |}.

Definition no_layer_chain : layer_chain :=
  {| base_ptr := None;
     next_of := {[ 1 := None; 2 := None; 3 := None ]} |}.

(** *** countFPS

    The two [static long] locals of the function; [long] has 32 bits on
    the Kinetis. *)
Record fps_counter := { loops : Z; lastMillis : Z }.

Definition fps_start : fps_counter := {| loops := 0; lastMillis := 0 |}.

(** One call at time [millis()]; the second component is the number the
    call prints after "Loops last second:", if it prints. *)
Definition countFPS (millis : Z) (st : fps_counter) : fps_counter * option Z :=
  let currentMillis := int32 millis in
  let loops := int32 (loops st + 1) in
  if 1000 <=? int32 (currentMillis - lastMillis st) then
    ({| loops := 0; lastMillis := currentMillis |}, Some loops)
  else
    ({| loops := loops; lastMillis := lastMillis st |}, None).

(** A sequence of calls, with everything they print. *)
Fixpoint countFPS_calls (times : list Z) (st : fps_counter) : fps_counter * list Z :=
  match times with
  | [] => (st, [])
  | millis :: later =>
      let '(st, printed) := countFPS millis st in
      let '(st, more) := countFPS_calls later st in
      (st, match printed with Some n => n :: more | None => more end)
  end.

(** *** The shift-out channel as [begin] and [rowShiftCompleteISR] program it *)

(** [#define DMA_TCD_MLOFF_MASK  (0x3FFFFC00)] *)
Definition DMA_TCD_MLOFF_MASK : Z := 1073740800.

(** The two fields [begin] puts into [NBYTES_MLOFFYES] beside the enable
    bit: [((1 - (dmaBufferBytesPerPixel * matrixWidth)) << 10) &
    DMA_TCD_MLOFF_MASK] and [matrixWidth * DMA_UPDATES_PER_CLOCK]. *)
Definition shift_out_mloff_field (c : PanelConfig) : Z :=
  Z.land (Z.shiftl (int32 (1 - int32 (dmaBufferBytesPerPixel c * matrixWidth c))) 10)
    DMA_TCD_MLOFF_MASK.

Definition shift_out_nbytes_field (c : PanelConfig) : Z :=
  int32 (matrixWidth c * DMA_UPDATES_PER_CLOCK).

(** The offset the channel adds to the source after a minor loop: the
    field of the mask, bits 10 to 29, read as a 20-bit two's-complement
    number. *)
Definition minor_loop_offset (c : PanelConfig) : Z :=
  (Z.shiftr (shift_out_mloff_field c) 10 + 2 ^ 19) mod 2 ^ 20 - 2 ^ 19.

(** [SADDR] is [matrixUpdateData + slot * dmaBufferBytesPerRow], a transfer
    moves one byte and advances the source by [SOFF = latchesPerRow], a
    minor loop makes as many transfers as the byte count says and then
    adds the minor-loop offset.  This is the byte offset, from
    [matrixUpdateData], of transfer [m] of minor loop [k]. *)
Definition shift_out_offset (c : PanelConfig) (slot k m : Z) : Z :=
  slot * dmaBufferBytesPerRow c
  + k * (shift_out_nbytes_field c * latchesPerRow c + minor_loop_offset c)
  + m * latchesPerRow c.

(** The timer table is the one [calculateTimerLut] computes from the
    current dimming factor. *)
Definition fresh_table (hw : MatrixHardware) {L : Type} (s : SmartMatrix3 L) : Prop :=
  timerLUT s = timerLUT (calculateTimerLut hw s).

(** *** Sums over the planes *)

Definition sum_planes (latches : Z) (f : Z -> Z) : Z :=
  for_loop latches (fun i total => total + f i) 0.

(** A 32 x 64 panel at refresh depth 24: 32 row pairs on four address
    lines. *)
Definition tall_panel_state : SmartMatrix3 solid_layer :=
  SmartMatrix3_ctor 32 64 24 2 (static_storage true false 128 []).

(** [example_state] with stale content in both buffers: the data and the
    blocks a turn of the pump has left. *)
Definition stale_state : SmartMatrix3 solid_layer :=
  set_matrixUpdateData (matrixUpdateData half_full_state)
    (set_matrixUpdateBlocks (matrixUpdateBlocks half_full_state) example_state).

(** The sketch's panel with one layer, as constructed: what [begin] is
    called on. *)
Definition constructed_state : SmartMatrix3 solid_layer :=
  SmartMatrix3_ctor 32 32 24 2
    (static_storage true true 128 [ {| solid_colour := sample_colour |} ]).

(** [example_state] after the pump has filled both row buffers: the state
    in which the row-complete interrupt finds the driver. *)
Definition running_state : SmartMatrix3 solid_layer :=
  matrixCalculations example_hw (fun _ => black) example_state.

(** A layer that draws nothing and records the rows it is asked for,
    latest first. *)
Record recording_layer := { drawn_rows : list Z }.

#[global] Instance recording_layer_SM_Layer : SM_Layer recording_layer :=
  {| fillRefreshRow :=
       fun row buffer l => (buffer, {| drawn_rows := row :: drawn_rows l |});
     setRotation := fun _ l => l;
     setRefreshRate := fun _ l => l;
     frameRefreshCallback := fun l => l |}.

(** A 32 x 5 panel (two row pairs and a fifth row) with a recording
    layer, as [begin] has prepared it. *)
Definition recording_state : SmartMatrix3 recording_layer :=
  prepared example_hw
    (SmartMatrix3_ctor 32 5 24 2
       (static_storage true true 128 [ {| drawn_rows := [] |} ])).

(** * Proofs *)

(** [lia] with division, modulo and quotient by constants. *)
#[local] Ltac Zify.zify_post_hook ::= Z.to_euclidean_division_equations.

(** ** Machine integers *)

Lemma uint8_eq z : uint8 z = z mod 256.
Proof. reflexivity. Qed.
Lemma uint16_eq z : uint16 z = z mod 65536.
Proof. reflexivity. Qed.
Lemma uint32_eq z : uint32 z = z mod 4294967296.
Proof. reflexivity. Qed.
Lemma int32_eq z : int32 z = (z + 2147483648) mod 4294967296 - 2147483648.
Proof. reflexivity. Qed.

Lemma uint8_small z : 0 <= z < 256 -> uint8 z = z.
Proof. rewrite uint8_eq. lia. Qed.
Lemma uint16_small z : 0 <= z < 65536 -> uint16 z = z.
Proof. rewrite uint16_eq. lia. Qed.
Lemma uint32_small z : 0 <= z < 4294967296 -> uint32 z = z.
Proof. rewrite uint32_eq. lia. Qed.
Lemma int32_small z : -2147483648 <= z < 2147483648 -> int32 z = z.
Proof. rewrite int32_eq. lia. Qed.

Lemma uint16_range z : 0 <= uint16 z < 65536.
Proof. rewrite uint16_eq. lia. Qed.
Lemma uint16_uint32 z : uint16 (uint32 z) = uint16 z.
Proof. rewrite !uint16_eq, uint32_eq. lia. Qed.
Lemma uint16_idemp z : uint16 (uint16 z) = uint16 z.
Proof. rewrite !uint16_eq. lia. Qed.

(** ** Counted loops *)

Section ForLoop.
Context {S : Type}.
Implicit Type body : Z -> S -> S.

Lemma for_loop_none n body (s : S) : n <= 0 -> for_loop n body s = s.
Proof. intros Hn. unfold for_loop. by rewrite seqZ_nil. Qed.

Lemma for_loop_step n body (s : S) :
  0 <= n -> for_loop (n + 1) body s = body n (for_loop n body s).
Proof.
  intros Hn. unfold for_loop.
  rewrite seqZ_app by lia. rewrite foldl_app.
  rewrite (seqZ_cons (0 + n) 1) by lia.
  rewrite (seqZ_nil (Z.succ (0 + n))) by lia.
  simpl. by rewrite Z.add_0_l.
Qed.

(** An invariant of the loop state that every turn re-establishes. *)
Lemma for_loop_invariant (P : Z -> S -> Prop) n body (s : S) :
  0 <= n ->
  P 0 s ->
  (forall i acc, 0 <= i < n -> P i acc -> P (i + 1) (body i acc)) ->
  P n (for_loop n body s).
Proof.
  intros Hn H0 Hstep. revert Hstep.
  pattern n. apply natlike_ind; [| |exact Hn].
  - intros _. by rewrite for_loop_none.
  - clear n Hn. intros n Hn IH Hstep.
    change (Z.succ n) with (n + 1) in *. rewrite for_loop_step by done.
    apply Hstep; [lia|]. apply IH. intros i acc Hi. apply Hstep. lia.
Qed.

Lemma for_loop_ext n body body' (s : S) :
  (forall i acc, 0 <= i < n -> body i acc = body' i acc) ->
  for_loop n body s = for_loop n body' s.
Proof.
  intros Hext. destruct (Z.le_gt_cases 0 n) as [Hn|Hn].
  - revert Hext. pattern n. apply natlike_ind; [| |exact Hn].
    + intros _. by rewrite !for_loop_none.
    + clear n Hn. intros n Hn IH Hext.
      change (Z.succ n) with (n + 1) in *. rewrite !for_loop_step by done.
      rewrite IH by (intros; apply Hext; lia). apply Hext. lia.
  - by rewrite !for_loop_none by lia.
Qed.
End ForLoop.

(** Loops that store into a table. *)
Section StoreLoop.
Context {V : Type}.
Implicit Type body : Z -> gmap Z V -> gmap Z V.

(** A cell outside the footprint of every turn keeps its content. *)
Lemma for_loop_untouched (touches : Z -> Z -> Prop) n body (m : gmap Z V) a :
  (forall i acc, 0 <= i < n -> ~ touches i a -> body i acc !! a = acc !! a) ->
  (forall i, 0 <= i < n -> ~ touches i a) ->
  for_loop n body m !! a = m !! a.
Proof.
  intros Hframe Hout. destruct (Z.le_gt_cases 0 n) as [Hn|Hn].
  - apply (for_loop_invariant (fun _ acc => acc !! a = m !! a)); [done|done|].
    intros i acc Hi Hacc. rewrite Hframe; auto.
  - by rewrite for_loop_none by lia.
Qed.

(** A cell that no turn after [i] touches holds what turn [i] left. *)
Lemma for_loop_last_store (touches : Z -> Z -> Prop) n body (m : gmap Z V) i a :
  (forall j acc, 0 <= j < n -> ~ touches j a -> body j acc !! a = acc !! a) ->
  0 <= i < n ->
  (forall j, i < j < n -> ~ touches j a) ->
  for_loop n body m !! a = body i (for_loop i body m) !! a.
Proof.
  intros Hframe Hi Hlater.
  assert (Hgen : forall k, 0 <= k ->
    i + 1 + k <= n ->
    for_loop (i + 1 + k) body m !! a = body i (for_loop i body m) !! a).
  { intros k Hk. pattern k. apply natlike_ind; [| |exact Hk].
    - intros _. rewrite Z.add_0_r. by rewrite for_loop_step by lia.
    - clear k Hk. intros k Hk IH Hle.
      replace (i + 1 + Z.succ k) with ((i + 1 + k) + 1) by lia.
      rewrite for_loop_step by lia. rewrite Hframe; [apply IH; lia|lia|].
      apply Hlater. lia. }
  replace n with (i + 1 + (n - i - 1)) at 1 by lia. apply Hgen; lia.
Qed.

Lemma for_loop_insert_lookup n (key : Z -> Z) (val : Z -> V) (m : gmap Z V) i :
  0 <= i < n ->
  (forall j, 0 <= j < n -> key j = key i -> j = i) ->
  for_loop n (fun j acc => <[key j := val j]> acc) m !! key i = Some (val i).
Proof.
  intros Hi Hinj.
  rewrite (for_loop_last_store (fun j a => key j = a) _ _ _ i).
  - apply lookup_insert_eq.
  - intros j acc _ Hne. by apply lookup_insert_ne.
  - done.
  - intros j Hj Heq. apply Hinj in Heq; lia.
Qed.

Lemma for_loop_insert_other n (key : Z -> Z) (val : Z -> V) (m : gmap Z V) a :
  (forall j, 0 <= j < n -> key j <> a) ->
  for_loop n (fun j acc => <[key j := val j]> acc) m !! a = m !! a.
Proof.
  intros Hout. apply (for_loop_untouched (fun j a => key j = a)).
  - intros j acc _ Hne. by apply lookup_insert_ne.
  - done.
Qed.
End StoreLoop.

(** ** The timer table *)

Lemma shiftr_nonneg_le x n : 0 <= x -> 0 <= n -> 0 <= Z.shiftr x n <= x.
Proof.
  intros Hx Hn. rewrite Z.shiftr_div_pow2 by done.
  assert (0 < 2 ^ n) by (apply Z.pow_pos_nonneg; lia).
  split; [apply Z.div_pos; lia|]. apply Z.div_le_upper_bound; nia.
Qed.

Lemma shiftr_succ x n : 0 <= n -> Z.shiftr x (n + 1) = Z.shiftr x n / 2.
Proof.
  intros Hn. rewrite !Z.shiftr_div_pow2 by lia.
  rewrite Z.pow_add_r by lia. rewrite Z.div_div by (try apply Z.pow_pos_nonneg; lia).
  done.
Qed.

Lemma shiftr_antitone x n m : 0 <= x -> 0 <= n <= m -> Z.shiftr x m <= Z.shiftr x n.
Proof.
  intros Hx [Hn Hnm]. replace m with (n + (m - n)) by lia.
  rewrite <- Z.shiftr_shiftr by lia.
  apply shiftr_nonneg_le; [|lia]. apply shiftr_nonneg_le; lia.
Qed.

Section TimerTable.
Context (hw : MatrixHardware) {L : Type}.
Implicit Type s : SmartMatrix3 L.
Implicit Type c : PanelConfig.

Lemma block_ticks_range c i :
  0 <= MSB_BLOCK_TICKS hw c -> i < latchesPerRow c ->
  0 <= block_ticks hw c i <= MSB_BLOCK_TICKS hw c.
Proof. intros. apply shiftr_nonneg_le; lia. Qed.

Lemma block_ticks_monotone c i j :
  0 <= MSB_BLOCK_TICKS hw c -> i <= j < latchesPerRow c ->
  block_ticks hw c i <= block_ticks hw c j.
Proof. intros. apply shiftr_antitone; lia. Qed.

Lemma block_ticks_doubles c i :
  i + 1 < latchesPerRow c ->
  block_ticks hw c i = block_ticks hw c (i + 1) / 2.
Proof.
  intros. unfold block_ticks.
  replace (latchesPerRow c - i - 1) with (latchesPerRow c - (i + 1) - 1 + 1) by lia.
  apply shiftr_succ. lia.
Qed.

Lemma initial_period_exact c factor i :
  timer_values_fit hw c factor -> i < latchesPerRow c ->
  initial_period hw c i = block_ticks hw c i + LATCH_TIMER_PULSE_WIDTH_TICKS hw.
Proof.
  intros (Hl & Hm & Hfit & _) Hi. unfold initial_period.
  pose proof (block_ticks_range c i Hm Hi).
  rewrite uint16_uint32. apply uint16_small. lia.
Qed.

Lemma initial_ontime_exact c factor i :
  timer_values_fit hw c factor -> i < latchesPerRow c ->
  initial_ontime hw c factor i
  = block_ticks hw c i * factor / dimmingMaximum hw + LATCH_TIMER_PULSE_WIDTH_TICKS hw.
Proof.
  intros (Hl & Hm & Hfit & Hmax & Hf & Hprod) Hi. unfold initial_ontime.
  pose proof (block_ticks_range c i Hm Hi) as Hb.
  assert (0 <= block_ticks hw c i * factor <= MSB_BLOCK_TICKS hw c * dimmingMaximum hw)
    as Hp by nia.
  rewrite int32_small by lia.
  rewrite Z.quot_div_nonneg by lia.
  assert (0 <= block_ticks hw c i * factor / dimmingMaximum hw <= block_ticks hw c i).
  { split; [apply Z.div_pos; lia|]. apply Z.div_le_upper_bound; nia. }
  rewrite uint16_uint32. apply uint16_small. lia.
Qed.

Lemma calculateTimerLut_lookup s i :
  0 <= i < latchesPerRow (config s) ->
  timerLUT (calculateTimerLut hw s) !! i
  = Some (timer_block hw (config s) (dimmingFactor s) i).
Proof.
  intros Hi. unfold calculateTimerLut. simpl.
  apply (for_loop_insert_lookup _ (fun j => j)); auto.
Qed.

Lemma calculateTimerLut_lookup_other s a :
  ~ 0 <= a < latchesPerRow (config s) ->
  timerLUT (calculateTimerLut hw s) !! a = timerLUT s !! a.
Proof.
  intros Ha. unfold calculateTimerLut. simpl.
  apply (for_loop_insert_other _ (fun j => j)). intros j Hj ->. done.
Qed.

Lemma calculateTimerLut_idempotent s :
  calculateTimerLut hw (calculateTimerLut hw s) = calculateTimerLut hw s.
Proof.
  assert (timerLUT (calculateTimerLut hw (calculateTimerLut hw s))
          = timerLUT (calculateTimerLut hw s)) as Heq.
  { apply map_eq. intros a.
    destruct (decide (0 <= a < latchesPerRow (config s))) as [Ha|Ha].
    - rewrite (calculateTimerLut_lookup (calculateTimerLut hw s)) by done.
      by rewrite calculateTimerLut_lookup.
    - by rewrite (calculateTimerLut_lookup_other (calculateTimerLut hw s)). }
  destruct s. unfold calculateTimerLut, set_timerLUT in *. simpl in *.
  by f_equal.
Qed.

Lemma pad_block_stable c t : pad_block hw c (pad_block hw c t) = pad_block hw c t.
Proof.
  unfold pad_block at 2.
  destruct (timer_period t <? min_block_period hw c) eqn:Hlt; [|unfold pad_block; by rewrite Hlt].
  unfold pad_block. simpl.
  set (M := min_block_period hw c) in *.
  set (p := timer_period t) in *. set (o := timer_oe t).
  assert (0 <= M < 4294967296) as HM
    by (subst M; unfold min_block_period; rewrite uint32_eq; lia).
  assert (p < M) as Hp by by apply Z.ltb_lt.
  rewrite Hlt.
  destruct (uint16 (p + uint16 (uint32 (M - p))) <? M) eqn:Hlt'; [|done].
  assert (uint16 (uint32 (M - uint16 (p + uint16 (uint32 (M - p))))) = 0) as ->.
  { rewrite !uint16_eq, !uint32_eq. lia. }
  rewrite !Z.add_0_r, !uint16_idemp. done.
Qed.
End TimerTable.

(** C2 (as amended).  Whenever the timer values fit the 16-bit timer
    ([timer_values_fit]: base unit plus latch dead time below 65536, dimming
    factor between 0 and a positive dimming maximum), [calculateTimerLut]
    computes for every bit-plane [i] the period
    [(MSB_BLOCK_TICKS >> (latchesPerRow - i - 1)) + LATCH_TIMER_PULSE_WIDTH_TICKS]
    and the on-time [floor (budget * dimmingFactor / dimmingMaximum)] plus
    the same dead time, and stores their padded pair in [timerLUT[i]]; the
    periods never decrease with the plane index and increase strictly from
    every plane with a non-zero budget on.  For four planes, base unit 256,
    dead time 10 and dimming 128/255 the periods are 42, 74, 138, 266 and
    the on-times 26, 42, 74, 138. *)
Theorem timer_table_formula (hw : MatrixHardware) {L : Type} (s : SmartMatrix3 L) :
  let c := config s in
  let budget i := Z.shiftr (MSB_BLOCK_TICKS hw c) (latchesPerRow c - i - 1) in
  let period i := budget i + LATCH_TIMER_PULSE_WIDTH_TICKS hw in
  let on_time i :=
    budget i * dimmingFactor s / dimmingMaximum hw + LATCH_TIMER_PULSE_WIDTH_TICKS hw in
  timer_values_fit hw c (dimmingFactor s) ->
  (forall i, 0 <= i < latchesPerRow c ->
     initial_period hw c i = period i
     /\ initial_ontime hw c (dimmingFactor s) i = on_time i
     /\ timerLUT (calculateTimerLut hw s) !! i
        = Some (pad_block hw c {| timer_oe := on_time i; timer_period := period i |}))
  /\ (forall i j, 0 <= i <= j -> j < latchesPerRow c ->
        initial_period hw c i <= initial_period hw c j)
  /\ (forall i, 0 <= i -> i + 1 < latchesPerRow c -> 0 < budget i ->
        initial_period hw c i < initial_period hw c (i + 1))
  /\ (latchesPerRow c = 4 -> MSB_BLOCK_TICKS hw c = 256 ->
      LATCH_TIMER_PULSE_WIDTH_TICKS hw = 10 ->
      dimmingFactor s = 128 -> dimmingMaximum hw = 255 ->
      map (initial_period hw c) [0; 1; 2; 3] = [42; 74; 138; 266]
      /\ map (initial_ontime hw c (dimmingFactor s)) [0; 1; 2; 3] = [26; 42; 74; 138]).
Proof.
  intros c budget period on_time Hfit.
  assert (Hper : forall i, i < latchesPerRow c -> initial_period hw c i = period i)
    by (intros; by eapply initial_period_exact).
  assert (Hon : forall i, i < latchesPerRow c ->
            initial_ontime hw c (dimmingFactor s) i = on_time i)
    by (intros; by eapply initial_ontime_exact).
  destruct Hfit as (Hl & Hm & _).
  split; [|split; [|split]].
  - intros i Hi. split; [apply Hper; lia|]. split; [apply Hon; lia|].
    rewrite calculateTimerLut_lookup by done. unfold timer_block.
    rewrite Hper, Hon by lia. done.
  - intros i j Hij Hj. rewrite !Hper by lia. unfold period.
    pose proof (block_ticks_monotone hw c i j Hm ltac:(lia)) as Hmono.
    unfold block_ticks in Hmono. subst budget. simpl. lia.
  - intros i Hi Hi1 Hpos. rewrite !Hper by lia. unfold period.
    pose proof (block_ticks_doubles hw c i Hi1) as Hd. unfold block_ticks in Hd.
    subst budget. simpl in *. lia.
  - intros Hfour Hbase Hdead Hfactor Hmax. split.
    + simpl. rewrite !Hper by lia. subst period budget. simpl.
      rewrite Hfour, Hbase, Hdead. reflexivity.
    + simpl. rewrite !Hon by lia. subst on_time budget. simpl.
      rewrite Hfour, Hbase, Hdead, Hfactor, Hmax. reflexivity.
Qed.

Lemma timer_table_formula_witness :
  map (initial_period timing_example_hw (config timing_example_state)) [0; 1; 2; 3]
  = [42; 74; 138; 266]
  /\ map (initial_ontime timing_example_hw (config timing_example_state) 128) [0; 1; 2; 3]
     = [26; 42; 74; 138].
Proof.
  refine (proj2 (proj2 (proj2
    (timer_table_formula timing_example_hw timing_example_state _))) _ _ _ _ _);
    try reflexivity.
  vm_compute. repeat split; congruence.
Defined.

(** C2, where the claim fails: on a 32 x 4 panel the most significant
    plane has 88888 ticks, more than the 16-bit [period] holds; the stored
    period is 23373, not 88909, and lies below the period of the plane
    before it. *)
Lemma timer_period_wraps :
  0 <= 7 < latchesPerRow short_panel
  /\ block_ticks example_hw short_panel 7 + LATCH_TIMER_PULSE_WIDTH_TICKS example_hw = 88909
  /\ initial_period example_hw short_panel 7 = 23373
  /\ initial_period example_hw short_panel 7
     <> Z.shiftr (MSB_BLOCK_TICKS example_hw short_panel) (latchesPerRow short_panel - 7 - 1)
        + LATCH_TIMER_PULSE_WIDTH_TICKS example_hw
  /\ ~ initial_period example_hw short_panel 6 < initial_period example_hw short_panel 7.
Proof. vm_compute. repeat split; congruence. Qed.

(** C6.  For every bit-plane whose period, as first computed, is shorter
    than [MIN_BLOCK_PERIOD_PER_PIXEL_TICKS * matrixWidth] (a duration the
    16-bit timer can hold), [calculateTimerLut] adds one and the same
    padding to the period and to the on-time, the stored period is exactly
    that minimum, and running the padding step or the whole calculation
    again changes nothing. *)
Theorem clamp_pads_to_minimum (hw : MatrixHardware) {L : Type} (s : SmartMatrix3 L) (i : Z) :
  let c := config s in
  let period := initial_period hw c i in
  let ontime := initial_ontime hw c (dimmingFactor s) i in
  let padding := min_block_period hw c - period in
  0 <= i < latchesPerRow c ->
  period < min_block_period hw c ->
  min_block_period hw c < 65536 ->
  exists entry,
    timerLUT (calculateTimerLut hw s) !! i = Some entry
    /\ 0 < padding
    /\ timer_period entry = period + padding
    /\ timer_period entry = min_block_period hw c
    /\ timer_oe entry = uint16 (ontime + padding)
    /\ (ontime <= period -> timer_oe entry = ontime + padding)
    /\ pad_block hw c entry = entry
    /\ calculateTimerLut hw (calculateTimerLut hw s) = calculateTimerLut hw s.
Proof.
  intros c period ontime padding Hi Hlt Hmin.
  exists (timer_block hw c (dimmingFactor s) i).
  assert (0 <= period < 65536) as Hp by apply uint16_range.
  assert (0 <= ontime < 65536) as Ho by apply uint16_range.
  assert (timer_block hw c (dimmingFactor s) i
          = {| timer_oe := uint16 (ontime + padding); timer_period := period + padding |})
    as Hblock.
  { unfold timer_block, pad_block. simpl. fold period ontime.
    apply Z.ltb_lt in Hlt as Hltb. rewrite Hltb.
    rewrite uint32_small by lia. rewrite (uint16_small (_ - _)) by lia.
    fold padding. f_equal. apply uint16_small. lia. }
  split; [by apply calculateTimerLut_lookup|].
  split; [lia|]. rewrite Hblock. simpl.
  split; [done|]. split; [lia|]. split; [done|].
  split; [intros; apply uint16_small; lia|].
  split; [|apply calculateTimerLut_idempotent].
  rewrite <- Hblock. apply pad_block_stable.
Qed.

Lemma clamp_pads_to_minimum_witness :
  exists entry,
    timerLUT (calculateTimerLut example_hw
                wide_panel_state) !! 0
    = Some entry
    /\ timer_period entry = 576 /\ timer_oe entry = 533.
Proof.
  destruct (clamp_pads_to_minimum example_hw wide_panel_state 0)
    as (entry & Hlook & _ & Hper & _ & Hoe & _).
  - vm_compute. split; congruence.
  - vm_compute. reflexivity.
  - vm_compute. reflexivity.
  - exists entry. split; [exact Hlook|].
    rewrite Hper, Hoe. vm_compute. split; reflexivity.
Defined.

(** ** The address table *)

Lemma testbit_one_shifted pin n :
  0 <= pin -> 0 <= n -> Z.testbit (Z.shiftl 1 pin) n = (n =? pin).
Proof.
  intros Hp Hn. rewrite Z.shiftl_spec by done.
  change 1 with (2 ^ 0). rewrite Z.pow2_bits_eqb by done.
  destruct (Z.eqb_spec 0 (n - pin)), (Z.eqb_spec n pin); lia || done.
Qed.

Lemma land_pow2_eqb i k : 0 <= k -> (Z.land i (2 ^ k) =? 0) = negb (Z.testbit i k).
Proof.
  intros Hk. destruct (Z.testbit i k) eqn:Hbit; simpl.
  - apply Z.eqb_neq. intros Hzero.
    assert (Z.testbit (Z.land i (2 ^ k)) k = true) as Hone
      by (rewrite Z.land_spec, Hbit, Z.pow2_bits_true; done).
    rewrite Hzero, Z.bits_0 in Hone. done.
  - apply Z.eqb_eq. apply Z.bits_inj'. intros n Hn.
    rewrite Z.land_spec, Z.bits_0, Z.pow2_bits_eqb by done.
    destruct (Z.eqb_spec k n) as [<-|]; [by rewrite Hbit|apply andb_false_r].
Qed.

Lemma on_pins_spec i n k0 pins :
  on_pins i n k0 pins = true
  <-> exists k : nat, pins !! k = Some n /\ Z.testbit i (k0 + Z.of_nat k) = true.
Proof.
  revert k0. induction pins as [|pin rest IH]; intros k0; simpl.
  - split; [done|]. by intros (k & Hk & _).
  - rewrite orb_true_iff, andb_true_iff, IH. split.
    + intros [[Hbit Heq]|(k & Hk & Hbit)].
      * apply Z.eqb_eq in Heq as ->. exists 0%nat. by rewrite Z.add_0_r.
      * exists (S k). split; [done|]. by replace (k0 + Z.of_nat (S k)) with (k0 + 1 + Z.of_nat k) by lia.
    + intros ([|k] & Hk & Hbit); simpl in Hk.
      * left. injection Hk as ->. rewrite Z.add_0_r in Hbit. split; [done|]. by apply Z.eqb_eq.
      * right. exists k. split; [done|]. by replace (k0 + 1 + Z.of_nat k) with (k0 + Z.of_nat (S k)) by lia.
Qed.

Lemma testbit_shiftr_0 v sh : Z.testbit (Z.shiftr v sh) 0 = Z.testbit v sh.
Proof. by rewrite Z.shiftr_spec. Qed.

Lemma read_address_pins_spec bits i pins k0 :
  0 <= k0 ->
  (forall (k : nat) pin, pins !! k = Some pin ->
     Z.testbit bits pin = Z.testbit i (k0 + Z.of_nat k)) ->
  read_address_pins bits pins = Z.shiftr i k0 mod 2 ^ Z.of_nat (length pins).
Proof.
  revert k0. induction pins as [|pin rest IH]; intros k0 Hk0 Hpins.
  - simpl. by rewrite Z.mod_1_r.
  - cbn [read_address_pins length].
    rewrite (Hpins 0%nat pin eq_refl), Z.add_0_r.
    rewrite (IH (k0 + 1)); [|lia|].
    + rewrite Nat2Z.inj_succ, Z.pow_succ_r by lia.
      rewrite Z.rem_mul_r by (try apply Z.pow_pos_nonneg; lia).
      rewrite <- Z.bit0_mod, testbit_shiftr_0, shiftr_succ by done. done.
    + intros k pin' Hk. rewrite (Hpins (S k) pin' Hk). f_equal. lia.
Qed.

Section AddressTable.
Context (hw : MatrixHardware).
Hypothesis pins_ok : address_pins_ok hw.

Lemma set_address_bit_spec bits i k pin n :
  0 <= k -> 0 <= pin < 16 -> 0 <= n ->
  (Z.testbit bits n = true -> n < 16) ->
  Z.testbit (set_address_bit i (2 ^ k) pin bits) n
  = Z.testbit bits n || (Z.testbit i k && (n =? pin)).
Proof.
  intros Hk Hpin Hn Hb. unfold set_address_bit. rewrite land_pow2_eqb by done.
  destruct (Z.testbit i k); simpl; [|by rewrite orb_false_r].
  unfold uint16. rewrite Z.testbit_mod_pow2, Z.lor_spec, testbit_one_shifted by lia.
  destruct (Z.eqb_spec n pin), (Z.testbit bits n), (Z.ltb_spec n 16);
    simpl; try done; try lia.
Qed.

Lemma address_bits_to_set_spec i n :
  0 <= n ->
  Z.testbit (address_bits_to_set hw i) n = on_pins i n 0 (address_pins hw).
Proof.
  intros Hn. destruct pins_ok as (_ & Hrange & _).
  unfold address_bits_to_set, address_pins in *.
  apply Forall_app in Hrange as [Hthree Hfourth].
  apply Forall_cons in Hthree as [Hp0 Hthree].
  apply Forall_cons in Hthree as [Hp1 Hthree].
  apply Forall_cons in Hthree as [Hp2 _].
  set (s0 := set_address_bit i 1 (ADDX_PIN_0 hw) 0).
  assert (Z.testbit s0 n = Z.testbit i 0 && (n =? ADDX_PIN_0 hw)) as H0.
  { subst s0. change 1 with (2 ^ 0).
    rewrite set_address_bit_spec by (rewrite ?Z.bits_0; done || lia).
    by rewrite Z.bits_0. }
  set (s1 := set_address_bit i 2 (ADDX_PIN_1 hw) s0).
  assert (Z.testbit s1 n
          = Z.testbit i 0 && (n =? ADDX_PIN_0 hw)
            || Z.testbit i 1 && (n =? ADDX_PIN_1 hw)) as H1.
  { subst s1. change 2 with (2 ^ 1).
    rewrite set_address_bit_spec, H0; [done|lia|lia|lia|].
    rewrite H0. intros [_ ?%Z.eqb_eq]%andb_true_iff. lia. }
  set (s2 := set_address_bit i 4 (ADDX_PIN_2 hw) s1).
  assert (Z.testbit s2 n
          = Z.testbit i 0 && (n =? ADDX_PIN_0 hw)
            || Z.testbit i 1 && (n =? ADDX_PIN_1 hw)
            || Z.testbit i 2 && (n =? ADDX_PIN_2 hw)) as H2.
  { subst s2. change 4 with (2 ^ 2).
    rewrite set_address_bit_spec, H1; [done|lia|lia|lia|].
    rewrite H1.
    intros [[_ ?%Z.eqb_eq]%andb_true_iff|[_ ?%Z.eqb_eq]%andb_true_iff]%orb_true_iff; lia. }
  destruct (ADDX_PIN_3 hw) as [pin3|]; simpl (on_pins _ _ _ _).
  - apply Forall_cons in Hfourth as [Hp3 _]. change 8 with (2 ^ 3).
    rewrite set_address_bit_spec, H2; [|lia|lia|lia|].
    + by rewrite orb_false_r, <- !orb_assoc.
    + rewrite H2.
      intros [[[_ ?%Z.eqb_eq]%andb_true_iff|[_ ?%Z.eqb_eq]%andb_true_iff]%orb_true_iff
             |[_ ?%Z.eqb_eq]%andb_true_iff]%orb_true_iff; lia.
  - by rewrite H2, orb_false_r, <- !orb_assoc.
Qed.

Lemma address_mask_spec n :
  0 <= n ->
  Z.testbit (ADDX_PIN_MASK hw) n = existsb (Z.eqb n) (address_pins hw).
Proof.
  intros Hn. destruct pins_ok as (_ & Hrange & ->).
  induction (address_pins hw) as [|pin rest IH]; simpl.
  - apply Z.bits_0.
  - apply Forall_cons in Hrange as [Hpin Hrest].
    rewrite Z.lor_spec, testbit_one_shifted by lia. by rewrite IH.
Qed.

Lemma on_pins_in_mask i n k0 pins :
  on_pins i n k0 pins = true -> existsb (Z.eqb n) pins = true.
Proof.
  revert k0. induction pins as [|pin rest IH]; intros k0; simpl; [done|].
  rewrite !orb_true_iff, andb_true_iff. intros [[_ ?]|?]; eauto.
Qed.

Lemma mask_below_16 n :
  existsb (Z.eqb n) (address_pins hw) = true -> n < 16.
Proof.
  destruct pins_ok as (_ & Hrange & _). rewrite existsb_exists.
  intros (pin & Hin & Heq). apply Z.eqb_eq in Heq as <-.
  rewrite Forall_forall in Hrange. apply Hrange. by apply list_elem_of_In.
Qed.

Lemma address_entry_union i :
  Z.lor (bits_to_set (address_entry hw i)) (bits_to_clear (address_entry hw i))
  = ADDX_PIN_MASK hw.
Proof.
  apply Z.bits_inj'. intros n Hn.
  unfold address_entry. cbn [bits_to_set bits_to_clear]. unfold uint16.
  rewrite Z.lor_spec, Z.testbit_mod_pow2, Z.land_spec, Z.lnot_spec by lia.
  rewrite address_bits_to_set_spec, address_mask_spec by done.
  destruct (on_pins i n 0 (address_pins hw)) eqn:Hon; cbn [orb negb andb].
  - symmetry. by eapply on_pins_in_mask.
  - destruct (existsb (Z.eqb n) (address_pins hw)) eqn:Hm; [|apply andb_false_r].
    apply mask_below_16 in Hm. destruct (Z.ltb_spec n 16); [done|lia].
Qed.

Lemma address_entry_disjoint i :
  Z.land (bits_to_set (address_entry hw i)) (bits_to_clear (address_entry hw i)) = 0.
Proof.
  apply Z.bits_inj'. intros n Hn.
  unfold address_entry. cbn [bits_to_set bits_to_clear]. unfold uint16.
  rewrite Z.land_spec, Z.testbit_mod_pow2, Z.land_spec, Z.lnot_spec, Z.bits_0 by lia.
  destruct (Z.testbit (address_bits_to_set hw i) n); [|done].
  cbn [negb andb]. apply andb_false_r.
Qed.

Lemma address_entry_set_bits i n :
  Z.testbit (bits_to_set (address_entry hw i)) n = true
  <-> exists k : nat, address_pins hw !! k = Some n /\ Z.testbit i (Z.of_nat k) = true.
Proof.
  unfold address_entry. cbn [bits_to_set]. destruct (Z.le_gt_cases 0 n) as [Hn|Hn].
  - rewrite address_bits_to_set_spec by done. apply on_pins_spec.
  - rewrite Z.testbit_neg_r by lia. split; [done|].
    intros (k & Hk & _). destruct pins_ok as (_ & Hrange & _).
    rewrite Forall_forall in Hrange.
    apply list_elem_of_lookup_2, Hrange in Hk. lia.
Qed.
(** Address line [k] carries bit [k] of the row number. *)
Lemma address_entry_pin i (k : nat) pin :
  address_pins hw !! k = Some pin ->
  Z.testbit (bits_to_set (address_entry hw i)) pin = Z.testbit i (Z.of_nat k).
Proof.
  intros Hk. destruct (Z.testbit i (Z.of_nat k)) eqn:Hbit.
  - apply address_entry_set_bits. by exists k.
  - apply not_true_is_false. intros Hset.
    apply address_entry_set_bits in Hset as (k' & Hk' & Hbit').
    destruct pins_ok as (Hnodup & _).
    assert (k' = k) as -> by by eapply NoDup_lookup.
    congruence.
Qed.
(** A row number that fits the address lines is read back from them. *)
Lemma address_entry_read i :
  0 <= i < 2 ^ Z.of_nat (length (address_pins hw)) ->
  read_address_pins (bits_to_set (address_entry hw i)) (address_pins hw) = i.
Proof.
  intros Hi. rewrite (read_address_pins_spec _ i _ 0); [|done|].
  - rewrite Z.shiftr_0_r. apply Z.mod_small. done.
  - intros k pin Hk. by apply address_entry_pin.
Qed.
End AddressTable.

(** ** What the pump leaves alone *)

Section Frame.
Context (hw : MatrixHardware) {L : Type} `{!SM_Layer L}.
Variable u : Z -> rgb48.
Implicit Type s : SmartMatrix3 L.

(** [loadMatrixBuffers] with the result of the layer loop named. *)
Lemma loadMatrixBuffers_eq row s :
  loadMatrixBuffers hw u row s
  = let c := config s in
    let r := uint8 row in
    let f := uint8 (cbGetNextWrite (dmaBuffer s)) in
    let rows := fill_rows r (r + MATRIX_ROW_PAIR_OFFSET c) (baseLayer s) u u in
    set_matrixUpdateData
      (load_pixels hw c f rows.1.1 rows.1.2 (matrixUpdateData s))
      (set_baseLayer rows.2
         (set_matrixUpdateBlocks
            (load_blocks c (addressLUT s) (timerLUT s) r f (matrixUpdateBlocks s)) s)).
Proof.
  unfold loadMatrixBuffers. cbv zeta.
  destruct (fill_rows _ _ _ _ _) as [[tempRow0 tempRow1] layers]. reflexivity.
Qed.

Lemma same_statics_refl s : same_statics s s.
Proof. by repeat split. Qed.

Lemma same_statics_trans s1 s2 s3 :
  same_statics s1 s2 -> same_statics s2 s3 -> same_statics s1 s3.
Proof.
  intros (? & ? & ? & ? & ?) (? & ? & ? & ? & ?).
  repeat split; congruence.
Qed.

Lemma frame_updates_statics s : same_statics s (frame_updates hw s).
Proof.
  unfold frame_updates.
  destruct (rotationChange s), (brightnessChange s) eqn:Hb; simpl; rewrite ?Hb;
    by repeat split.
Qed.

Lemma once_per_frame_statics s : same_statics s (once_per_frame hw s).
Proof.
  unfold once_per_frame. destruct (currentRow s =? 0);
    [apply frame_updates_statics|apply same_statics_refl].
Qed.

Lemma enqueue_statics s : same_statics s (enqueue hw u s).
Proof.
  unfold enqueue. cbv zeta. rewrite loadMatrixBuffers_eq. by repeat split.
Qed.

Lemma enqueue_row_statics s : same_statics s (enqueue_row hw u s).
Proof.
  unfold enqueue_row. eapply same_statics_trans;
    [apply once_per_frame_statics|apply enqueue_statics].
Qed.

(** The once-per-frame block touches neither the buffers nor the ring. *)
Lemma once_per_frame_buffers s :
  matrixUpdateBlocks (once_per_frame hw s) = matrixUpdateBlocks s
  /\ matrixUpdateData (once_per_frame hw s) = matrixUpdateData s
  /\ dmaBuffer (once_per_frame hw s) = dmaBuffer s
  /\ currentRow (once_per_frame hw s) = currentRow s.
Proof.
  unfold once_per_frame, frame_updates.
  destruct (currentRow s =? 0); [|done].
  destruct (rotationChange s), (brightnessChange s) eqn:Hb; simpl; rewrite ?Hb; done.
Qed.

(** A property every turn of the loop keeps holds when the loop leaves. *)
Lemma matrixCalculations_loop_invariant (P : SmartMatrix3 L -> Prop) turns s :
  (forall s', P s' -> cbIsFull (dmaBuffer s') = false -> P (enqueue_row hw u s')) ->
  P s -> P (matrixCalculations_loop hw u turns s).
Proof.
  intros Hstep. revert s. induction turns as [|turns IH]; intros s Hs; simpl; [done|].
  destruct (cbIsFull (dmaBuffer s)) eqn:Hfull; [done|]. apply IH. by apply Hstep.
Qed.

Lemma matrixCalculations_statics s : same_statics s (matrixCalculations hw u s).
Proof.
  unfold matrixCalculations.
  apply (matrixCalculations_loop_invariant (same_statics s)).
  - intros s' Hs' _. eapply same_statics_trans; [exact Hs'|apply enqueue_row_statics].
  - apply same_statics_refl.
Qed.

Lemma begin_addressLUT s :
  addressLUT (begin hw u s) = addressLUT (fill_addressLUT hw s).
Proof.
  unfold begin. cbv zeta. unfold start_hardware. simpl.
  destruct (matrixCalculations_statics
              (calculateTimerLut hw
                 (fill_addressLUT hw
                    (set_dmaBuffer (cbInit (dmaBufferNumRows (config s))) s))))
    as (_ & -> & _).
  reflexivity.
Qed.

Lemma fill_addressLUT_lookup s i :
  0 <= i < MATRIX_ROWS_PER_FRAME (config s) ->
  addressLUT (fill_addressLUT hw s) !! i = Some (address_entry hw i).
Proof.
  intros Hi. unfold fill_addressLUT. simpl.
  apply (for_loop_insert_lookup _ (fun j => j)); auto.
Qed.
End Frame.

(** C3.  After [begin] has filled the address table, the entry of every
    row [i] below [MATRIX_ROWS_PER_FRAME] has set and clear masks whose
    union is [ADDX_PIN_MASK] and which share no bit; address line [k]
    carries bit [k] of the binary representation of [i], a bit of the set
    mask is 1 only if it is the address line of a bit of [i] that is 1,
    and a row number that the address lines can represent is read back
    from the set mask. *)
Theorem address_table_correct (hw : MatrixHardware) {L : Type} `{!SM_Layer L}
    (u : Z -> rgb48) (s : SmartMatrix3 L) (i : Z) :
  address_pins_ok hw ->
  0 <= i < MATRIX_ROWS_PER_FRAME (config s) ->
  exists entry,
    addressLUT (begin hw u s) !! i = Some entry
    /\ Z.lor (bits_to_set entry) (bits_to_clear entry) = ADDX_PIN_MASK hw
    /\ Z.land (bits_to_set entry) (bits_to_clear entry) = 0
    /\ (forall (k : nat) pin, address_pins hw !! k = Some pin ->
          Z.testbit (bits_to_set entry) pin = Z.testbit i (Z.of_nat k))
    /\ (forall n, Z.testbit (bits_to_set entry) n = true
                  <-> exists k : nat, address_pins hw !! k = Some n
                                      /\ Z.testbit i (Z.of_nat k) = true)
    /\ (i < 2 ^ Z.of_nat (length (address_pins hw)) ->
          read_address_pins (bits_to_set entry) (address_pins hw) = i).
Proof.
  intros Hpins Hi. exists (address_entry hw i).
  split; [rewrite begin_addressLUT; by apply fill_addressLUT_lookup|].
  split; [by apply address_entry_union|].
  split; [by apply address_entry_disjoint|].
  split; [intros k pin; by apply address_entry_pin|].
  split; [intros n; by apply address_entry_set_bits|].
  intros Hfits. apply address_entry_read; [done|lia].
Qed.

Lemma example_pins_ok : address_pins_ok example_hw.
Proof.
  unfold address_pins_ok, address_pins. simpl. split; [|split; [|reflexivity]].
  - apply (bool_decide_unpack _). vm_compute. reflexivity.
  - repeat constructor; lia.
Qed.

Lemma address_table_correct_witness :
  exists entry,
    addressLUT (begin example_hw (fun _ => black)
                  (SmartMatrix3_ctor 32 32 24 2
                     (static_storage (L := solid_layer) true false 128 []))) !! 5
    = Some entry
    /\ Z.lor (bits_to_set entry) (bits_to_clear entry) = 240
    /\ Z.land (bits_to_set entry) (bits_to_clear entry) = 0
    /\ Z.testbit (bits_to_set entry) 6 = true
    /\ Z.testbit (bits_to_set entry) 5 = false
    /\ read_address_pins (bits_to_set entry) (address_pins example_hw) = 5.
Proof.
  destruct (address_table_correct example_hw (fun _ => black)
              (SmartMatrix3_ctor 32 32 24 2
                 (static_storage (L := solid_layer) true false 128 [])) 5
              example_pins_ok)
    as (entry & Hlook & Hunion & Hdisjoint & Hpin & _ & Hread).
  - vm_compute. split; congruence.
  - exists entry. split; [exact Hlook|]. split; [exact Hunion|].
    split; [exact Hdisjoint|].
    split; [exact (Hpin 2%nat 6 eq_refl)|].
    split; [exact (Hpin 1%nat 5 eq_refl)|].
    apply Hread. vm_compute. reflexivity.
Defined.

(** ** The output words *)

Lemma testbit_one n : Z.testbit 1 n = (n =? 0).
Proof.
  change 1 with (2 ^ 0). rewrite Z.pow2_bits_eqb by done. apply Z.eqb_sym.
Qed.

Lemma set_field_spec o f v n :
  0 <= f -> 0 <= n ->
  Z.testbit (set_field o f v) n = if n =? f then Z.testbit v 0 else Z.testbit o n.
Proof.
  intros Hf Hn. unfold set_field.
  rewrite Z.lor_spec, Z.ldiff_spec, testbit_one_shifted, Z.shiftl_spec by done.
  rewrite Z.land_spec, testbit_one.
  destruct (Z.eqb_spec n f) as [->|Hne]; simpl.
  - rewrite Z.sub_diag. simpl. by rewrite andb_false_r, andb_true_r.
  - destruct (Z.eqb_spec (n - f) 0); [lia|]. by rewrite !andb_false_r, andb_true_r, orb_false_r.
Qed.

Section OutputWords.
Context (hw : MatrixHardware).
Hypothesis order_ok : word_order_ok hw.

Lemma word_order_nonneg p f : 0 <= GPIO_WORD_ORDER hw p f.
Proof. destruct order_ok as [Hrange _]. apply Hrange. Qed.

Lemma word_order_eqb p f p' f' :
  (GPIO_WORD_ORDER hw p f =? GPIO_WORD_ORDER hw p' f')
  = bool_decide (p = p' /\ f = f').
Proof.
  destruct order_ok as [_ Hinj]. case_bool_decide as Hd.
  - destruct Hd as [-> ->]. apply Z.eqb_refl.
  - apply Z.eqb_neq. intros Heq. by apply Hinj in Heq.
Qed.

Lemma set_byte_spec p sh temp0 temp1 o p' f' :
  Z.testbit (set_byte hw p sh temp0 temp1 o) (GPIO_WORD_ORDER hw p' f')
  = if bool_decide (p' = p) && is_colour f'
    then Z.testbit (line_sample f' temp0 temp1) sh
    else Z.testbit o (GPIO_WORD_ORDER hw p' f').
Proof.
  unfold set_byte.
  rewrite !set_field_spec by apply word_order_nonneg.
  rewrite !word_order_eqb, !testbit_shiftr_0.
  destruct p, p', f'; reflexivity.
Qed.

Lemma gpio_word_spec q temp0 temp1 p f :
  Z.testbit (gpio_word hw q temp0 temp1) (GPIO_WORD_ORDER hw p f)
  = is_colour f && Z.testbit (line_sample f temp0 temp1) (byte_index p + q * 4).
Proof.
  unfold gpio_word. cbv zeta. rewrite !set_byte_spec, Z.bits_0.
  unfold sizeof_uint32_t.
  destruct p, (is_colour f); simpl; reflexivity.
Qed.

Lemma clkset_word_spec p f :
  Z.testbit (clkset_word hw) (GPIO_WORD_ORDER hw p f) = bool_decide (f = clk).
Proof.
  unfold clkset_word. cbv zeta.
  rewrite !set_field_spec by apply word_order_nonneg.
  rewrite !word_order_eqb, Z.bits_0.
  destruct p, f; simpl; reflexivity.
Qed.

Lemma clocked_word_spec q temp0 temp1 p f :
  Z.testbit (Z.lor (gpio_word hw q temp0 temp1) (clkset_word hw)) (GPIO_WORD_ORDER hw p f)
  = if bool_decide (f = clk) then true
    else is_colour f && Z.testbit (line_sample f temp0 temp1) (byte_index p + q * 4).
Proof.
  rewrite Z.lor_spec, gpio_word_spec, clkset_word_spec.
  destruct f; simpl; rewrite ?orb_false_r; reflexivity.
Qed.
End OutputWords.

(** ** The pixel loop *)

Ltac store_lookup :=
  repeat (rewrite lookup_insert; case_decide; [first [lia | done]|try lia]).

Section PixelLoop.
Context (hw : MatrixHardware).
Implicit Type c : PanelConfig.

Lemma supported_layout c :
  constructed c -> supported_latches c ->
  dmaBufferBytesPerPixel c = 2 * latchesPerRow c
  /\ dmaBufferBytesPerRow c = 2 * latchesPerRow c * matrixWidth c.
Proof.
  intros (Hw & _ & _ & _ & _ & Hbpp & Hbpr) Hsup.
  assert (dmaBufferBytesPerPixel c = 2 * latchesPerRow c) as Hpp.
  { rewrite Hbpp. unfold DMA_UPDATES_PER_CLOCK. rewrite uint8_eq.
    destruct Hsup as [-> | [-> | ->]]; reflexivity. }
  split; [done|]. rewrite Hbpr, Hpp, uint16_eq.
  destruct Hsup as [-> | [-> | ->]]; lia.
Qed.

(** With a supported plane count a pixel pair takes [latchesPerRow / 2]
    words and the pixels of all row buffers follow each other without
    gaps. *)
Lemma pixel_tempptr_eq c slot i :
  constructed c -> supported_latches c ->
  pixel_tempptr c slot i
  = (slot * matrixWidth c + i) * (latchesPerRow c / 2).
Proof.
  intros Hc Hsup. destruct (supported_layout c Hc Hsup) as [Hpp Hpr].
  unfold pixel_tempptr, sizeof_uint32_t. rewrite Hpp, Hpr.
  destruct Hsup as [-> | [-> | ->]].
  - change (8 / 2) with 4.
    replace (slot * (2 * 8 * matrixWidth c)) with (4 * slot * matrixWidth c * 4) by lia.
    replace (i * (2 * 8)) with (4 * i * 4) by lia.
    rewrite !Z.div_mul by done. lia.
  - change (12 / 2) with 6.
    replace (slot * (2 * 12 * matrixWidth c)) with (6 * slot * matrixWidth c * 4) by lia.
    replace (i * (2 * 12)) with (6 * i * 4) by lia.
    rewrite !Z.div_mul by done. lia.
  - change (16 / 2) with 8.
    replace (slot * (2 * 16 * matrixWidth c)) with (8 * slot * matrixWidth c * 4) by lia.
    replace (i * (2 * 16)) with (8 * i * 4) by lia.
    rewrite !Z.div_mul by done. lia.
Qed.

Lemma store_pixel_plain c slot i temp0 temp1 data q :
  supported_latches c -> 0 <= q < latchesPerRow c / 4 ->
  store_pixel hw c slot i temp0 temp1 data !! (pixel_tempptr c slot i + q)
  = Some (gpio_word hw q temp0 temp1).
Proof.
  intros Hsup Hq. unfold store_pixel, sizeof_uint32_t. cbv zeta.
  set (base := pixel_tempptr c slot i).
  destruct Hsup as [Hl|[Hl|Hl]]; rewrite Hl in *; simpl in *.
  - change (8 / 4) with 2 in *.
    assert (q = 0 \/ q = 1) as [-> | ->] by lia; store_lookup.
  - change (12 / 4) with 3 in *.
    assert (q = 0 \/ q = 1 \/ q = 2) as [-> | [-> | ->]] by lia; store_lookup.
  - change (16 / 4) with 4 in *.
    assert (q = 0 \/ q = 1 \/ q = 2 \/ q = 3) as [->|[-> | [-> | ->]]] by lia; store_lookup.
Qed.

Lemma store_pixel_clocked c slot i temp0 temp1 data q :
  supported_latches c -> 0 <= q < latchesPerRow c / 4 ->
  store_pixel hw c slot i temp0 temp1 data
    !! (pixel_tempptr c slot i + latchesPerRow c / 4 + q)
  = Some (Z.lor (gpio_word hw q temp0 temp1) (clkset_word hw)).
Proof.
  intros Hsup Hq. unfold store_pixel, sizeof_uint32_t. cbv zeta.
  set (base := pixel_tempptr c slot i).
  destruct Hsup as [Hl|[Hl|Hl]]; rewrite Hl in *; simpl in *.
  - change (8 / 4) with 2 in *.
    assert (q = 0 \/ q = 1) as [-> | ->] by lia; store_lookup.
  - change (12 / 4) with 3 in *.
    assert (q = 0 \/ q = 1 \/ q = 2) as [-> | [-> | ->]] by lia; store_lookup.
  - change (16 / 4) with 4 in *.
    assert (q = 0 \/ q = 1 \/ q = 2 \/ q = 3) as [->|[-> | [-> | ->]]] by lia; store_lookup.
Qed.

Lemma store_pixel_other c slot i temp0 temp1 data a :
  supported_latches c -> ~ pixel_words c slot i a ->
  store_pixel hw c slot i temp0 temp1 data !! a = data !! a.
Proof.
  intros Hsup Ha. unfold pixel_words in Ha.
  unfold store_pixel, sizeof_uint32_t. cbv zeta.
  set (base := pixel_tempptr c slot i) in *.
  destruct Hsup as [Hl|[Hl|Hl]]; rewrite Hl in *; simpl in *.
  - change (8 / 4) with 2 in *. change (8 / 2) with 4 in *. store_lookup; done.
  - change (12 / 4) with 3 in *. change (12 / 2) with 6 in *. store_lookup; done.
  - change (16 / 4) with 4 in *. change (16 / 2) with 8 in *. store_lookup; done.
Qed.
End PixelLoop.

Section PixelRow.
Context (hw : MatrixHardware).
Implicit Type c : PanelConfig.

Lemma pixel_words_in_slot c slot j a :
  constructed c -> supported_latches c ->
  0 <= j < matrixWidth c ->
  pixel_words c slot j a -> slot_word c slot a.
Proof.
  intros Hc Hsup Hj. unfold pixel_words, slot_word.
  rewrite pixel_tempptr_eq by done.
  destruct (supported_layout c Hc Hsup) as [_ ->].
  destruct Hsup as [-> | [-> | ->]].
  - change (8 / 2) with 4. lia.
  - change (12 / 2) with 6. lia.
  - change (16 / 2) with 8. lia.
Qed.

Lemma pixel_words_apart c slot i j a :
  constructed c -> supported_latches c ->
  i <> j -> pixel_words c slot i a -> ~ pixel_words c slot j a.
Proof.
  intros Hc Hsup Hij. unfold pixel_words.
  rewrite !pixel_tempptr_eq by done.
  destruct Hsup as [-> | [-> | ->]].
  - change (8 / 2) with 4. lia.
  - change (12 / 2) with 6. lia.
  - change (16 / 2) with 8. lia.
Qed.

Lemma plain_word_in_pixel c slot i q :
  supported_latches c -> 0 <= q < latchesPerRow c / 4 ->
  pixel_words c slot i (pixel_tempptr c slot i + q).
Proof.
  intros Hsup. unfold pixel_words. destruct Hsup as [-> | [-> | ->]].
  - change (8 / 2) with 4. change (8 / 4) with 2. lia.
  - change (12 / 2) with 6. change (12 / 4) with 3. lia.
  - change (16 / 2) with 8. change (16 / 4) with 4. lia.
Qed.

Lemma clocked_word_in_pixel c slot i q :
  supported_latches c -> 0 <= q < latchesPerRow c / 4 ->
  pixel_words c slot i (pixel_tempptr c slot i + latchesPerRow c / 4 + q).
Proof.
  intros Hsup. unfold pixel_words. destruct Hsup as [-> | [-> | ->]].
  - change (8 / 2) with 4. change (8 / 4) with 2. lia.
  - change (12 / 2) with 6. change (12 / 4) with 3. lia.
  - change (16 / 2) with 8. change (16 / 4) with 4. lia.
Qed.

(** A word of pixel [i] holds, after the loop, what the turn for pixel
    [i] stored. *)
Lemma load_pixels_pixel c slot tempRow0 tempRow1 data i a :
  constructed c -> supported_latches c ->
  0 <= i < matrixWidth c -> pixel_words c slot i a ->
  load_pixels hw c slot tempRow0 tempRow1 data !! a
  = store_pixel hw c slot i
      (load_temp (latchesPerRow c) (tempRow0 i))
      (load_temp (latchesPerRow c) (tempRow1 i))
      (for_loop i
         (fun j acc =>
            store_pixel hw c slot j
              (load_temp (latchesPerRow c) (tempRow0 j))
              (load_temp (latchesPerRow c) (tempRow1 j)) acc) data) !! a.
Proof.
  intros Hc Hsup Hi Ha. unfold load_pixels.
  apply (for_loop_last_store (pixel_words c slot) (matrixWidth c)
           (fun j acc =>
              store_pixel hw c slot j
                (load_temp (latchesPerRow c) (tempRow0 j))
                (load_temp (latchesPerRow c) (tempRow1 j)) acc) data i a); [|done|].
  - intros j acc _ Hout. by apply store_pixel_other.
  - intros j Hj. apply (pixel_words_apart c slot i j); [done|done|lia|done].
Qed.

Lemma load_pixels_plain c slot tempRow0 tempRow1 data i q :
  constructed c -> supported_latches c ->
  0 <= i < matrixWidth c -> 0 <= q < latchesPerRow c / 4 ->
  load_pixels hw c slot tempRow0 tempRow1 data !! (pixel_tempptr c slot i + q)
  = Some (gpio_word hw q (load_temp (latchesPerRow c) (tempRow0 i))
                         (load_temp (latchesPerRow c) (tempRow1 i))).
Proof.
  intros Hc Hsup Hi Hq.
  rewrite (load_pixels_pixel c slot _ _ _ i) by (try apply plain_word_in_pixel; done).
  by apply store_pixel_plain.
Qed.

Lemma load_pixels_clocked c slot tempRow0 tempRow1 data i q :
  constructed c -> supported_latches c ->
  0 <= i < matrixWidth c -> 0 <= q < latchesPerRow c / 4 ->
  load_pixels hw c slot tempRow0 tempRow1 data
    !! (pixel_tempptr c slot i + latchesPerRow c / 4 + q)
  = Some (Z.lor (gpio_word hw q (load_temp (latchesPerRow c) (tempRow0 i))
                                (load_temp (latchesPerRow c) (tempRow1 i)))
                (clkset_word hw)).
Proof.
  intros Hc Hsup Hi Hq.
  rewrite (load_pixels_pixel c slot _ _ _ i) by (try apply clocked_word_in_pixel; done).
  by apply store_pixel_clocked.
Qed.

Lemma load_pixels_other c slot tempRow0 tempRow1 data a :
  constructed c -> supported_latches c ->
  ~ slot_word c slot a ->
  load_pixels hw c slot tempRow0 tempRow1 data !! a = data !! a.
Proof.
  intros Hc Hsup Ha. unfold load_pixels.
  apply (for_loop_untouched
           (fun j a => 0 <= j < matrixWidth c /\ pixel_words c slot j a)).
  - intros j acc Hj Hout. apply store_pixel_other; [done|]. intros Hin. by apply Hout.
  - intros j Hj [_ Hin]. apply Ha. by eapply pixel_words_in_slot.
Qed.

Lemma load_blocks_lookup c addresses timers row slot blocks j :
  0 <= j < latchesPerRow c ->
  load_blocks c addresses timers row slot blocks !! (slot * latchesPerRow c + j)
  = Some {| timerValues := timers !!! j; addressValues := addresses !!! row |}.
Proof.
  intros Hj. unfold load_blocks. cbv zeta. simpl.
  rewrite (for_loop_insert_lookup _ (fun j => slot * latchesPerRow c + j)
             (fun j => {| timerValues :=
                            {| timer_oe := timer_oe (timers !!! j);
                               timer_period := timer_period (timers !!! j) |};
                          addressValues :=
                            {| bits_to_clear := bits_to_clear (addresses !!! row);
                               bits_to_set := bits_to_set (addresses !!! row) |} |}))
    by (done || (intros; lia)).
  by destruct (timers !!! j), (addresses !!! row).
Qed.

Lemma load_blocks_other c addresses timers row slot blocks b :
  ~ slot_block c slot b ->
  load_blocks c addresses timers row slot blocks !! b = blocks !! b.
Proof.
  intros Hb. unfold load_blocks. cbv zeta.
  apply (for_loop_insert_other _ (fun j => slot * latchesPerRow c + j)).
  intros j Hj Heq. apply Hb. unfold slot_block. lia.
Qed.
End PixelRow.

(** ** Reading the planes back *)

Lemma from_msb_first_acc (bits : list bool) (acc : Z) :
  foldl (fun acc (b : bool) => 2 * acc + Z.b2z b) acc bits
  = acc * 2 ^ Z.of_nat (length bits) + from_msb_first bits.
Proof.
  unfold from_msb_first. revert acc.
  induction bits as [|b bits IH]; intros acc; simpl foldl.
  - simpl. lia.
  - rewrite IH, (IH (2 * 0 + Z.b2z b)).
    replace (Z.of_nat (length (b :: bits))) with (Z.of_nat (length bits) + 1)
      by (simpl; lia).
    rewrite Z.pow_add_r by lia. lia.
Qed.

Lemma planes_msb_first_succ n plane :
  0 <= n -> planes_msb_first (n + 1) plane = plane n :: planes_msb_first n plane.
Proof.
  intros Hn. unfold planes_msb_first.
  rewrite seqZ_app by lia. rewrite (seqZ_cons (0 + n) 1) by lia.
  rewrite (seqZ_nil (Z.succ (0 + n))) by lia.
  rewrite reverse_app. simpl. by rewrite Z.add_0_l.
Qed.

Lemma length_planes_msb_first n plane :
  0 <= n -> Z.of_nat (length (planes_msb_first n plane)) = n.
Proof.
  intros Hn. unfold planes_msb_first.
  rewrite length_map, length_reverse, length_seqZ. lia.
Qed.

(** Planes that are the bits of [v] spell [v] cut to [n] bits. *)
Lemma from_msb_first_planes n v plane :
  0 <= n ->
  (forall k, 0 <= k < n -> plane k = Z.testbit v k) ->
  from_msb_first (planes_msb_first n plane) = v mod 2 ^ n.
Proof.
  intros Hn. pattern n. apply natlike_ind; [| |exact Hn]; clear n Hn.
  - intros _. unfold planes_msb_first. rewrite seqZ_nil by done. simpl.
    by rewrite Z.mod_1_r.
  - intros n Hn IH Hbits. change (Z.succ n) with (n + 1).
    rewrite planes_msb_first_succ by done.
    unfold from_msb_first. simpl foldl. rewrite from_msb_first_acc.
    rewrite length_planes_msb_first by done.
    rewrite IH by (intros; apply Hbits; lia).
    rewrite Hbits by lia.
    rewrite Z.pow_add_r, Z.rem_mul_r, Z.testbit_spec' by (try apply Z.pow_nonzero; lia).
    change (2 ^ 1) with 2. lia.
Qed.

Lemma byte_index_of_index m : 0 <= m < 4 -> byte_index (byte_of_index m) = m.
Proof.
  intros Hm.
  assert (m = 0 \/ m = 1 \/ m = 2 \/ m = 3) as [-> | [-> | [-> | ->]]] by lia;
    reflexivity.
Qed.

Lemma truncated_sample_range latches v :
  0 <= latches <= 16 -> 0 <= truncated_sample latches v < 2 ^ latches.
Proof.
  intros Hl. unfold truncated_sample.
  pose proof (uint16_range v) as Hv.
  rewrite Z.shiftr_div_pow2 by lia.
  assert (0 < 2 ^ (16 - latches)) by (apply Z.pow_pos_nonneg; lia).
  split; [apply Z.div_pos; lia|].
  apply Z.div_lt_upper_bound; [done|].
  rewrite <- Z.pow_add_r by lia. replace (16 - latches + latches) with 16 by lia.
  change (2 ^ 16) with 65536. lia.
Qed.

Lemma reduce_sample_truncated latches v :
  latches = 8 \/ latches = 12 \/ latches = 16 ->
  reduce_sample latches (uint16 v) = truncated_sample latches v.
Proof.
  intros Hl. pose proof (uint16_range v) as Hv.
  assert (0 <= truncated_sample latches v < 2 ^ latches) as Hr
    by (apply truncated_sample_range; lia).
  unfold reduce_sample, truncated_sample in *.
  destruct Hl as [-> | [-> | ->]]; simpl in *.
  - apply uint16_small. lia.
  - apply uint16_small. lia.
  - by rewrite Z.shiftr_0_r.
Qed.

Lemma line_sample_load_temp latches f px0 px1 :
  is_colour f = true ->
  line_sample f (load_temp latches px0) (load_temp latches px1)
  = reduce_sample latches (uint16 (line_sample f px0 px1)).
Proof. by destruct f. Qed.

Section Planes.
Context (hw : MatrixHardware).
Hypothesis order_ok : word_order_ok hw.
Implicit Type c : PanelConfig.

Lemma plane_index_in_pixel c k :
  supported_latches c -> 0 <= k < latchesPerRow c ->
  0 <= k / 4 < latchesPerRow c / 4.
Proof. intros [Hl | [Hl | Hl]] Hk; rewrite Hl in *; lia. Qed.

(** Plane [k] of a colour line is bit [k] of the truncated sample, in
    the clock-low word and in the clock-high word. *)
Lemma plane_bit_load_pixels c slot tempRow0 tempRow1 data i k f :
  constructed c -> supported_latches c ->
  0 <= i < matrixWidth c -> 0 <= k < latchesPerRow c -> is_colour f = true ->
  plane_bit hw c (load_pixels hw c slot tempRow0 tempRow1 data) slot i k f
  = Z.testbit (truncated_sample (latchesPerRow c)
                 (line_sample f (tempRow0 i) (tempRow1 i))) k.
Proof.
  intros Hc Hsup Hi Hk Hf. unfold plane_bit.
  rewrite lookup_total_alt, load_pixels_plain
    by (try apply plane_index_in_pixel; done).
  simpl. rewrite gpio_word_spec, Hf by done. simpl.
  rewrite byte_index_of_index by lia.
  rewrite line_sample_load_temp, reduce_sample_truncated by done.
  f_equal. lia.
Qed.

Lemma clocked_plane_bit_load_pixels c slot tempRow0 tempRow1 data i k f :
  constructed c -> supported_latches c ->
  0 <= i < matrixWidth c -> 0 <= k < latchesPerRow c -> is_colour f = true ->
  clocked_plane_bit hw c (load_pixels hw c slot tempRow0 tempRow1 data) slot i k f
  = Z.testbit (truncated_sample (latchesPerRow c)
                 (line_sample f (tempRow0 i) (tempRow1 i))) k.
Proof.
  intros Hc Hsup Hi Hk Hf. unfold clocked_plane_bit.
  rewrite lookup_total_alt, load_pixels_clocked
    by (try apply plane_index_in_pixel; done).
  simpl. rewrite clocked_word_spec, Hf by done.
  rewrite bool_decide_eq_false_2 by (intros ->; done). simpl.
  rewrite byte_index_of_index by lia.
  rewrite line_sample_load_temp, reduce_sample_truncated by done.
  f_equal. lia.
Qed.

Lemma reconstruct_load_pixels c slot tempRow0 tempRow1 data i f :
  constructed c -> supported_latches c ->
  0 <= i < matrixWidth c -> is_colour f = true ->
  reconstruct hw c (load_pixels hw c slot tempRow0 tempRow1 data) slot i f
  = truncated_sample (latchesPerRow c) (line_sample f (tempRow0 i) (tempRow1 i))
  /\ reconstruct_clocked hw c (load_pixels hw c slot tempRow0 tempRow1 data) slot i f
     = truncated_sample (latchesPerRow c) (line_sample f (tempRow0 i) (tempRow1 i)).
Proof.
  intros Hc Hsup Hi Hf.
  assert (0 <= latchesPerRow c <= 16) as Hl by (destruct Hsup as [-> | [-> | ->]]; lia).
  pose proof (truncated_sample_range (latchesPerRow c)
                (line_sample f (tempRow0 i) (tempRow1 i)) Hl) as Hr.
  unfold reconstruct, reconstruct_clocked. split.
  - rewrite (from_msb_first_planes _
               (truncated_sample (latchesPerRow c)
                  (line_sample f (tempRow0 i) (tempRow1 i)))); [|lia|].
    + apply Z.mod_small. lia.
    + intros k Hk. by apply plane_bit_load_pixels.
  - rewrite (from_msb_first_planes _
               (truncated_sample (latchesPerRow c)
                  (line_sample f (tempRow0 i) (tempRow1 i)))); [|lia|].
    + apply Z.mod_small. lia.
    + intros k Hk. by apply clocked_plane_bit_load_pixels.
Qed.
End Planes.

(** ** The pixel encoder *)

Lemma example_word_order_ok : word_order_ok example_hw.
Proof.
  split.
  - intros p f. destruct p, f; vm_compute; split; congruence.
  - intros p f p' f'. destruct p, f, p', f'; vm_compute; intros; split; congruence.
Qed.

Lemma constructed_ctor {L : Type} width height depth bufferrows (s : SmartMatrix3 L) :
  constructed (config (SmartMatrix3_ctor width height depth bufferrows s)).
Proof.
  unfold constructed, SmartMatrix3_ctor. simpl. rewrite !uint8_eq.
  repeat split; lia.
Qed.

Lemma matrixUpdateData_loadMatrixBuffers (hw : MatrixHardware) {L : Type} `{!SM_Layer L}
    (u : Z -> rgb48) (s : SmartMatrix3 L) row :
  let c := config s in
  let rows := fill_rows (uint8 row) (uint8 row + MATRIX_ROW_PAIR_OFFSET c)
                (baseLayer s) u u in
  matrixUpdateData (loadMatrixBuffers hw u row s)
  = load_pixels hw c (uint8 (cbGetNextWrite (dmaBuffer s))) rows.1.1 rows.1.2
      (matrixUpdateData s).
Proof. by rewrite loadMatrixBuffers_eq. Qed.

Lemma matrixUpdateBlocks_loadMatrixBuffers (hw : MatrixHardware) {L : Type} `{!SM_Layer L}
    (u : Z -> rgb48) (s : SmartMatrix3 L) row :
  matrixUpdateBlocks (loadMatrixBuffers hw u row s)
  = load_blocks (config s) (addressLUT s) (timerLUT s) (uint8 row)
      (uint8 (cbGetNextWrite (dmaBuffer s))) (matrixUpdateBlocks s).
Proof. by rewrite loadMatrixBuffers_eq. Qed.

(** C1 (as amended).  For the plane counts 8, 12 and 16 and every pixel
    of the row pair, once [loadMatrixBuffers] has filled the row buffer,
    the bits a colour line carries in the [latchesPerRow] planes, read most
    significant plane first, spell the sample of that line cut down to its
    [latchesPerRow] most significant bits; this holds for the clock-low
    words and for the clock-high words. *)
Theorem pixel_round_trip (hw : MatrixHardware) {L : Type} `{!SM_Layer L}
    (u : Z -> rgb48) (s : SmartMatrix3 L) (row i : Z) (f : gpio_line) :
  let c := config s in
  let slot := uint8 (cbGetNextWrite (dmaBuffer s)) in
  let rows := fill_rows (uint8 row) (uint8 row + MATRIX_ROW_PAIR_OFFSET c)
                (baseLayer s) u u in
  let data := matrixUpdateData (loadMatrixBuffers hw u row s) in
  let sample := line_sample f (rows.1.1 i) (rows.1.2 i) in
  word_order_ok hw -> constructed c -> supported_latches c ->
  0 <= i < matrixWidth c -> is_colour f = true ->
  reconstruct hw c data slot i f = truncated_sample (latchesPerRow c) sample
  /\ reconstruct_clocked hw c data slot i f = truncated_sample (latchesPerRow c) sample.
Proof.
  intros c slot rows data sample Hok Hc Hsup Hi Hf.
  subst data. rewrite matrixUpdateData_loadMatrixBuffers.
  by apply reconstruct_load_pixels.
Qed.

Lemma pixel_round_trip_witness :
  reconstruct example_hw (config example_state)
    (matrixUpdateData (loadMatrixBuffers example_hw (fun _ => black) 1 example_state))
    0 3 g1 = 18.
Proof.
  refine (eq_trans
    (proj1 (pixel_round_trip example_hw (fun _ => black) example_state 1 3 g1
              example_word_order_ok _ _ _ _)) _).
  - apply constructed_ctor.
  - left. reflexivity.
  - vm_compute. split; congruence.
  - reflexivity.
  - vm_compute. reflexivity.
Defined.

(** C1, where the claim fails: with four planes (refresh depth 12) the
    encoder neither shifts the samples nor keeps the words of a pixel
    apart; the red sample 15, whose four most significant bits are 0, is
    read back from the planes as 15. *)
Lemma round_trip_fails_four_planes :
  let s := four_plane_state in
  let data := matrixUpdateData (loadMatrixBuffers example_hw (fun _ => black) 1 s) in
  let rows := fill_rows 1 (1 + MATRIX_ROW_PAIR_OFFSET (config s)) (baseLayer s)
                (fun _ => black) (fun _ => black) in
  latchesPerRow (config s) = 4
  /\ line_sample r1 (rows.1.1 0) (rows.1.2 0) = 15
  /\ truncated_sample 4 15 = 0
  /\ reconstruct example_hw (config s) data 0 0 r1 = 15
  /\ reconstruct example_hw (config s) data 0 0 r1
     <> truncated_sample (latchesPerRow (config s)) (line_sample r1 (rows.1.1 0) (rows.1.2 0)).
Proof. vm_compute. repeat split; congruence. Qed.

(** C9 (as amended).  For eight and for twelve planes the encoder shifts
    every red, green and blue sample of both rows right by [16 -
    latchesPerRow] places before encoding (the quotient by a power of two,
    nothing is rounded), and plane [k] of a colour line is bit [k + (16 -
    latchesPerRow)] of its 16-bit sample: the planes hold exactly the
    [latchesPerRow] most significant bits. *)
Theorem encoder_discards_low_bits (hw : MatrixHardware) {L : Type} `{!SM_Layer L}
    (u : Z -> rgb48) (s : SmartMatrix3 L) (row i k : Z) (f : gpio_line) :
  let c := config s in
  let slot := uint8 (cbGetNextWrite (dmaBuffer s)) in
  let rows := fill_rows (uint8 row) (uint8 row + MATRIX_ROW_PAIR_OFFSET c)
                (baseLayer s) u u in
  let data := matrixUpdateData (loadMatrixBuffers hw u row s) in
  let sample := uint16 (line_sample f (rows.1.1 i) (rows.1.2 i)) in
  let dropped := 16 - latchesPerRow c in
  word_order_ok hw -> constructed c ->
  latchesPerRow c = 8 \/ latchesPerRow c = 12 ->
  0 <= i < matrixWidth c -> 0 <= k < latchesPerRow c -> is_colour f = true ->
  line_sample f (load_temp (latchesPerRow c) (rows.1.1 i))
                (load_temp (latchesPerRow c) (rows.1.2 i))
  = sample / 2 ^ dropped
  /\ plane_bit hw c data slot i k f = Z.testbit sample (k + dropped)
  /\ clocked_plane_bit hw c data slot i k f = Z.testbit sample (k + dropped).
Proof.
  intros c slot rows data sample dropped Hok Hc Hl Hi Hk Hf.
  assert (supported_latches c) as Hsup by (unfold supported_latches; tauto).
  subst data. rewrite matrixUpdateData_loadMatrixBuffers.
  rewrite plane_bit_load_pixels, clocked_plane_bit_load_pixels by done.
  rewrite line_sample_load_temp, reduce_sample_truncated by done.
  unfold truncated_sample. fold sample dropped.
  rewrite Z.shiftr_spec by lia.
  split; [|done]. apply Z.shiftr_div_pow2. subst dropped. lia.
Qed.

Lemma encoder_discards_low_bits_witness :
  plane_bit example_hw (config example_state)
    (matrixUpdateData (loadMatrixBuffers example_hw (fun _ => black) 1 example_state))
    0 3 7 r1 = true.
Proof.
  refine (eq_trans
    (proj1 (proj2 (encoder_discards_low_bits example_hw (fun _ => black) example_state
                     1 3 7 r1 example_word_order_ok _ _ _ _ _))) _).
  - apply constructed_ctor.
  - left. reflexivity.
  - vm_compute. split; congruence.
  - vm_compute. split; congruence.
  - reflexivity.
  - vm_compute. reflexivity.
Defined.

(** C9, where the claim fails: with ten planes (refresh depth 30) the
    16-bit samples exceed the plane count, yet no sample is shifted; the
    red sample 1 stays 1 instead of becoming [1 / 2 ^ 6 = 0], and plane 0
    carries its bit 0 instead of bit 6. *)
Lemma ten_planes_not_shifted :
  let s := ten_plane_state in
  let data := matrixUpdateData (loadMatrixBuffers example_hw (fun _ => black) 1 s) in
  let rows := fill_rows 1 (1 + MATRIX_ROW_PAIR_OFFSET (config s)) (baseLayer s)
                (fun _ => black) (fun _ => black) in
  latchesPerRow (config s) = 10
  /\ uint16 (line_sample r1 (rows.1.1 0) (rows.1.2 0)) = 1
  /\ line_sample r1 (load_temp 10 (rows.1.1 0)) (load_temp 10 (rows.1.2 0)) = 1
  /\ 1 / 2 ^ (16 - 10) = 0
  /\ plane_bit example_hw (config s) data 0 0 0 r1 = true
  /\ Z.testbit 1 (0 + (16 - 10)) = false.
Proof. vm_compute. repeat split; congruence. Qed.

(** C10.  After [loadMatrixBuffers] has filled a row buffer for row
    [row], each of its [latchesPerRow] blocks holds the address pair of
    [addressLUT[row]] and block [j] holds the timer pair [timerLUT[j]] had
    at that moment; [calculateTimerLut] writes no block, so the blocks of
    the filled buffer still hold that pair after the table is rebuilt. *)
Theorem slot_blocks_snapshot (hw : MatrixHardware) {L : Type} `{!SM_Layer L}
    (u : Z -> rgb48) (s : SmartMatrix3 L) (row j : Z) :
  let c := config s in
  let slot := uint8 (cbGetNextWrite (dmaBuffer s)) in
  let filled := loadMatrixBuffers hw u row s in
  let block := {| timerValues := timerLUT s !!! j; addressValues := addressLUT s !!! row |} in
  0 <= row < 256 -> 0 <= j < latchesPerRow c ->
  matrixUpdateBlocks filled !! (slot * latchesPerRow c + j) = Some block
  /\ (forall s' : SmartMatrix3 L,
        matrixUpdateBlocks (calculateTimerLut hw s') = matrixUpdateBlocks s')
  /\ matrixUpdateBlocks (calculateTimerLut hw filled) !! (slot * latchesPerRow c + j)
     = Some block.
Proof.
  intros c slot filled block Hrow Hj.
  assert (matrixUpdateBlocks filled !! (slot * latchesPerRow c + j) = Some block) as Hfilled.
  { subst filled. rewrite matrixUpdateBlocks_loadMatrixBuffers.
    rewrite load_blocks_lookup by done. by rewrite uint8_small. }
  split; [done|]. split; [done|]. exact Hfilled.
Qed.

Lemma slot_blocks_snapshot_witness :
  matrixUpdateBlocks (loadMatrixBuffers example_hw (fun _ => black) 5 example_state)
    !! (0 * 8 + 7)
  = Some {| timerValues := {| timer_oe := 5598; timer_period := 11132 |};
            addressValues := {| bits_to_clear := 160; bits_to_set := 80 |} |}.
Proof.
  refine (eq_trans
    (proj1 (slot_blocks_snapshot example_hw (fun _ => black) example_state 5 7 _ _)) _).
  - lia.
  - vm_compute. split; congruence.
  - vm_compute. reflexivity.
Defined.

(** ** The ring *)

Section Ring.
Implicit Type cb : CircularBuffer.

Lemma cbIsFull_false cb :
  ring_ok cb -> cbIsFull cb = false -> cb_count cb < cb_size cb.
Proof. intros [Hc _] Hfull. apply Z.eqb_neq in Hfull. lia. Qed.

Lemma cbGetNextWrite_range cb :
  ring_ok cb -> cbIsFull cb = false ->
  0 <= cbGetNextWrite cb < cb_size cb.
Proof.
  intros Hok Hfull. pose proof (cbIsFull_false cb Hok Hfull).
  destruct Hok as [Hc _]. unfold cbGetNextWrite. apply Z.mod_pos_bound. lia.
Qed.

Lemma cbGetNextWrite_uint8 cb :
  ring_ok cb -> cbIsFull cb = false ->
  uint8 (cbGetNextWrite cb) = cbGetNextWrite cb.
Proof.
  intros Hok Hfull. pose proof (cbGetNextWrite_range cb Hok Hfull).
  destruct Hok as [_ Hs]. apply uint8_small. lia.
Qed.

Lemma same_residue_apart n a b :
  0 < n -> 0 < b - a < n -> a mod n <> b mod n.
Proof.
  intros Hn Hab Heq.
  assert ((b - a) mod n = 0) as Hzero
    by (rewrite Zminus_mod, Heq, Z.sub_diag; by apply Z.mod_0_l; lia).
  rewrite Z.mod_small in Hzero by lia. lia.
Qed.

(** The slot a write reserves is not one the consumer still owns. *)
Lemma cbGetNextWrite_free cb :
  ring_ok cb -> cbIsFull cb = false -> ~ occupied cb (cbGetNextWrite cb).
Proof.
  intros Hok Hfull (d & Hd & Heq).
  pose proof (cbIsFull_false cb Hok Hfull). unfold cbGetNextWrite in Heq.
  symmetry in Heq. revert Heq. apply same_residue_apart; lia.
Qed.

Lemma cbWrite_not_full cb :
  cbIsFull cb = false ->
  cbWrite cb = {| cb_size := cb_size cb; cb_start := cb_start cb;
                  cb_count := cb_count cb + 1 |}.
Proof. intros Hfull. unfold cbWrite. by rewrite Hfull. Qed.

Lemma cbWrite_ring_ok cb : ring_ok cb -> ring_ok (cbWrite cb).
Proof.
  intros Hok. unfold cbWrite. destruct (cbIsFull cb) eqn:Hfull; [done|].
  pose proof (cbIsFull_false cb Hok Hfull). destruct Hok. split; simpl; lia.
Qed.

Lemma cbWrite_occupied cb slot :
  occupied cb slot -> occupied (cbWrite cb) slot.
Proof.
  intros (d & Hd & Heq). unfold cbWrite.
  destruct (cbIsFull cb); [by exists d|]. exists d. simpl. split; [lia|done].
Qed.

Lemma cbRead_ring_ok cb : ring_ok cb -> ring_ok (cbRead cb).
Proof.
  intros [Hc Hs]. unfold cbRead. destruct (cbIsEmpty cb) eqn:Hempty; [done|].
  apply Z.eqb_neq in Hempty. split; simpl; lia.
Qed.

(** Releasing a slot never makes another slot occupied. *)
Lemma cbRead_occupied cb slot :
  ring_ok cb -> occupied (cbRead cb) slot -> occupied cb slot.
Proof.
  intros [Hc Hs] (d & Hd & Heq). unfold cbRead in *.
  destruct (cbIsEmpty cb) eqn:Hempty; [by exists d|]. simpl in *.
  exists (d + 1). split; [lia|].
  rewrite Heq, Zplus_mod_idemp_l. f_equal. lia.
Qed.
End Ring.

(** ** The pump *)

Section Slots.
Implicit Type c : PanelConfig.

Lemma slot_block_apart c slot slot' b :
  0 <= latchesPerRow c -> slot <> slot' ->
  slot_block c slot b -> ~ slot_block c slot' b.
Proof. unfold slot_block. intros Hl Hne Hb Hb'. nia. Qed.

Lemma slot_word_apart c slot slot' a :
  0 <= dmaBufferBytesPerRow c -> slot <> slot' ->
  slot_word c slot a -> ~ slot_word c slot' a.
Proof. unfold slot_word. intros Hl Hne Ha Ha'. nia. Qed.

Lemma constructed_nonneg c :
  constructed c -> 0 <= latchesPerRow c /\ 0 <= dmaBufferBytesPerRow c.
Proof.
  intros (_ & _ & _ & _ & Hl & _ & Hr). rewrite Hl, Hr, uint8_eq, uint16_eq. lia.
Qed.
End Slots.

Section Pump.
Context (hw : MatrixHardware) {L : Type} `{!SM_Layer L}.
Variable u : Z -> rgb48.
Implicit Type s : SmartMatrix3 L.

Lemma enqueue_dmaBuffer s : dmaBuffer (enqueue hw u s) = cbWrite (dmaBuffer s).
Proof. unfold enqueue. cbv zeta. by rewrite loadMatrixBuffers_eq. Qed.

Lemma enqueue_row_dmaBuffer s :
  dmaBuffer (enqueue_row hw u s) = cbWrite (dmaBuffer s).
Proof.
  unfold enqueue_row. rewrite enqueue_dmaBuffer.
  by destruct (once_per_frame_buffers hw s) as (_ & _ & -> & _).
Qed.

Lemma enqueue_row_config s : config (enqueue_row hw u s) = config s.
Proof. by destruct (enqueue_row_statics hw u s) as (-> & _). Qed.

Lemma enqueue_writes_only_slot s :
  constructed (config s) -> supported_latches (config s) ->
  writes_only_slot (config s) (uint8 (cbGetNextWrite (dmaBuffer s))) s (enqueue hw u s).
Proof.
  intros Hc Hsup. unfold enqueue. cbv zeta. rewrite loadMatrixBuffers_eq. split; simpl.
  - intros b Hb. by apply load_blocks_other.
  - intros a Ha. by apply load_pixels_other.
Qed.

(** A turn of the loop writes into the reserved row buffer only. *)
Lemma enqueue_row_writes_only_slot s :
  constructed (config s) -> supported_latches (config s) ->
  ring_ok (dmaBuffer s) -> cbIsFull (dmaBuffer s) = false ->
  writes_only_slot (config s) (cbGetNextWrite (dmaBuffer s)) s (enqueue_row hw u s).
Proof.
  intros Hc Hsup Hok Hfull. unfold enqueue_row.
  destruct (once_per_frame_statics hw s) as (Hcfg & _).
  destruct (once_per_frame_buffers hw s) as (Hb & Hd & Hr & _).
  pose proof (enqueue_writes_only_slot (once_per_frame hw s)) as Hw.
  rewrite Hcfg, Hr, cbGetNextWrite_uint8 in Hw by done.
  destruct (Hw Hc Hsup) as [Hblocks Hdata]. split.
  - intros b Hout. rewrite Hblocks by done. by rewrite Hb.
  - intros a Hout. rewrite Hdata by done. by rewrite Hd.
Qed.

(** What [k] turns of the loop keep, started with at least [k] free
    slots. *)
Lemma turns_invariant s k :
  constructed (config s) -> supported_latches (config s) ->
  ring_ok (dmaBuffer s) ->
  Z.of_nat k <= cb_size (dmaBuffer s) - cb_count (dmaBuffer s) ->
  let sk := Nat.iter k (enqueue_row hw u) s in
  config sk = config s
  /\ ring_ok (dmaBuffer sk)
  /\ cb_size (dmaBuffer sk) = cb_size (dmaBuffer s)
  /\ cb_start (dmaBuffer sk) = cb_start (dmaBuffer s)
  /\ cb_count (dmaBuffer sk) = cb_count (dmaBuffer s) + Z.of_nat k
  /\ (forall slot, occupied (dmaBuffer s) slot -> occupied (dmaBuffer sk) slot)
  /\ (forall slot, occupied (dmaBuffer s) slot -> same_slot (config s) slot s sk).
Proof.
  intros Hc Hsup Hok. induction k as [|k IH]; intros Hk; cbn zeta.
  - simpl. rewrite Z.add_0_r.
    split; [done|]. split; [done|]. split; [done|]. split; [done|].
    split; [done|]. split; [done|]. intros slot _. by split.
  - destruct IH as (Hcfg & Hokk & Hsize & Hstart & Hcount & Hocc & Hsame); [lia|].
    rewrite Nat.iter_succ. set (sk := Nat.iter k (enqueue_row hw u) s) in *.
    assert (cbIsFull (dmaBuffer sk) = false) as Hfull
      by (apply Z.eqb_neq; lia).
    rewrite enqueue_row_config, enqueue_row_dmaBuffer, cbWrite_not_full by done.
    simpl. split; [done|]. split; [destruct Hokk; split; simpl; lia|].
    split; [done|]. split; [done|]. split; [lia|].
    split.
    + intros slot Hslot. apply Hocc in Hslot as (d & Hd & Heq).
      exists d. simpl. split; [lia|done].
    + intros slot Hslot.
      assert (slot <> cbGetNextWrite (dmaBuffer sk)) as Hne.
      { intros ->. by apply (cbGetNextWrite_free (dmaBuffer sk) Hokk Hfull), Hocc. }
      destruct (enqueue_row_writes_only_slot sk) as [Hblocks Hdata];
        rewrite ?Hcfg; try done.
      rewrite Hcfg in Hblocks, Hdata.
      destruct (constructed_nonneg _ Hc) as [Hl Hr].
      destruct (Hsame slot Hslot) as [Hsb Hsd]. split.
      * intros b Hb. rewrite Hblocks; [by apply Hsb|].
        by apply (slot_block_apart _ slot).
      * intros a Ha. rewrite Hdata; [by apply Hsd|].
        by apply (slot_word_apart _ slot).
Qed.

(** The loop with as many turns as there are free slots runs them all. *)
Lemma matrixCalculations_loop_iter s k :
  ring_ok (dmaBuffer s) ->
  Z.of_nat k <= cb_size (dmaBuffer s) - cb_count (dmaBuffer s) ->
  matrixCalculations_loop hw u k s = Nat.iter k (enqueue_row hw u) s.
Proof.
  revert s. induction k as [|k IH]; intros s Hok Hk; [done|].
  rewrite Nat.iter_succ_r. simpl.
  assert (cbIsFull (dmaBuffer s) = false) as Hfull by (apply Z.eqb_neq; lia).
  rewrite Hfull. apply IH.
  - rewrite enqueue_row_dmaBuffer. by apply cbWrite_ring_ok.
  - rewrite enqueue_row_dmaBuffer, cbWrite_not_full by done. simpl. lia.
Qed.

Lemma matrixCalculations_iter s :
  ring_ok (dmaBuffer s) ->
  matrixCalculations hw u s
  = Nat.iter (Z.to_nat (cb_size (dmaBuffer s) - cb_count (dmaBuffer s)))
      (enqueue_row hw u) s.
Proof.
  intros Hok. unfold matrixCalculations. apply matrixCalculations_loop_iter; [done|].
  destruct Hok. lia.
Qed.

Lemma turns_ring s k :
  ring_ok (dmaBuffer s) ->
  Z.of_nat k <= cb_size (dmaBuffer s) - cb_count (dmaBuffer s) ->
  dmaBuffer (Nat.iter k (enqueue_row hw u) s)
  = {| cb_size := cb_size (dmaBuffer s); cb_start := cb_start (dmaBuffer s);
       cb_count := cb_count (dmaBuffer s) + Z.of_nat k |}.
Proof.
  intros Hok. induction k as [|k IH]; intros Hk.
  - simpl. rewrite Z.add_0_r. by destruct (dmaBuffer s).
  - rewrite Nat.iter_succ, enqueue_row_dmaBuffer, IH by lia.
    rewrite cbWrite_not_full by (apply Z.eqb_neq; simpl; lia).
    simpl. f_equal. lia.
Qed.

(** The pump returns, and returns with the ring full. *)
Lemma matrixCalculations_returns s :
  ring_ok (dmaBuffer s) ->
  cbIsFull (dmaBuffer (matrixCalculations hw u s)) = true.
Proof.
  intros Hok. rewrite matrixCalculations_iter, turns_ring by (destruct Hok; lia || done).
  apply Z.eqb_eq. simpl. destruct Hok. lia.
Qed.

Lemma matrixCalculations_full s :
  cbIsFull (dmaBuffer s) = true -> matrixCalculations hw u s = s.
Proof.
  intros Hfull. unfold matrixCalculations.
  destruct (Z.to_nat _); [done|]. simpl. by rewrite Hfull.
Qed.

(** The equation of the [while] loop. *)
Lemma matrixCalculations_while s :
  ring_ok (dmaBuffer s) ->
  matrixCalculations hw u s
  = if cbIsFull (dmaBuffer s) then s
    else matrixCalculations hw u (enqueue_row hw u s).
Proof.
  intros Hok. destruct (cbIsFull (dmaBuffer s)) eqn:Hfull.
  - by apply matrixCalculations_full.
  - pose proof (cbIsFull_false _ Hok Hfull) as Hfree.
    rewrite (matrixCalculations_iter (enqueue_row hw u s))
      by (rewrite enqueue_row_dmaBuffer; by apply cbWrite_ring_ok).
    rewrite matrixCalculations_iter by done.
    rewrite enqueue_row_dmaBuffer, cbWrite_not_full by done. simpl.
    replace (Z.to_nat (cb_size (dmaBuffer s) - cb_count (dmaBuffer s)))
      with (S (Z.to_nat (cb_size (dmaBuffer s) - (cb_count (dmaBuffer s) + 1))))
      by lia.
    by rewrite Nat.iter_succ_r.
Qed.
End Pump.

(** C4 (as amended).  With the plane counts 8, 12 and 16, an invocation of
    [matrixCalculations] on a ring that is not full runs one turn per free
    slot and then returns with the ring full (at once, changing nothing,
    if the ring is full already); each turn finds the ring not full,
    writes blocks and data words of the row buffer [cbGetNextWrite]
    returns and of no other, that buffer is not one the consumer still
    owns, and the turn commits exactly that one slot; every row buffer
    that was committed and unreleased at the call holds the same blocks and
    words at the return. *)
Theorem pump_fills_free_slots (hw : MatrixHardware) {L : Type} `{!SM_Layer L}
    (u : Z -> rgb48) (s : SmartMatrix3 L) :
  let c := config s in
  let free := Z.to_nat (cb_size (dmaBuffer s) - cb_count (dmaBuffer s)) in
  let after k := Nat.iter k (enqueue_row hw u) s in
  constructed c -> supported_latches c -> ring_ok (dmaBuffer s) ->
  matrixCalculations hw u s = after free
  /\ cbIsFull (dmaBuffer (matrixCalculations hw u s)) = true
  /\ (cbIsFull (dmaBuffer s) = true -> matrixCalculations hw u s = s)
  /\ (forall k, (k < free)%nat ->
        let slot := cbGetNextWrite (dmaBuffer (after k)) in
        cbIsFull (dmaBuffer (after k)) = false
        /\ ~ occupied (dmaBuffer (after k)) slot
        /\ writes_only_slot c slot (after k) (after (S k))
        /\ dmaBuffer (after (S k)) = cbWrite (dmaBuffer (after k))
        /\ cb_count (dmaBuffer (after (S k))) = cb_count (dmaBuffer (after k)) + 1)
  /\ (forall slot, occupied (dmaBuffer s) slot ->
        same_slot c slot s (matrixCalculations hw u s)).
Proof.
  intros c free after Hc Hsup Hok.
  assert (Z.of_nat free = cb_size (dmaBuffer s) - cb_count (dmaBuffer s)) as Hfree
    by (destruct Hok; subst free; lia).
  assert (matrixCalculations hw u s = after free) as Hiter
    by by apply matrixCalculations_iter.
  split; [exact Hiter|]. split; [|split; [by apply matrixCalculations_full|split]].
  - rewrite Hiter.
    destruct (turns_invariant hw u s free Hc Hsup Hok) as (_ & _ & Hsize & _ & Hcount & _);
      [lia|].
    apply Z.eqb_eq. subst after. cbv beta in *. lia.
  - intros k Hk slot.
    destruct (turns_invariant hw u s k Hc Hsup Hok) as (Hcfg & Hokk & Hsize & _ & Hcount & _);
      [lia|].
    fold (after k) in *.
    assert (cbIsFull (dmaBuffer (after k)) = false) as Hfull by (apply Z.eqb_neq; lia).
    split; [done|]. split; [by apply cbGetNextWrite_free|].
    assert (after (S k) = enqueue_row hw u (after k)) as -> by done.
    split; [|split].
    + subst c. rewrite <- Hcfg. apply enqueue_row_writes_only_slot; by rewrite ?Hcfg.
    + apply enqueue_row_dmaBuffer.
    + by rewrite enqueue_row_dmaBuffer, cbWrite_not_full.
  - intros slot Hslot. rewrite Hiter.
    destruct (turns_invariant hw u s free Hc Hsup Hok) as (_ & _ & _ & _ & _ & _ & Hsame);
      [lia|].
    by apply Hsame.
Qed.

Lemma pump_fills_free_slots_witness :
  cbIsFull (dmaBuffer (matrixCalculations example_hw (fun _ => black) half_full_state))
  = true
  /\ same_slot (config half_full_state) 0 half_full_state
       (matrixCalculations example_hw (fun _ => black) half_full_state).
Proof.
  destruct (pump_fills_free_slots example_hw (fun _ => black) half_full_state)
    as (_ & Hfull & _ & _ & Hsame).
  - unfold constructed. vm_compute. repeat split; congruence.
  - left. vm_compute. reflexivity.
  - unfold ring_ok. vm_compute. repeat split; congruence.
  - split; [exact Hfull|]. apply Hsame. exists 0. vm_compute. repeat split; congruence.
Defined.

(** C4, where the claim fails: with four planes (refresh depth 12) the
    stores of the last pixel of a row reach one word beyond the row
    buffer.  Row buffer 1 is committed and not released, the pump fills
    row buffer 0, and the first word of row buffer 1 (word 4 of the data
    buffer) has changed when the pump returns. *)
Lemma pump_overruns_slot_with_four_planes :
  let s := four_plane_running in
  let s' := matrixCalculations example_hw (fun _ => black) s in
  latchesPerRow (config s) = 4
  /\ cbIsFull (dmaBuffer s) = false
  /\ cbGetNextWrite (dmaBuffer s) = 0
  /\ occupied (dmaBuffer s) 1
  /\ slot_word (config s) 1 4
  /\ matrixUpdateData s !! 4 = Some 1094795585
  /\ matrixUpdateData s' !! 4 = Some 33686018
  /\ ~ same_slot (config s) 1 s s'.
Proof.
  cbv zeta.
  assert (slot_word (config four_plane_running) 1 4) as Hword
    by (unfold slot_word; vm_compute; split; congruence).
  assert (matrixUpdateData four_plane_running !! 4 = Some 1094795585) as Hold
    by (vm_compute; reflexivity).
  assert (matrixUpdateData
            (matrixCalculations example_hw (fun _ => black) four_plane_running) !! 4
          = Some 33686018) as Hnew
    by (vm_compute; reflexivity).
  split; [vm_compute; reflexivity|]. split; [vm_compute; reflexivity|].
  split; [vm_compute; reflexivity|].
  split; [exists 0; vm_compute; repeat split; congruence|].
  split; [exact Hword|]. split; [exact Hold|]. split; [exact Hnew|].
  intros [_ Hdata]. specialize (Hdata 4 Hword). rewrite Hold, Hnew in Hdata. congruence.
Qed.

Section Flags.
Context (hw : MatrixHardware) {L : Type} `{!SM_Layer L}.
Variable u : Z -> rgb48.
Implicit Type s : SmartMatrix3 L.

Lemma enqueue_flags s :
  timerLUT (enqueue hw u s) = timerLUT s
  /\ brightnessChange (enqueue hw u s) = brightnessChange s
  /\ rotationChange (enqueue hw u s) = rotationChange s
  /\ currentRow (enqueue hw u s) = next_row (config s) (currentRow s).
Proof. unfold enqueue. cbv zeta. by rewrite loadMatrixBuffers_eq. Qed.

Lemma once_per_frame_elsewhere s :
  currentRow s <> 0 -> once_per_frame hw s = s.
Proof. intros Hrow. unfold once_per_frame. by apply Z.eqb_neq in Hrow as ->. Qed.

Lemma once_per_frame_at_zero s :
  currentRow s = 0 -> once_per_frame hw s = frame_updates hw s.
Proof. intros Hrow. unfold once_per_frame. by rewrite Hrow. Qed.

(** The timer table [calculateTimerLut] builds depends on the plane
    count, the dimming factor and the old table only. *)
Lemma calculateTimerLut_timerLUT s s' :
  config s' = config s -> dimmingFactor s' = dimmingFactor s ->
  timerLUT s' = timerLUT s ->
  timerLUT (calculateTimerLut hw s') = timerLUT (calculateTimerLut hw s).
Proof. intros Hc Hd Ht. unfold calculateTimerLut. simpl. by rewrite Hc, Hd, Ht. Qed.

Lemma frame_updates_timerLUT s :
  timerLUT (frame_updates hw s)
  = if brightnessChange s then timerLUT (calculateTimerLut hw s) else timerLUT s.
Proof.
  unfold frame_updates.
  destruct (rotationChange s), (brightnessChange s) eqn:Hb; simpl; rewrite ?Hb; done.
Qed.

Lemma frame_updates_brightnessChange s :
  brightnessChange (frame_updates hw s) = false.
Proof.
  unfold frame_updates.
  destruct (rotationChange s), (brightnessChange s) eqn:Hb; simpl; rewrite ?Hb; done.
Qed.

Lemma frame_updates_rotationChange s :
  rotationChange (frame_updates hw s) = false.
Proof.
  unfold frame_updates.
  destruct (rotationChange s) eqn:Hr, (brightnessChange s) eqn:Hb;
    simpl; rewrite ?Hb; simpl; done.
Qed.

Lemma frame_updates_baseLayer s :
  baseLayer (frame_updates hw s)
  = map (fun layer =>
           frameRefreshCallback
             (setRefreshRate (refreshRate (config s))
                (if rotationChange s then setRotation (rotation s) layer else layer)))
      (baseLayer s).
Proof.
  unfold frame_updates.
  destruct (rotationChange s) eqn:Hr, (brightnessChange s) eqn:Hb;
    simpl; rewrite ?Hb; simpl; rewrite ?map_map; done.
Qed.

Lemma turns_elsewhere s n :
  (forall k, (k < n)%nat -> currentRow (Nat.iter k (enqueue_row hw u) s) <> 0) ->
  timerLUT (Nat.iter n (enqueue_row hw u) s) = timerLUT s
  /\ brightnessChange (Nat.iter n (enqueue_row hw u) s) = brightnessChange s
  /\ rotationChange (Nat.iter n (enqueue_row hw u) s) = rotationChange s.
Proof.
  induction n as [|n IH]; intros Hrows; [done|].
  destruct IH as (Ht & Hb & Hr); [intros; apply Hrows; lia|].
  rewrite Nat.iter_succ. unfold enqueue_row at 1 3 5.
  rewrite once_per_frame_elsewhere by (apply Hrows; lia).
  destruct (enqueue_flags (Nat.iter n (enqueue_row hw u) s)) as (-> & -> & -> & _).
  done.
Qed.
End Flags.

(** C5.  A turn of the pump whose row cursor is not 0 leaves the timer
    table and the pending brightness flag as they are, and so does any
    number of turns none of which starts at row 0; a turn that starts at
    row 0 with the flag set clears it and rebuilds the table by
    [calculateTimerLut] before it encodes a row, so that the row buffer
    filled in that very turn already carries the new timer values; without
    the flag no turn changes the table. *)
Theorem brightness_applies_at_row_zero (hw : MatrixHardware) {L : Type} `{!SM_Layer L}
    (u : Z -> rgb48) (s : SmartMatrix3 L) :
  let turn := enqueue_row hw u in
  let c := config s in
  (currentRow s <> 0 ->
     timerLUT (turn s) = timerLUT s /\ brightnessChange (turn s) = brightnessChange s)
  /\ (forall n,
        (forall k, (k < n)%nat -> currentRow (Nat.iter k turn s) <> 0) ->
        timerLUT (Nat.iter n turn s) = timerLUT s
        /\ brightnessChange (Nat.iter n turn s) = brightnessChange s)
  /\ (brightnessChange s = false -> timerLUT (turn s) = timerLUT s)
  /\ (currentRow s = 0 -> brightnessChange s = true ->
        timerLUT (turn s) = timerLUT (calculateTimerLut hw s)
        /\ brightnessChange (turn s) = false
        /\ forall j, 0 <= j < latchesPerRow c ->
             exists block,
               matrixUpdateBlocks (turn s)
                 !! (uint8 (cbGetNextWrite (dmaBuffer s)) * latchesPerRow c + j)
               = Some block
               /\ timerLUT (calculateTimerLut hw s) !! j = Some (timerValues block))
  /\ currentRow (turn s) = next_row c (currentRow s).
Proof.
  intros turn c. subst turn.
  destruct (once_per_frame_statics hw s) as (Hcfg & _ & _ & Hdim & _).
  destruct (once_per_frame_buffers hw s) as (_ & _ & Hring & Hrow).
  split; [|split; [|split; [|split]]].
  - intros Hne. unfold enqueue_row. rewrite once_per_frame_elsewhere by done.
    by destruct (enqueue_flags hw u s) as (-> & -> & _).
  - intros n Hrows. destruct (turns_elsewhere hw u s n Hrows) as (-> & -> & _). done.
  - intros Hflag. unfold enqueue_row.
    destruct (enqueue_flags hw u (once_per_frame hw s)) as (-> & _).
    unfold once_per_frame. destruct (currentRow s =? 0); [|done].
    by rewrite frame_updates_timerLUT, Hflag.
  - intros Hzero Hflag. unfold enqueue_row.
    assert (timerLUT (once_per_frame hw s) = timerLUT (calculateTimerLut hw s)) as Hnew
      by (by rewrite once_per_frame_at_zero, frame_updates_timerLUT, Hflag).
    destruct (enqueue_flags hw u (once_per_frame hw s)) as (-> & -> & _).
    split; [done|].
    split; [by rewrite once_per_frame_at_zero, frame_updates_brightnessChange|].
    intros j Hj.
    assert (timerLUT (calculateTimerLut hw s) !! j
            = Some (timerLUT (calculateTimerLut hw s) !!! j)) as Hentry
      by (by rewrite lookup_total_alt, calculateTimerLut_lookup).
    revert Hentry Hnew. generalize (timerLUT (calculateTimerLut hw s)) as table.
    intros table Hentry Hnew.
    unfold enqueue. cbv zeta. rewrite loadMatrixBuffers_eq. simpl.
    rewrite Hcfg, Hring, Hnew. fold c.
    rewrite load_blocks_lookup by done. eexists. split; [done|]. done.
  - unfold enqueue_row.
    destruct (enqueue_flags hw u (once_per_frame hw s)) as (_ & _ & _ & ->).
    by rewrite Hcfg, Hrow.
Qed.

Lemma brightness_applies_at_row_zero_witness :
  timerLUT (enqueue_row example_hw (fun _ => black) mid_frame_state)
  = timerLUT mid_frame_state
  /\ brightnessChange (enqueue_row example_hw (fun _ => black) mid_frame_state) = true.
Proof.
  refine (proj1 (brightness_applies_at_row_zero example_hw (fun _ => black) mid_frame_state) _).
  vm_compute. congruence.
Defined.

(** ** The address table while the driver runs *)

Section Running.
Context (hw : MatrixHardware) {L : Type} `{!SM_Layer L}.
Variable u : Z -> rgb48.
Implicit Type s : SmartMatrix3 L.

Lemma fill_addressLUT_lookup_other s a :
  ~ 0 <= a < MATRIX_ROWS_PER_FRAME (config s) ->
  addressLUT (fill_addressLUT hw s) !! a = addressLUT s !! a.
Proof.
  intros Ha. unfold fill_addressLUT. simpl.
  apply (for_loop_insert_other _ (fun j => j)). intros j Hj ->. done.
Qed.

(** Filling a table that is filled already changes nothing. *)
Lemma fill_addressLUT_filled s s' :
  config s' = config s -> addressLUT s' = addressLUT (fill_addressLUT hw s) ->
  addressLUT (fill_addressLUT hw s') = addressLUT s'.
Proof.
  intros Hcfg Htable. apply map_eq. intros a.
  destruct (decide (0 <= a < MATRIX_ROWS_PER_FRAME (config s))) as [Ha|Ha].
  - rewrite fill_addressLUT_lookup by (by rewrite Hcfg).
    by rewrite Htable, fill_addressLUT_lookup.
  - by rewrite fill_addressLUT_lookup_other by (by rewrite Hcfg).
Qed.

Lemma run_event_statics s e :
  config (run_event hw u s e) = config s
  /\ addressLUT (run_event hw u s e) = addressLUT s.
Proof.
  destruct e as [| |degrees rotate dim factor]; simpl; [|done|done].
  unfold rowCalculationISR.
  by destruct (matrixCalculations_statics hw u s) as (-> & -> & _).
Qed.

Lemma run_events_statics events s :
  config (run_events hw u events s) = config s
  /\ addressLUT (run_events hw u events s) = addressLUT s.
Proof.
  unfold run_events. revert s. induction events as [|e events IH]; intros s; [done|].
  simpl. destruct (IH (run_event hw u s e)) as [-> ->]. apply run_event_statics.
Qed.
End Running.



Lemma begin_dmaBuffer (hw : MatrixHardware) {L : Type} `{!SM_Layer L}
    (u : Z -> rgb48) (s : SmartMatrix3 L) :
  dmaBuffer (begin hw u s) = dmaBuffer (matrixCalculations hw u (prepared hw s)).
Proof. reflexivity. Qed.

(** C8 (as amended).  Neither the constructor nor [begin] examines the
    configuration.  For all constructor arguments and every dimming
    maximum for which [begin] divides by no zero (refresh rate and rows per
    frame not 0; dimming maximum not 0 unless there is no bit-plane),
    [begin] initialises the ring with the given capacity, fills it, and
    leaves the four DMA channels enabled and the timer clocked.  It does
    so without a bit-plane, when it writes no entry of the timer table and
    no block, and without a row buffer, when it encodes no row. *)
Theorem begin_makes_no_check (hw : MatrixHardware) {L : Type} `{!SM_Layer L}
    (u : Z -> rgb48) (s : SmartMatrix3 L) (width height depth bufferrows : Z) :
  let constructed_state := SmartMatrix3_ctor width height depth bufferrows s in
  let started := begin hw u constructed_state in
  begin_divides_by_zero hw constructed_state = false ->
  pipeline_started started = true
  /\ cb_size (dmaBuffer started) = uint8 bufferrows
  /\ cbIsFull (dmaBuffer started) = true
  /\ latchesPerRow (config started)
     = uint8 (Z.quot (uint8 depth) COLOR_CHANNELS_PER_PIXEL)
  /\ (latchesPerRow (config started) = 0 ->
        timerLUT started = timerLUT s
        /\ matrixUpdateBlocks started = matrixUpdateBlocks s)
  /\ (uint8 bufferrows = 0 ->
        matrixUpdateBlocks started = matrixUpdateBlocks s
        /\ matrixUpdateData started = matrixUpdateData s
        /\ currentRow started = currentRow s).
Proof.
  intros constructed_state started Hdefined. subst started.
  set (p := prepared hw constructed_state).
  assert (ring_ok (dmaBuffer p)) as Hok.
  { unfold ring_ok. simpl. rewrite uint8_eq. lia. }
  assert (config (matrixCalculations hw u p) = config constructed_state) as Hcfg
    by (by destruct (matrixCalculations_statics hw u p) as (-> & _)).
  assert (forall x : SmartMatrix3 L,
            timerLUT (start_hardware hw x) = timerLUT x
            /\ matrixUpdateBlocks (start_hardware hw x) = matrixUpdateBlocks x
            /\ matrixUpdateData (start_hardware hw x) = matrixUpdateData x
            /\ currentRow (start_hardware hw x) = currentRow x) as Hstart by done.
  assert (begin hw u constructed_state = start_hardware hw (matrixCalculations hw u p))
    as Hbegin by done.
  split; [reflexivity|]. rewrite begin_dmaBuffer. fold p.
  split; [|split; [|split; [|split]]].
  - rewrite matrixCalculations_iter, turns_ring by (done || (destruct Hok; lia)).
    reflexivity.
  - by apply matrixCalculations_returns.
  - change (config (begin hw u constructed_state))
      with (config (matrixCalculations hw u p)).
    by rewrite Hcfg.
  - change (config (begin hw u constructed_state))
      with (config (matrixCalculations hw u p)).
    rewrite Hcfg. intros Hnone. rewrite Hbegin.
    destruct (Hstart (matrixCalculations hw u p)) as (-> & -> & _).
    assert (timerLUT p = timerLUT s /\ matrixUpdateBlocks p = matrixUpdateBlocks s)
      as [Htimer Hblocks].
    { subst p. unfold prepared, calculateTimerLut. simpl in *.
      rewrite for_loop_none by lia. done. }
    rewrite <- Htimer, <- Hblocks.
    apply (matrixCalculations_loop_invariant hw u
             (fun x => config x = config constructed_state
                       /\ timerLUT x = timerLUT p
                       /\ matrixUpdateBlocks x = matrixUpdateBlocks p)); [|done].
    intros x (Hx & Ht & Hb) _.
    destruct (enqueue_row_statics hw u x) as (Hcx & _).
    split; [congruence|]. split.
    + unfold enqueue_row.
      destruct (enqueue_flags hw u (once_per_frame hw x)) as (-> & _).
      unfold once_per_frame. destruct (currentRow x =? 0); [|done].
      rewrite frame_updates_timerLUT. destruct (brightnessChange x); [|done].
      rewrite <- Ht. apply map_eq. intros a.
      rewrite calculateTimerLut_lookup_other; [done|]. rewrite Hx. simpl in *. lia.
    + rewrite <- Hb. apply map_eq. intros b.
      destruct (once_per_frame_statics hw x) as (Hco & _).
      destruct (once_per_frame_buffers hw x) as (Hbo & _).
      revert Hco Hbo. unfold enqueue_row. generalize (once_per_frame hw x) as x1.
      intros x1 Hco Hbo. unfold enqueue. cbv zeta. rewrite loadMatrixBuffers_eq.
      cbn [config matrixUpdateBlocks set_currentRow set_dmaBuffer set_matrixUpdateData
           set_baseLayer set_matrixUpdateBlocks].
      rewrite load_blocks_other; [by rewrite Hbo|].
      unfold slot_block. rewrite Hco, Hx. simpl in *. lia.
  - intros Hnone. rewrite Hbegin.
    destruct (Hstart (matrixCalculations hw u p)) as (_ & -> & -> & ->).
    rewrite matrixCalculations_full; [done|].
    subst p. unfold cbIsFull. simpl. by rewrite Hnone.
Qed.

Lemma begin_makes_no_check_witness :
  pipeline_started (begin example_hw (fun _ => black) no_planes) = true
  /\ timerLUT (begin example_hw (fun _ => black) no_planes) = ∅.
Proof.
  destruct (begin_makes_no_check example_hw (fun _ => black)
              (static_storage (L := solid_layer) true true 128 []) 32 32 2 2)
    as (Hstarted & _ & _ & _ & Hplanes & _).
  - vm_compute. reflexivity.
  - split; [exact Hstarted|]. apply Hplanes. vm_compute. reflexivity.
Defined.

(** C8, where the claim fails: with a dimming maximum of 0, no bit-plane
    and no row buffer, with no bit-plane alone, and with no row buffer
    alone, [begin] divides by no zero and starts the pipeline. *)
Lemma invalid_configuration_starts_pipeline :
  (dimmingMaximum zero_dimming_hw = 0
   /\ latchesPerRow (config no_planes_no_rows) = 0
   /\ dmaBufferNumRows (config no_planes_no_rows) = 0
   /\ begin_divides_by_zero zero_dimming_hw no_planes_no_rows = false
   /\ pipeline_started (begin zero_dimming_hw (fun _ => black) no_planes_no_rows) = true)
  /\ (latchesPerRow (config no_planes) = 0
      /\ begin_divides_by_zero example_hw no_planes = false
      /\ pipeline_started (begin example_hw (fun _ => black) no_planes) = true)
  /\ (dmaBufferNumRows (config no_rows) = 0
      /\ begin_divides_by_zero example_hw no_rows = false
      /\ pipeline_started (begin example_hw (fun _ => black) no_rows) = true).
Proof. vm_compute. repeat split; congruence. Qed.

(** ** The row-complete interrupt *)

(** The handler releases at most one slot, writes no buffer and makes no
    slot occupied that was free: what the pump guarantees for the
    occupied slots holds however the handler's runs fall between the
    turns. *)
Lemma rowShiftCompleteISR_releases {L : Type} (s : SmartMatrix3 L) :
  ring_ok (dmaBuffer s) ->
  matrixUpdateBlocks (rowShiftCompleteISR s) = matrixUpdateBlocks s
  /\ matrixUpdateData (rowShiftCompleteISR s) = matrixUpdateData s
  /\ dmaBuffer (rowShiftCompleteISR s) = cbRead (dmaBuffer s)
  /\ ring_ok (dmaBuffer (rowShiftCompleteISR s))
  /\ (forall slot, occupied (dmaBuffer (rowShiftCompleteISR s)) slot ->
        occupied (dmaBuffer s) slot)
  /\ dmaClockOutData_SADDR (peripherals (rowShiftCompleteISR s))
     = cbGetNextRead (cbRead (dmaBuffer s)) * dmaBufferBytesPerRow (config s).
Proof.
  intros Hok. unfold rowShiftCompleteISR. simpl.
  split; [done|]. split; [done|]. split; [done|].
  split; [by apply cbRead_ring_ok|]. split; [|done].
  intros slot. by apply cbRead_occupied.
Qed.

(** * Further properties of the code *)

(** ** Constructor *)

(** X1.  Whatever the arguments, the constructor stores them as 8-bit
    values and derives the sizes without loss: the plane count is a third
    of the refresh depth (at most 85), a pixel pair takes twice as many
    bytes as there are planes and a row buffer that many bytes per pixel
    of the width; neither the 8-bit nor the 16-bit member wraps.  Buffers,
    ring, flags and layers are left as they were. *)
Theorem constructor_sizes_exact {L : Type} (width height depth bufferrows : Z)
    (s : SmartMatrix3 L) :
  let s' := SmartMatrix3_ctor width height depth bufferrows s in
  let c := config s' in
  matrixWidth c = width mod 256
  /\ matrixHeight c = height mod 256
  /\ colorDepthRgb c = depth mod 256
  /\ dmaBufferNumRows c = bufferrows mod 256
  /\ latchesPerRow c = (depth mod 256) / 3
  /\ 0 <= latchesPerRow c <= 85
  /\ dmaBufferBytesPerPixel c = 2 * latchesPerRow c
  /\ dmaBufferBytesPerRow c = 2 * latchesPerRow c * matrixWidth c
  /\ refreshRate c = refreshRate (config s)
  /\ set_config (config s) s' = s.
Proof.
  intros s' c. subst c s'. unfold SmartMatrix3_ctor. simpl.
  unfold COLOR_CHANNELS_PER_PIXEL, DMA_UPDATES_PER_CLOCK.
  rewrite !uint8_eq, uint16_eq.
  assert (0 <= depth mod 256 < 256) as Hd by lia.
  assert (0 <= width mod 256 < 256) as Hw by lia.
  set (d := depth mod 256) in *. set (w := width mod 256) in *.
  assert (Z.quot d 3 = d / 3) as -> by lia.
  assert (0 <= d / 3 <= 85) as Hl by lia.
  set (l := d / 3) in *.
  assert (l mod 256 = l) as -> by lia.
  assert ((l * 2) mod 256 = 2 * l) as -> by lia.
  assert (0 <= 2 * l * w < 65536) as Hr by nia.
  assert ((2 * l * w) mod 65536 = 2 * l * w) as -> by lia.
  repeat split; try lia. by destruct s.
Qed.

(** ** The layer chain *)

Section Links.
Implicit Type next : gmap Z (option Z).

Lemma is_chain_functional next start layers layers' :
is_chain next start layers -> is_chain next start layers' -> layers = layers'.
Proof.
revert start layers'. induction layers as [|layer rest IH]; intros start layers'.
- intros ->. by destruct layers' as [|? ?]; [|intros [? _]].
- intros [-> (following & Hnext & Hrest)]. destruct layers' as [|layer' rest'].
  + by intros ?.
  + intros [[= <-] (following' & Hnext' & Hrest')].
    rewrite Hnext in Hnext'. injection Hnext' as <-.
    f_equal. by eapply IH.
Qed.

Lemma is_chain_suffix next start before layer after :
is_chain next start (before ++ layer :: after) ->
is_chain next (Some layer) (layer :: after).
Proof.
revert start. induction before as [|first before IH]; intros start.
- by intros [_ Hrest].
- intros [_ (following & _ & Hrest)]. by eapply IH.
Qed.

(** A chain that ends in a null pointer passes no layer twice. *)
Lemma is_chain_NoDup next start layers : is_chain next start layers -> NoDup layers.
Proof.
revert start. induction layers as [|layer rest IH]; intros start; [constructor|].
intros Hchain. destruct Hchain as [Hstart (following & Hnext & Hrest)].
constructor; [|by eapply IH].
intros (before & after & Hsplit)%list_elem_of_split.
assert (is_chain next (Some layer) (layer :: rest)) as Hwhole
  by (split; [done|]; by exists following).
rewrite Hsplit in Hrest. apply is_chain_suffix in Hrest.
pose proof (is_chain_functional _ _ _ _ Hwhole Hrest) as Heq.
injection Heq as Heq. rewrite Hsplit in Heq.
apply (f_equal length) in Heq. rewrite length_app in Heq. simpl in Heq. lia.
Qed.

Lemma is_chain_insert_other next start layers z v :
z ∉ layers -> is_chain next start layers -> is_chain (<[z := v]> next) start layers.
Proof.
revert start. induction layers as [|layer rest IH]; intros start Hz; [done|].
apply not_elem_of_cons in Hz as [Hne Hz].
intros [-> (following & Hnext & Hrest)]. split; [done|].
exists following. split; [by rewrite lookup_insert_ne|by apply IH].
Qed.

(** The walk of [addLayer] ends at the last layer of the chain. *)
Lemma last_layer_chain next layer layers (fuel : nat) :
is_chain next (Some layer) layers -> (length layers <= fuel)%nat ->
exists z, last layers = Some z /\ next !! z = Some None
          /\ last_layer fuel next layer = Some z.
Proof.
revert layer fuel. induction layers as [|first rest IH]; intros layer fuel; [done|].
intros [[= <-] (following & Hnext & Hrest)] Hfuel.
destruct fuel as [|fuel]; [simpl in Hfuel; lia|]. simpl in Hfuel.
destruct rest as [|second rest].
- simpl in Hrest. subst following. exists layer. simpl. by rewrite Hnext.
- destruct Hrest as [-> Hrest].
  destruct (IH second fuel) as (z & Hlast & Hnull & Hwalk); [by split|lia|].
  exists z. split; [done|]. split; [done|]. simpl. by rewrite Hnext.
Qed.

Lemma is_chain_snoc next start layers z newlayer :
is_chain next start layers -> last layers = Some z ->
newlayer ∉ layers -> next !! newlayer = Some None ->
is_chain (<[z := Some newlayer]> next) start (layers ++ [newlayer]).
Proof.
intros Hchain. pose proof (is_chain_NoDup _ _ _ Hchain) as Hnodup.
revert start Hchain Hnodup.
induction layers as [|layer rest IH]; intros start Hchain Hnodup Hlast Hnew Hnull; [done|].
destruct Hchain as [-> (following & Hnext & Hrest)].
apply not_elem_of_cons in Hnew as [Hne Hnew].
apply NoDup_cons in Hnodup as [Hfirst Hnodup].
split; [done|]. destruct rest as [|second rest].
- simpl in Hlast. injection Hlast as <-. exists (Some newlayer).
  split; [by rewrite lookup_insert_eq|]. split; [done|].
  exists None. split; [by rewrite lookup_insert_ne|done].
- exists following. split.
  + rewrite lookup_insert_ne; [done|]. intros ->.
    apply Hfirst. change (last (layer :: second :: rest)) with (last (second :: rest)) in Hlast.
    by apply last_Some_elem_of.
  + by apply IH.
Qed.

Lemma addLayer_chain (ch : layer_chain) layers newlayer (fuel : nat) :
is_chain (next_of ch) (base_ptr ch) layers ->
next_of ch !! newlayer = Some None -> newlayer ∉ layers ->
(length layers <= fuel)%nat ->
exists ch',
  addLayer fuel newlayer ch = Some ch'
  /\ is_chain (next_of ch') (base_ptr ch') (layers ++ [newlayer])
  /\ (forall l, l ∉ layers -> next_of ch' !! l = next_of ch !! l).
Proof.
intros Hchain Hnull Hnew Hfuel. unfold addLayer.
destruct layers as [|first rest].
- simpl in Hchain. rewrite Hchain. eexists. split; [done|]. simpl.
  split; [|done]. split; [done|]. by exists None.
- destruct Hchain as [Hbase Hrest]. rewrite Hbase.
  destruct (last_layer_chain (next_of ch) first (first :: rest) fuel)
    as (z & Hlast & _ & ->); [by split|done|].
  eexists. split; [done|]. cbn [base_ptr next_of]. split.
  + apply (is_chain_snoc _ _ (first :: rest)); [by split|done|done|done].
  + intros l Hl. apply lookup_insert_ne. intros <-.
    apply Hl. by apply last_Some_elem_of.
Qed.

Lemma addLayers_chain (ch : layer_chain) chained layers (fuel : nat) :
is_chain (next_of ch) (base_ptr ch) chained ->
NoDup (chained ++ layers) ->
(forall l, l ∈ layers -> next_of ch !! l = Some None) ->
(length (chained ++ layers) <= fuel)%nat ->
exists ch',
  addLayers fuel layers ch = Some ch'
  /\ is_chain (next_of ch') (base_ptr ch') (chained ++ layers).
Proof.
revert ch chained. induction layers as [|newlayer later IH]; intros ch chained.
- intros Hchain _ _ _. exists ch. by rewrite app_nil_r.
- intros Hchain Hnodup Hnull Hfuel.
  rewrite length_app in Hfuel. simpl in Hfuel.
  apply NoDup_app in Hnodup as (Hchained & Hapart & Hlayers).
  apply NoDup_cons in Hlayers as [Hfirst Hlater].
  destruct (addLayer_chain ch chained newlayer fuel) as (ch1 & Hadd & Hchain1 & Hkept);
    [done|apply Hnull; by left|intros Hin; apply (Hapart _ Hin); by left|lia|].
  destruct (IH ch1 (chained ++ [newlayer])) as (ch' & Hrest & Hchain');
    [done| | |rewrite !length_app; simpl; lia|].
  + rewrite <- app_assoc. simpl. apply NoDup_app. split; [done|]. split; [done|].
    by apply NoDup_cons.
  + intros l Hl. rewrite Hkept; [apply Hnull; by right|].
    intros Hin. apply (Hapart _ Hin). by right.
  + exists ch'. simpl. rewrite Hadd. split; [done|].
    by rewrite <- app_assoc in Hchain'.
Qed.

(** In a chain whose last link leads back into it, every layer has a
  successor in the chain. *)
Lemma is_chain_successor next start layers x :
is_chain next start layers -> x ∈ layers ->
last layers = Some x \/ exists y, y ∈ layers /\ next !! x = Some (Some y).
Proof.
revert start. induction layers as [|layer rest IH]; intros start Hchain Hx.
- by apply elem_of_nil in Hx.
- destruct Hchain as [-> (following & Hnext & Hrest)].
  destruct rest as [|second rest].
  + left. apply list_elem_of_singleton in Hx as ->. done.
  + destruct Hrest as [-> Hrest]. apply elem_of_cons in Hx as [->|Hx].
    * right. exists second. split; [right; by left|done].
    * destruct (IH (Some second)) as [Hlast|(y & Hy & Hlink)]; [by split|done| |].
      -- by left.
      -- right. exists y. split; [by right|done].
Qed.

Lemma closed_links_no_end next (layers : list Z) :
(forall x, x ∈ layers -> exists y, y ∈ layers /\ next !! x = Some (Some y)) ->
forall x, x ∈ layers ->
  (forall fuel, last_layer fuel next x = None)
  /\ (forall walked, ~ is_chain next (Some x) walked).
Proof.
intros Hclosed x Hx. split.
- intros fuel. revert x Hx. induction fuel as [|fuel IH]; intros x Hx; [done|].
  destruct (Hclosed x Hx) as (y & Hy & Hlink). simpl. rewrite Hlink. by apply IH.
- intros walked. revert x Hx. induction walked as [|w walked IH]; intros x Hx.
  + by intros ?.
  + intros [[= <-] (following & Hnext & Hrest)].
    destruct (Hclosed x Hx) as (y & Hy & Hlink). rewrite Hlink in Hnext.
    injection Hnext as <-. by apply (IH y).
Qed.
End Links.

Section Chain.
Context {L : Type} `{!SM_Layer L}.

Lemma fill_rows_app row pairRow (first later : list L) (tempRow0 tempRow1 : Z -> rgb48) :
let drawn := fill_rows row pairRow first tempRow0 tempRow1 in
let final := fill_rows row pairRow later drawn.1.1 drawn.1.2 in
fill_rows row pairRow (first ++ later) tempRow0 tempRow1
= (final.1.1, final.1.2, drawn.2 ++ final.2).
Proof.
revert tempRow0 tempRow1.
induction first as [|layer first IH]; intros tempRow0 tempRow1; cbn zeta.
- simpl. by destruct (fill_rows row pairRow later tempRow0 tempRow1) as [[? ?] ?].
- simpl.
  destruct (fillRefreshRow row tempRow0 layer) as [t0 layer0].
  destruct (fillRefreshRow pairRow tempRow1 layer0) as [t1 layer1].
  rewrite IH.
  destruct (fill_rows row pairRow first t0 t1) as [[d0 d1] first'] eqn:Hfirst.
  simpl.
  by destruct (fill_rows row pairRow later d0 d1) as [[? ?] ?].
Qed.

(** X2.  On a chain that ends in a null pointer, [addLayer] of a layer
  that is not in the chain and whose [nextLayer] is null returns (its
  walk takes as many steps as the chain has layers) and links the new
  layer behind the last one, so that the chain is the old chain followed
  by the new layer; the layer loop of [loadMatrixBuffers] over the
  objects of the new chain lets the old layers draw both rows as before
  and the new layer then draw, first into the row and then into the
  paired row, onto what they have drawn. *)
Theorem added_layer_draws_last (ch : layer_chain) (layers : list Z) (newlayer : Z)
  (fuel : nat) (object : Z -> L) (row pairRow : Z) (tempRow0 tempRow1 : Z -> rgb48) :
let before := fill_rows row pairRow (map object layers) tempRow0 tempRow1 in
let upper := fillRefreshRow row before.1.1 (object newlayer) in
let lower := fillRefreshRow pairRow before.1.2 upper.2 in
is_chain (next_of ch) (base_ptr ch) layers ->
next_of ch !! newlayer = Some None -> newlayer ∉ layers ->
(length layers <= fuel)%nat ->
exists ch',
  addLayer fuel newlayer ch = Some ch'
  /\ is_chain (next_of ch') (base_ptr ch') (layers ++ [newlayer])
  /\ fill_rows row pairRow (map object (layers ++ [newlayer])) tempRow0 tempRow1
     = (upper.1, lower.1, before.2 ++ [lower.2]).
Proof.
intros before upper lower Hchain Hnull Hnew Hfuel.
destruct (addLayer_chain ch layers newlayer fuel Hchain Hnull Hnew Hfuel)
  as (ch' & Hadd & Hchain' & _).
exists ch'. split; [done|]. split; [done|].
rewrite map_app, fill_rows_app. fold before. simpl.
subst upper lower.
destruct (fillRefreshRow row before.1.1 (object newlayer)) as [t0 layer0]. simpl.
by destruct (fillRefreshRow pairRow before.1.2 layer0) as [t1 layer1].
Qed.
End Chain.

Lemma added_layer_draws_last_witness :
  exists ch',
    addLayer 2 3 two_layer_chain = Some ch'
    /\ is_chain (next_of ch') (base_ptr ch') [1; 2; 3].
Proof.
  destruct (added_layer_draws_last two_layer_chain [1; 2] 3 2
              (fun _ => {| solid_colour := black |}) 0 16
              (fun _ => black) (fun _ => black))
    as (ch' & Hadd & Hchain & _).
  - simpl. split; [reflexivity|]. exists (Some 2). split; [reflexivity|].
    split; [reflexivity|]. exists None. split; reflexivity.
  - reflexivity.
  - rewrite !elem_of_cons, elem_of_nil. lia.
  - simpl. lia.
  - exists ch'. split; [exact Hadd|exact Hchain].
Defined.

(** X3.  After the [addLayer] calls of a sketch on an empty chain, for
    layers that are distinct and whose [nextLayer] is null,
    [useDefaultLayers] takes the layer added first as background and the
    layer added second as foreground, whatever was added after them; with
    one layer the foreground pointer is null, and with none the function
    reads through a null pointer.  Without the condition on [nextLayer]
    the foreground is whatever the first layer's [nextLayer] held. *)
Theorem useDefaultLayers_after_addLayers (ch : layer_chain) (layers : list Z) (fuel : nat) :
  base_ptr ch = None ->
  (length layers <= fuel)%nat ->
  (NoDup layers -> (forall l, l ∈ layers -> next_of ch !! l = Some None) ->
   exists ch',
     addLayers fuel layers ch = Some ch'
     /\ is_chain (next_of ch') (base_ptr ch') layers
     /\ useDefaultLayers ch'
        = match layers with
          | [] => None
          | [background] => Some (background, None)
          | background :: foreground :: _ => Some (background, Some foreground)
          end)
  /\ (forall background leftover,
        next_of ch !! background = Some leftover ->
        exists ch',
          addLayer fuel background ch = Some ch'
          /\ useDefaultLayers ch' = Some (background, leftover)).
Proof.
  intros Hempty Hfuel. split.
  - intros Hnodup Hnull.
    destruct (addLayers_chain ch [] layers fuel) as (ch' & Hadd & Hchain);
      [by rewrite Hempty|done|done|done|].
    simpl in Hchain. exists ch'. split; [done|]. split; [done|].
    unfold useDefaultLayers. destruct layers as [|background [|foreground rest]].
    + simpl in Hchain. by rewrite Hchain.
    + destruct Hchain as [-> (following & -> & ->)]. done.
    + destruct Hchain as [-> (following & -> & [-> _])]. done.
  - intros background leftover Hnext. unfold addLayer. rewrite Hempty.
    eexists. split; [done|]. unfold useDefaultLayers. simpl. by rewrite Hnext.
Qed.

Lemma useDefaultLayers_after_addLayers_witness :
  exists ch',
    addLayers 3 [1; 2; 3] no_layer_chain = Some ch'
    /\ useDefaultLayers ch' = Some (1, Some 2).
Proof.
  destruct (proj1 (useDefaultLayers_after_addLayers no_layer_chain [1; 2; 3] 3
                     eq_refl (le_n 3)))
    as (ch' & Hadd & _ & Hdefault).
  - repeat constructor; rewrite ?elem_of_cons, ?elem_of_nil; lia.
  - intros l. rewrite !elem_of_cons, elem_of_nil.
    intros [-> | [-> | [-> | []]]]; reflexivity.
  - exists ch'. split; [exact Hadd|exact Hdefault].
Defined.

(** X20.  [addLayer] does not look whether the layer is in the chain
    already: adding a layer of the chain again links the last layer back
    to it, and from then on no walk along the links comes to a null
    pointer, neither the walk of a later [addLayer] nor the layer loops of
    the pump. *)
Theorem addLayer_again_closes_cycle (ch : layer_chain) (layers : list Z) (again : Z)
    (fuel : nat) :
  is_chain (next_of ch) (base_ptr ch) layers ->
  again ∈ layers -> (length layers <= fuel)%nat ->
  exists ch' base z,
    addLayer fuel again ch = Some ch'
    /\ base_ptr ch' = Some base /\ last layers = Some z
    /\ next_of ch' !! z = Some (Some again)
    /\ (forall walked, ~ is_chain (next_of ch') (base_ptr ch') walked)
    /\ (forall fuel', last_layer fuel' (next_of ch') base = None)
    /\ (forall fuel' newlayer, addLayer fuel' newlayer ch' = None).
Proof.
  intros Hchain Hagain Hfuel.
  pose proof (is_chain_NoDup _ _ _ Hchain) as Hnodup.
  destruct layers as [|first rest]; [by apply elem_of_nil in Hagain|].
  destruct Hchain as [Hbase Hrest].
  assert (is_chain (next_of ch) (Some first) (first :: rest)) as Hchain by by split.
  destruct (last_layer_chain (next_of ch) first (first :: rest) fuel Hchain Hfuel)
    as (z & Hlast & Hnull & Hwalk).
  set (next' := <[z := Some again]> (next_of ch)).
  assert (Hclosed : forall x, x ∈ first :: rest ->
            exists y, y ∈ first :: rest /\ next' !! x = Some (Some y)).
  { intros x Hx. destruct (decide (x = z)) as [->|Hne].
    - exists again. split; [done|]. subst next'. by rewrite lookup_insert_eq.
    - destruct (is_chain_successor _ _ _ x Hchain Hx) as [Hend|(y & Hy & Hlink)].
      + rewrite Hlast in Hend. by injection Hend as <-.
      + exists y. split; [done|]. subst next'. by rewrite lookup_insert_ne. }
  destruct (closed_links_no_end next' (first :: rest) Hclosed first ltac:(by left))
    as [Hnever Hnochain].
  exists {| base_ptr := Some first; next_of := next' |}, first, z.
  split; [unfold addLayer; by rewrite Hbase, Hwalk|].
  split; [done|]. split; [done|].
  split; [subst next'; simpl; by rewrite lookup_insert_eq|].
  split; [done|]. split; [done|].
  intros fuel' newlayer. unfold addLayer. simpl. by rewrite Hnever.
Qed.

Lemma addLayer_again_closes_cycle_witness :
  exists ch',
    addLayer 2 2 two_layer_chain = Some ch'
    /\ next_of ch' !! 2 = Some (Some 2)
    /\ addLayer 100 3 ch' = None.
Proof.
  destruct (addLayer_again_closes_cycle two_layer_chain [1; 2] 2 2)
    as (ch' & base & z & Hadd & _ & Hlast & Hlink & _ & _ & Hstuck).
  - simpl. split; [reflexivity|]. exists (Some 2). split; [reflexivity|].
    split; [reflexivity|]. exists None. split; reflexivity.
  - rewrite !elem_of_cons. lia.
  - simpl. lia.
  - injection Hlast as <-. exists ch'. split; [exact Hadd|].
    split; [exact Hlink|apply Hstuck].
Defined.

(** ** countFPS *)

Lemma countFPS_step millis st :
  0 <= loops st < 2147483647 ->
  let '(st', printed) := countFPS millis st in
  loops st' + default 0 printed = loops st + 1
  /\ 0 <= loops st' <= loops st + 1
  /\ (forall n, printed = Some n -> loops st' = 0 /\ lastMillis st' = int32 millis)
  /\ (printed = None -> lastMillis st' = lastMillis st).
Proof.
  intros Hl. unfold countFPS. rewrite (int32_small (loops st + 1)) by lia.
  destruct (1000 <=? _); simpl; repeat split; try lia; congruence.
Qed.

(** X4.  [countFPS] loses no call: over any sequence of calls, the numbers
    printed and the count still held add up to the count held before plus
    the number of calls made (as long as that stays below 2^31). *)
Theorem countFPS_counts_every_call (times : list Z) (st : fps_counter) :
  0 <= loops st ->
  loops st + Z.of_nat (length times) < 2147483648 ->
  let '(st', printed) := countFPS_calls times st in
  foldr Z.add 0 printed + loops st' = loops st + Z.of_nat (length times)
  /\ 0 <= loops st'.
Proof.
  revert st. induction times as [|millis later IH]; intros st Hpos Hfit.
  - simpl. lia.
  - cbn [countFPS_calls length] in *. rewrite Nat2Z.inj_succ in *.
    pose proof (countFPS_step millis st) as Hstep.
    destruct (countFPS millis st) as [st1 printed].
    destruct Hstep as (Hsum & Hpos1 & _); [lia|].
    specialize (IH st1 (proj1 Hpos1)).
    destruct (countFPS_calls later st1) as [st2 more].
    destruct IH as [IHsum IHpos]; [lia|].
    destruct printed as [n|]; simpl in Hsum; cbn [foldr]; lia.
Qed.

Lemma countFPS_counts_every_call_witness :
  countFPS_calls [10; 400; 1000; 1500; 2100] fps_start
  = ({| loops := 0; lastMillis := 2100 |}, [3; 2])
  /\ foldr Z.add 0 [3; 2] + 0 = 0 + 5.
Proof.
  pose proof (countFPS_counts_every_call [10; 400; 1000; 1500; 2100] fps_start) as Hcount.
  assert (countFPS_calls [10; 400; 1000; 1500; 2100] fps_start
          = ({| loops := 0; lastMillis := 2100 |}, [3; 2])) as Hrun
    by (vm_compute; reflexivity).
  rewrite Hrun in Hcount. split; [reflexivity|].
  apply Hcount; vm_compute; congruence.
Defined.

(** ** More on the timer table *)

Section TimerBounds.
Context (hw : MatrixHardware).
Implicit Type c : PanelConfig.

Lemma min_block_period_nonneg c : 0 <= min_block_period hw c.
Proof. unfold min_block_period. rewrite uint32_eq. lia. Qed.

Lemma pad_block_cases c (t : timerpair) :
0 <= timer_period t < 65536 ->
min_block_period hw c < 65536 ->
pad_block hw c t
= if timer_period t <? min_block_period hw c
  then {| timer_oe := uint16 (timer_oe t + (min_block_period hw c - timer_period t));
          timer_period := min_block_period hw c |}
  else t.
Proof.
intros Hp Hmin. unfold pad_block.
destruct (Z.ltb_spec (timer_period t) (min_block_period hw c)) as [Hlt|Hge]; [|done].
rewrite uint32_small by lia. rewrite (uint16_small (_ - _)) by lia.
f_equal. rewrite uint16_small; lia.
Qed.

Lemma timer_block_fit c factor i :
timer_values_fit hw c factor -> min_block_period hw c < 65536 -> i < latchesPerRow c ->
let budget := block_ticks hw c i in
let dimmed := budget * factor / dimmingMaximum hw in
let padding := Z.max 0 (min_block_period hw c - (budget + LATCH_TIMER_PULSE_WIDTH_TICKS hw)) in
0 <= dimmed <= budget
/\ timer_block hw c factor i
   = {| timer_oe := dimmed + LATCH_TIMER_PULSE_WIDTH_TICKS hw + padding;
        timer_period := budget + LATCH_TIMER_PULSE_WIDTH_TICKS hw + padding |}.
Proof.
intros Hfit Hmin Hi budget dimmed padding.
pose proof (initial_period_exact hw c factor i Hfit Hi) as Hper.
pose proof (initial_ontime_exact hw c factor i Hfit Hi) as Hon.
destruct Hfit as (Hl & Hm & Hfit & Hmax & Hf & Hprod).
pose proof (block_ticks_range hw c i Hm Hi) as Hb. fold budget in Hb, Hper, Hon.
assert (0 <= dimmed <= budget) as Hd.
{ subst dimmed. split; [apply Z.div_pos; nia|]. apply Z.div_le_upper_bound; nia. }
split; [done|]. unfold timer_block.
rewrite pad_block_cases; [|cbn [timer_period]; rewrite Hper; lia|done].
cbn [timer_period timer_oe]. rewrite Hper, Hon.
fold dimmed. subst padding.
destruct (Z.ltb_spec (budget + LATCH_TIMER_PULSE_WIDTH_TICKS hw) (min_block_period hw c)).
- rewrite uint16_small by lia. f_equal; lia.
- f_equal; lia.
Qed.
End TimerBounds.

(** X5.  Every entry [calculateTimerLut] stores holds two 16-bit values,
    and if the minimum block period is a duration the timer can hold, no
    stored period is shorter than it: the period is the one first computed
    or, where that was too short, the minimum itself. *)
Theorem stored_period_at_least_minimum (hw : MatrixHardware) {L : Type}
    (s : SmartMatrix3 L) (i : Z) :
  let c := config s in
  0 <= i < latchesPerRow c ->
  min_block_period hw c < 65536 ->
  exists entry,
    timerLUT (calculateTimerLut hw s) !! i = Some entry
    /\ min_block_period hw c <= timer_period entry < 65536
    /\ 0 <= timer_oe entry < 65536
    /\ timer_period entry = Z.max (initial_period hw c i) (min_block_period hw c).
Proof.
  intros c Hi Hmin. exists (timer_block hw c (dimmingFactor s) i).
  split; [by apply calculateTimerLut_lookup|].
  pose proof (uint16_range (uint32 (block_ticks hw c i + LATCH_TIMER_PULSE_WIDTH_TICKS hw)))
    as Hp.
  pose proof (uint16_range
    (uint32 (Z.quot (int32 (block_ticks hw c i * dimmingFactor s)) (dimmingMaximum hw)
             + LATCH_TIMER_PULSE_WIDTH_TICKS hw))) as Ho.
  unfold timer_block. rewrite pad_block_cases by done.
  cbn [timer_period timer_oe]. fold (initial_period hw c i) in *.
  fold (initial_ontime hw c (dimmingFactor s) i) in *.
  destruct (Z.ltb_spec (initial_period hw c i) (min_block_period hw c));
    cbn [timer_period timer_oe].
  - pose proof (uint16_range (initial_ontime hw c (dimmingFactor s) i
                              + (min_block_period hw c - initial_period hw c i))).
    pose proof (min_block_period_nonneg hw c). lia.
  - lia.
Qed.

Lemma stored_period_at_least_minimum_witness :
  exists entry,
    timerLUT (calculateTimerLut example_hw wide_panel_state) !! 0 = Some entry
    /\ 576 <= timer_period entry < 65536.
Proof.
  destruct (stored_period_at_least_minimum example_hw wide_panel_state 0)
    as (entry & Hentry & Hperiod & _).
  - vm_compute. split; congruence.
  - vm_compute. reflexivity.
  - exists entry. split; [exact Hentry|exact Hperiod].
Defined.

(** X6.  When the timer values fit, the output-enable time the table
    stores lies between the latch dead time and the period, and padding
    leaves the gap between the two as it was: the period exceeds the
    on-time by the part of the plane's budget that dimming takes away.  At
    full brightness the on-time is the whole period; at factor 0 the gap is
    the whole budget. *)
Theorem on_time_within_period (hw : MatrixHardware) {L : Type}
    (s : SmartMatrix3 L) (i : Z) :
  let c := config s in
  let budget := block_ticks hw c i in
  timer_values_fit hw c (dimmingFactor s) ->
  min_block_period hw c < 65536 ->
  0 <= i < latchesPerRow c ->
  exists entry,
    timerLUT (calculateTimerLut hw s) !! i = Some entry
    /\ LATCH_TIMER_PULSE_WIDTH_TICKS hw <= timer_oe entry <= timer_period entry
    /\ timer_period entry - timer_oe entry
       = budget - budget * dimmingFactor s / dimmingMaximum hw
    /\ (dimmingFactor s = dimmingMaximum hw -> timer_oe entry = timer_period entry)
    /\ (dimmingFactor s = 0 -> timer_period entry - timer_oe entry = budget).
Proof.
  intros c budget Hfit Hmin Hi. exists (timer_block hw c (dimmingFactor s) i).
  split; [by apply calculateTimerLut_lookup|].
  destruct (timer_block_fit hw c (dimmingFactor s) i Hfit Hmin ltac:(lia)) as [Hd ->].
  fold budget in Hd |- *. cbn [timer_period timer_oe].
  destruct Hfit as (Hl & Hm & Hfit & Hmax & Hf & Hprod).
  split; [lia|]. split; [lia|]. split.
  - intros ->. rewrite Z.div_mul by lia. lia.
  - intros ->. rewrite Z.mul_0_r, Z.div_0_l by lia. lia.
Qed.

Lemma on_time_within_period_witness :
  exists entry,
    timerLUT (calculateTimerLut timing_example_hw timing_example_state) !! 3 = Some entry
    /\ 10 <= timer_oe entry <= timer_period entry
    /\ timer_period entry - timer_oe entry = 256 - 256 * 128 / 255.
Proof.
  destruct (on_time_within_period timing_example_hw timing_example_state 3)
    as (entry & Hentry & Hon & Hgap & _).
  - vm_compute. repeat split; congruence.
  - vm_compute. reflexivity.
  - vm_compute. split; congruence.
  - exists entry. split; [exact Hentry|]. split; [exact Hon|exact Hgap].
Defined.

(** X7.  When the timer values fit for both of two dimming factors
    ([timer_values_fit]: dead time and base unit not negative and together
    below 65536, the factor between 0 and a positive dimming maximum, base
    unit times dimming maximum below 2^31) and the minimum block period is
    below 65536, the larger factor gives every plane an on-time that is at
    least as long, and the same period.  (Where the 16-bit values wrap, as
    on a 32 x 4 panel at 48 MHz, this is not so.) *)
Theorem brighter_factor_longer_on_time (hw : MatrixHardware) (c : PanelConfig)
    (factor factor' i : Z) :
  timer_values_fit hw c factor ->
  timer_values_fit hw c factor' ->
  min_block_period hw c < 65536 ->
  0 <= i < latchesPerRow c ->
  factor <= factor' ->
  timer_oe (timer_block hw c factor i) <= timer_oe (timer_block hw c factor' i)
  /\ timer_period (timer_block hw c factor i) = timer_period (timer_block hw c factor' i).
Proof.
  intros Hfit Hfit' Hmin Hi Hle.
  destruct (timer_block_fit hw c factor i Hfit Hmin ltac:(lia)) as [_ ->].
  destruct (timer_block_fit hw c factor' i Hfit' Hmin ltac:(lia)) as [_ ->].
  cbn [timer_period timer_oe]. split; [|done].
  destruct Hfit as (Hl & Hm & _ & Hmax & Hf & _).
  pose proof (block_ticks_range hw c i Hm ltac:(lia)) as Hb.
  assert (block_ticks hw c i * factor / dimmingMaximum hw
          <= block_ticks hw c i * factor' / dimmingMaximum hw)
    by (apply Z.div_le_mono; nia).
  lia.
Qed.

Lemma brighter_factor_longer_on_time_witness :
  timer_oe (timer_block timing_example_hw (config timing_example_state) 64 3) = 74
  /\ timer_oe (timer_block timing_example_hw (config timing_example_state) 192 3) = 202.
Proof.
  pose proof (brighter_factor_longer_on_time timing_example_hw
                (config timing_example_state) 64 192 3) as Hmono.
  assert (timer_oe (timer_block timing_example_hw (config timing_example_state) 64 3)
          <= timer_oe (timer_block timing_example_hw (config timing_example_state) 192 3)).
  { apply Hmono; vm_compute; repeat split; congruence. }
  vm_compute. split; reflexivity.
Defined.

(** X8.  For a dead time and a row time that are not negative, the
    budgets of the planes of one row halve from the most significant plane
    down, so together they stay within twice its budget: the periods as
    first computed (wrapped to 16 bits or not) add up to at most the time
    of one row plus one latch dead time per plane. *)
Theorem planes_fit_row_time (hw : MatrixHardware) (c : PanelConfig) :
  0 <= LATCH_TIMER_PULSE_WIDTH_TICKS hw ->
  0 <= TICKS_PER_ROW hw c ->
  0 <= latchesPerRow c ->
  sum_planes (latchesPerRow c) (initial_period hw c)
  <= TICKS_PER_ROW hw c + latchesPerRow c * LATCH_TIMER_PULSE_WIDTH_TICKS hw.
Proof.
  intros Hdead Hrow Hplanes.
  assert (0 <= MSB_BLOCK_TICKS hw c) as Hm by (unfold MSB_BLOCK_TICKS; lia).
  assert (Hperiod : forall i, i < latchesPerRow c ->
            initial_period hw c i
            <= block_ticks hw c i + LATCH_TIMER_PULSE_WIDTH_TICKS hw).
  { intros i Hi. pose proof (block_ticks_range hw c i Hm Hi) as Hb.
    unfold initial_period. rewrite uint16_uint32, uint16_eq. lia. }
  assert (Hsum : forall n, 0 <= n -> n <= latchesPerRow c ->
            sum_planes n (initial_period hw c)
            <= 2 * block_ticks hw c (n - 1) + n * LATCH_TIMER_PULSE_WIDTH_TICKS hw
            \/ n = 0 /\ sum_planes n (initial_period hw c) = 0).
  { intros n Hn. pattern n. apply natlike_ind; [| |exact Hn].
    - intros _. right. split; [done|]. unfold sum_planes. by rewrite for_loop_none.
    - clear n Hn. intros n Hn IH Hle. left.
      change (Z.succ n) with (n + 1) in *. unfold sum_planes in *.
      rewrite for_loop_step by done.
      pose proof (Hperiod n ltac:(lia)) as Hlast.
      replace (n + 1 - 1) with n by lia.
      pose proof (block_ticks_range hw c n Hm ltac:(lia)) as Hb.
      destruct IH as [IH|[-> ->]]; [lia| |lia].
      destruct (decide (n = 0)) as [->|Hpos].
      + rewrite for_loop_none in * by done. lia.
      + pose proof (block_ticks_doubles hw c (n - 1) ltac:(lia)) as Hd.
        replace (n - 1 + 1) with n in Hd by lia. lia. }
  destruct (Hsum (latchesPerRow c) Hplanes ltac:(lia)) as [Hle|[Hzero ->]].
  - pose proof (block_ticks_range hw c (latchesPerRow c - 1) Hm ltac:(lia)) as Hb.
    unfold MSB_BLOCK_TICKS in *. lia.
  - lia.
Qed.

Lemma planes_fit_row_time_witness :
  sum_planes 8 (initial_period example_hw short_panel) <= 177777 + 8 * 21.
Proof.
  apply (planes_fit_row_time example_hw short_panel); vm_compute; congruence.
Defined.

(** X9.  When the timer values fit ([timer_values_fit]: dead time and
    base unit not negative and together below 65536, the dimming factor
    between 0 and a positive dimming maximum, base unit times dimming
    maximum below 2^31) and the minimum block period is below 65536, the
    table goes from the shortest block to the longest, also after padding:
    the stored periods never decrease with the plane index, so the last
    block of a row, after which the next row is prepared, has the longest
    period.  (Where the 16-bit period wraps, as on a 32 x 4 panel at
    48 MHz, this is not so.) *)
Theorem stored_periods_ascend (hw : MatrixHardware) {L : Type}
    (s : SmartMatrix3 L) (i j : Z) :
  let c := config s in
  timer_values_fit hw c (dimmingFactor s) ->
  min_block_period hw c < 65536 ->
  0 <= i <= j -> j < latchesPerRow c ->
  exists first later,
    timerLUT (calculateTimerLut hw s) !! i = Some first
    /\ timerLUT (calculateTimerLut hw s) !! j = Some later
    /\ timer_period first <= timer_period later
    /\ timer_period later
       <= Z.max (MSB_BLOCK_TICKS hw c + LATCH_TIMER_PULSE_WIDTH_TICKS hw)
                (min_block_period hw c).
Proof.
  intros c Hfit Hmin Hij Hj.
  exists (timer_block hw c (dimmingFactor s) i), (timer_block hw c (dimmingFactor s) j).
  split; [apply calculateTimerLut_lookup; fold c; lia|].
  split; [apply calculateTimerLut_lookup; fold c; lia|].
  destruct (timer_block_fit hw c (dimmingFactor s) i Hfit Hmin ltac:(lia)) as [_ ->].
  destruct (timer_block_fit hw c (dimmingFactor s) j Hfit Hmin ltac:(lia)) as [_ ->].
  cbn [timer_period].
  destruct Hfit as (_ & Hm & _).
  pose proof (block_ticks_monotone hw c i j Hm ltac:(lia)).
  pose proof (block_ticks_range hw c j Hm ltac:(lia)). lia.
Qed.

Lemma stored_periods_ascend_witness :
  exists first later,
    timerLUT (calculateTimerLut example_hw wide_panel_state) !! 2 = Some first
    /\ timerLUT (calculateTimerLut example_hw wide_panel_state) !! 7 = Some later
    /\ timer_period first <= timer_period later.
Proof.
  destruct (stored_periods_ascend example_hw wide_panel_state 2 7)
    as (first & later & Hfirst & Hlater & Hle & _).
  - vm_compute. repeat split; congruence.
  - vm_compute. reflexivity.
  - vm_compute. split; congruence.
  - vm_compute. reflexivity.
  - exists first, later. split; [exact Hfirst|]. split; [exact Hlater|exact Hle].
Defined.

(** ** More on the address table *)

Lemma address_entry_low_bits (hw : MatrixHardware) (i j : Z) :
  address_pins_ok hw ->
  i mod 2 ^ Z.of_nat (length (address_pins hw)) = j mod 2 ^ Z.of_nat (length (address_pins hw)) ->
  address_entry hw i = address_entry hw j.
Proof.
  intros Hpins Hmod.
  assert (address_bits_to_set hw i = address_bits_to_set hw j) as Hset.
  { apply Z.bits_inj'. intros n Hn. rewrite !address_bits_to_set_spec by done.
    apply eq_true_iff_eq. rewrite !on_pins_spec.
    assert (Hbit : forall k : nat, (k < length (address_pins hw))%nat ->
              Z.testbit i (0 + Z.of_nat k) = Z.testbit j (0 + Z.of_nat k)).
    { intros k Hk. rewrite Z.add_0_l.
      rewrite <- (Z.mod_pow2_bits_low i (Z.of_nat (length (address_pins hw)))) by lia.
      rewrite <- (Z.mod_pow2_bits_low j (Z.of_nat (length (address_pins hw)))) by lia.
      by rewrite Hmod. }
    split; intros (k & Hk & Hone); exists k; (split; [done|]);
      apply lookup_lt_Some in Hk as Hlt; [rewrite <- Hbit|rewrite Hbit]; done. }
  unfold address_entry. by rewrite Hset.
Qed.

(** X10.  The address table tells two rows apart exactly as far as the
    address lines reach: after [begin], the entries of rows [i] and [j]
    are equal if and only if the row numbers agree in the bits that have
    an address line.  With four lines, rows 16 apart of a panel with more
    than 16 row pairs share one entry. *)
Theorem address_rows_alias (hw : MatrixHardware) {L : Type} `{!SM_Layer L}
    (u : Z -> rgb48) (s : SmartMatrix3 L) (i j : Z) :
  let lines := Z.of_nat (length (address_pins hw)) in
  address_pins_ok hw ->
  0 <= i < MATRIX_ROWS_PER_FRAME (config s) ->
  0 <= j < MATRIX_ROWS_PER_FRAME (config s) ->
  addressLUT (begin hw u s) !! i = addressLUT (begin hw u s) !! j
  <-> i mod 2 ^ lines = j mod 2 ^ lines.
Proof.
  intros lines Hpins Hi Hj. rewrite begin_addressLUT.
  rewrite !fill_addressLUT_lookup by done. split.
  - intros Hsome.
    assert (address_entry hw i = address_entry hw j) as Hentry by congruence.
    assert (read_address_pins (bits_to_set (address_entry hw i)) (address_pins hw)
            = read_address_pins (bits_to_set (address_entry hw j)) (address_pins hw))
      as Hread by (by rewrite Hentry).
    rewrite (read_address_pins_spec _ i _ 0) in Hread;
      [|done|intros k pin Hk; rewrite Z.add_0_l; by apply address_entry_pin].
    rewrite (read_address_pins_spec _ j _ 0) in Hread;
      [|done|intros k pin Hk; rewrite Z.add_0_l; by apply address_entry_pin].
    by rewrite !Z.shiftr_0_r in Hread.
  - intros Hmod. f_equal. by apply address_entry_low_bits.
Qed.

Lemma address_rows_alias_witness :
  addressLUT (begin example_hw (fun _ => black) tall_panel_state) !! 1
  = addressLUT (begin example_hw (fun _ => black) tall_panel_state) !! 17.
Proof.
  apply (address_rows_alias example_hw (fun _ => black) tall_panel_state 1 17).
  - exact example_pins_ok.
  - vm_compute. split; congruence.
  - vm_compute. split; congruence.
  - vm_compute. reflexivity.
Defined.

(** ** The row cursor *)

Section Cursor.
Context (hw : MatrixHardware) {L : Type} `{!SM_Layer L}.
Variable u : Z -> rgb48.
Implicit Type s : SmartMatrix3 L.

Lemma enqueue_row_currentRow s :
currentRow (enqueue_row hw u s) = next_row (config s) (currentRow s).
Proof.
unfold enqueue_row.
destruct (enqueue_flags hw u (once_per_frame hw s)) as (_ & _ & _ & ->).
destruct (once_per_frame_statics hw s) as (-> & _).
destruct (once_per_frame_buffers hw s) as (_ & _ & _ & ->). done.
Qed.

Lemma turns_config s (k : nat) : config (Nat.iter k (enqueue_row hw u) s) = config s.
Proof. induction k as [|k IH]; [done|]. by rewrite Nat.iter_succ, enqueue_row_config. Qed.

Lemma next_row_mod c row :
0 <= row < MATRIX_ROWS_PER_FRAME c -> MATRIX_ROWS_PER_FRAME c < 256 ->
next_row c row = (row + 1) mod MATRIX_ROWS_PER_FRAME c.
Proof.
intros Hrow Hrows. unfold next_row. rewrite uint8_small by lia.
destruct (Z.leb_spec (MATRIX_ROWS_PER_FRAME c) (row + 1)).
- replace (row + 1) with (MATRIX_ROWS_PER_FRAME c) by lia.
  by rewrite Z_mod_same_full.
- by rewrite Z.mod_small by lia.
Qed.

Lemma turns_currentRow s (k : nat) :
0 <= currentRow s < MATRIX_ROWS_PER_FRAME (config s) ->
MATRIX_ROWS_PER_FRAME (config s) < 256 ->
currentRow (Nat.iter k (enqueue_row hw u) s)
= (currentRow s + Z.of_nat k) mod MATRIX_ROWS_PER_FRAME (config s).
Proof.
intros Hrow Hrows. induction k as [|k IH].
- simpl. rewrite Z.add_0_r. by rewrite Z.mod_small.
- rewrite Nat.iter_succ, enqueue_row_currentRow, turns_config, IH.
  rewrite next_row_mod; [|apply Z.mod_pos_bound; lia|done].
  rewrite Zplus_mod_idemp_l. f_equal. lia.
Qed.

(** X11.  The pump walks the row pairs of the frame in order and starts
  over after the last: from a cursor inside the frame, [k] turns of the
  loop leave it at [(currentRow + k) mod MATRIX_ROWS_PER_FRAME], one row
  further each turn; on a panel without a row pair the cursor stays at
  0. *)
Theorem row_cursor_cycles s (k : nat) :
let rows := MATRIX_ROWS_PER_FRAME (config s) in
let after n := Nat.iter n (enqueue_row hw u) s in
(0 <= currentRow s < rows -> rows < 256 ->
   currentRow (after k) = (currentRow s + Z.of_nat k) mod rows
   /\ currentRow (after (S k)) = (currentRow (after k) + 1) mod rows)
/\ (rows <= 0 -> currentRow (after (S k)) = 0).
Proof.
intros rows after. split.
- intros Hrow Hrows. subst after rows. cbv beta.
  rewrite !turns_currentRow by done. split; [done|].
  rewrite Zplus_mod_idemp_l. f_equal. lia.
- intros Hnone. subst after. cbv beta.
  rewrite Nat.iter_succ, enqueue_row_currentRow, turns_config. fold rows. unfold next_row.
  fold rows. pose proof (uint8_eq (currentRow (Nat.iter k (enqueue_row hw u) s) + 1)).
  destruct (Z.leb_spec rows (uint8 (currentRow (Nat.iter k (enqueue_row hw u) s) + 1)));
    [done|lia].
Qed.
End Cursor.

Lemma row_cursor_cycles_witness :
  currentRow (Nat.iter 17 (enqueue_row example_hw (fun _ => black)) example_state) = 1.
Proof.
  refine (eq_trans
    (proj1 (proj1 (row_cursor_cycles example_hw (fun _ => black) example_state 17) _ _)) _).
  - vm_compute. split; congruence.
  - vm_compute. reflexivity.
  - vm_compute. reflexivity.
Defined.

(** ** More on the pixel encoder *)

Lemma bits_above_32 w n : 0 <= w < 2 ^ 32 -> 32 <= n -> Z.testbit w n = false.
Proof.
  intros Hw Hn. destruct (decide (w = 0)) as [->|Hpos]; [apply Z.bits_0|].
  apply Z.bits_above_log2; [lia|].
  assert (Z.log2 w < 32) by (apply Z.log2_lt_pow2; lia). lia.
Qed.

Lemma below_pow2_32 w :
  0 <= w -> (forall n, 32 <= n -> Z.testbit w n = false) -> w < 2 ^ 32.
Proof.
  intros Hw Hbits. destruct (Z.lt_ge_cases w (2 ^ 32)) as [|Hge]; [done|].
  assert (32 <= Z.log2 w) by (apply Z.log2_le_pow2; lia).
  pose proof (Z.bit_log2 w ltac:(lia)) as Htop.
  rewrite Hbits in Htop; [done|lia].
Qed.

Lemma set_field_range o f v :
  0 <= f < 32 -> 0 <= o < 2 ^ 32 -> 0 <= set_field o f v < 2 ^ 32.
Proof.
  intros Hf Ho.
  assert (0 <= set_field o f v) as Hpos.
  { unfold set_field. apply Z.lor_nonneg. split.
    - apply Z.ldiff_nonneg. lia.
    - apply Z.shiftl_nonneg. apply Z.land_nonneg. lia. }
  split; [done|]. apply below_pow2_32; [done|]. intros n Hn.
  rewrite set_field_spec by lia.
  destruct (Z.eqb_spec n f); [lia|]. by apply bits_above_32.
Qed.

Section WordRange.
Context (hw : MatrixHardware).
Hypothesis order_ok : word_order_ok hw.

Lemma gpio_word_range q temp0 temp1 : 0 <= gpio_word hw q temp0 temp1 < 2 ^ 32.
Proof.
destruct order_ok as [Hrange _]. unfold gpio_word, set_byte. cbv zeta.
repeat (apply set_field_range; [apply Hrange|]). lia.
Qed.

Lemma clkset_word_range : 0 <= clkset_word hw < 2 ^ 32.
Proof.
destruct order_ok as [Hrange _]. unfold clkset_word. cbv zeta.
repeat (apply set_field_range; [apply Hrange|]). lia.
Qed.

Lemma clocked_word_range q temp0 temp1 :
0 <= Z.lor (gpio_word hw q temp0 temp1) (clkset_word hw) < 2 ^ 32.
Proof.
pose proof (gpio_word_range q temp0 temp1) as Hword.
pose proof clkset_word_range as Hclk.
split; [apply Z.lor_nonneg; lia|].
apply below_pow2_32; [apply Z.lor_nonneg; lia|]. intros n Hn.
by rewrite Z.lor_spec, !bits_above_32.
Qed.
End WordRange.

(** X12.  In a row buffer [loadMatrixBuffers] has filled, every pixel has
    its words twice: each word of the first group has the clock line and
    the unused line of all four bytes at 0, and the word of the second
    group [latchesPerRow / 4] places later is the same word with the clock
    line of all four bytes at 1.  Both are 32-bit values. *)
Theorem clock_toggles_per_pixel (hw : MatrixHardware) {L : Type} `{!SM_Layer L}
    (u : Z -> rgb48) (s : SmartMatrix3 L) (row i q : Z) :
  let c := config s in
  let slot := uint8 (cbGetNextWrite (dmaBuffer s)) in
  let data := matrixUpdateData (loadMatrixBuffers hw u row s) in
  word_order_ok hw -> constructed c -> supported_latches c ->
  0 <= i < matrixWidth c -> 0 <= q < latchesPerRow c / 4 ->
  exists low high,
    data !! (pixel_tempptr c slot i + q) = Some low
    /\ data !! (pixel_tempptr c slot i + latchesPerRow c / 4 + q) = Some high
    /\ 0 <= low < 2 ^ 32 /\ 0 <= high < 2 ^ 32
    /\ (forall p, Z.testbit low (GPIO_WORD_ORDER hw p clk) = false
                  /\ Z.testbit high (GPIO_WORD_ORDER hw p clk) = true
                  /\ Z.testbit low (GPIO_WORD_ORDER hw p pad) = false
                  /\ Z.testbit high (GPIO_WORD_ORDER hw p pad) = false)
    /\ (forall p f, f <> clk ->
          Z.testbit high (GPIO_WORD_ORDER hw p f) = Z.testbit low (GPIO_WORD_ORDER hw p f)).
Proof.
  intros c slot data Horder Hc Hsup Hi Hq. subst data.
  rewrite matrixUpdateData_loadMatrixBuffers. fold c slot.
  set (rows := fill_rows _ _ _ _ _).
  exists (gpio_word hw q (load_temp (latchesPerRow c) (rows.1.1 i))
                         (load_temp (latchesPerRow c) (rows.1.2 i))).
  exists (Z.lor (gpio_word hw q (load_temp (latchesPerRow c) (rows.1.1 i))
                                (load_temp (latchesPerRow c) (rows.1.2 i)))
                (clkset_word hw)).
  split; [by apply load_pixels_plain|].
  split; [by apply load_pixels_clocked|].
  split; [by apply gpio_word_range|].
  split; [by apply clocked_word_range|].
  split.
  - intros p. rewrite !gpio_word_spec, !clocked_word_spec by done. done.
  - intros p f Hf. rewrite gpio_word_spec, clocked_word_spec by done.
    by rewrite bool_decide_eq_false_2.
Qed.

Lemma clock_toggles_per_pixel_witness :
  exists low high,
    matrixUpdateData (loadMatrixBuffers example_hw (fun _ => black) 1 example_state)
      !! (pixel_tempptr (config example_state) 0 3 + 1) = Some low
    /\ matrixUpdateData (loadMatrixBuffers example_hw (fun _ => black) 1 example_state)
         !! (pixel_tempptr (config example_state) 0 3 + 2 + 1) = Some high
    /\ Z.testbit low (GPIO_WORD_ORDER example_hw p2 clk) = false
    /\ Z.testbit high (GPIO_WORD_ORDER example_hw p2 clk) = true.
Proof.
  destruct (clock_toggles_per_pixel example_hw (fun _ => black) example_state 1 3 1
              example_word_order_ok)
    as (low & high & Hlow & Hhigh & _ & _ & Hclk & _).
  - apply constructed_ctor.
  - left. reflexivity.
  - vm_compute. split; congruence.
  - vm_compute. split; congruence.
  - exists low, high. split; [exact Hlow|]. split; [exact Hhigh|].
    destruct (Hclk p2) as (Hl & Hh & _). split; [exact Hl|exact Hh].
Defined.

Section Refill.
Context (hw : MatrixHardware).
Implicit Type c : PanelConfig.

Lemma slot_word_pixel c slot a :
constructed c -> supported_latches c -> slot_word c slot a ->
exists i, 0 <= i < matrixWidth c /\ pixel_words c slot i a.
Proof.
intros Hc Hsup [Hlo Hhi].
destruct (supported_layout c Hc Hsup) as [_ Hrow].
exists (a / (latchesPerRow c / 2) - slot * matrixWidth c).
unfold pixel_words. rewrite pixel_tempptr_eq by done.
rewrite Hrow in Hlo, Hhi.
destruct Hsup as [Hl | [Hl | Hl]]; rewrite Hl in *;
  [change (8 / 2) with 4|change (12 / 2) with 6|change (16 / 2) with 8];
  set (sw := slot * matrixWidth c) in *; lia.
Qed.

Lemma pixel_word_cases c slot i a :
supported_latches c -> pixel_words c slot i a ->
exists q, 0 <= q < latchesPerRow c / 4
          /\ (a = pixel_tempptr c slot i + q
              \/ a = pixel_tempptr c slot i + latchesPerRow c / 4 + q).
Proof.
intros Hsup Hwords. unfold pixel_words in Hwords.
set (t := pixel_tempptr c slot i) in *.
destruct (Z.lt_ge_cases (a - t) (latchesPerRow c / 4)).
- exists (a - t). split; [lia|]. left. lia.
- exists (a - t - latchesPerRow c / 4).
  destruct Hsup as [Hl | [Hl | Hl]]; rewrite Hl in *; (split; [lia|]); right; lia.
Qed.

Lemma load_pixels_fresh c slot tempRow0 tempRow1 data data' a :
constructed c -> supported_latches c -> slot_word c slot a ->
load_pixels hw c slot tempRow0 tempRow1 data !! a
= load_pixels hw c slot tempRow0 tempRow1 data' !! a
/\ is_Some (load_pixels hw c slot tempRow0 tempRow1 data !! a).
Proof.
intros Hc Hsup Hslot.
destruct (slot_word_pixel c slot a Hc Hsup Hslot) as (i & Hi & Hwords).
destruct (pixel_word_cases c slot i a Hsup Hwords) as (q & Hq & [-> | ->]).
- rewrite !load_pixels_plain by done. eauto.
- rewrite !load_pixels_clocked by done. eauto.
Qed.

Lemma load_blocks_fresh c addresses timers row slot blocks blocks' b :
slot_block c slot b ->
load_blocks c addresses timers row slot blocks !! b
= load_blocks c addresses timers row slot blocks' !! b
/\ is_Some (load_blocks c addresses timers row slot blocks !! b).
Proof.
intros Hblock. unfold slot_block in Hblock.
replace b with (slot * latchesPerRow c + (b - slot * latchesPerRow c)) by lia.
rewrite !load_blocks_lookup by lia. eauto.
Qed.
End Refill.

(** X13.  [loadMatrixBuffers] writes every block and every data word of
    the row buffer it fills, so nothing of the row the buffer held before
    survives: two states that differ only in the content of the block
    array and of the data buffer have, after the call, the same content in
    that row buffer. *)
Theorem refill_overwrites_whole_slot (hw : MatrixHardware) {L : Type} `{!SM_Layer L}
    (u : Z -> rgb48) (s s' : SmartMatrix3 L) (row : Z) :
  let c := config s in
  let slot := uint8 (cbGetNextWrite (dmaBuffer s)) in
  constructed c -> supported_latches c ->
  set_matrixUpdateData (matrixUpdateData s)
    (set_matrixUpdateBlocks (matrixUpdateBlocks s) s') = s ->
  same_slot c slot (loadMatrixBuffers hw u row s) (loadMatrixBuffers hw u row s')
  /\ (forall b, slot_block c slot b ->
        is_Some (matrixUpdateBlocks (loadMatrixBuffers hw u row s) !! b))
  /\ (forall a, slot_word c slot a ->
        is_Some (matrixUpdateData (loadMatrixBuffers hw u row s) !! a)).
Proof.
  intros c slot Hc Hsup Hsame.
  assert (config s' = config s /\ dmaBuffer s' = dmaBuffer s
          /\ baseLayer s' = baseLayer s /\ addressLUT s' = addressLUT s
          /\ timerLUT s' = timerLUT s) as (Hconfig & Hring & Hlayers & Haddr & Htimer)
    by (rewrite <- Hsame; by destruct s').
  unfold same_slot.
  rewrite !matrixUpdateBlocks_loadMatrixBuffers, !matrixUpdateData_loadMatrixBuffers.
  rewrite Hconfig, Hring, Hlayers, Haddr, Htimer. fold c slot.
  split; [split|split].
  - intros b Hb. by apply load_blocks_fresh.
  - intros a Ha. by apply load_pixels_fresh.
  - intros b Hb. by apply (load_blocks_fresh c _ _ _ _ _ (matrixUpdateBlocks s)).
  - intros a Ha. by apply (load_pixels_fresh hw c _ _ _ _ (matrixUpdateData s)).
Qed.

Lemma refill_overwrites_whole_slot_witness :
  same_slot (config example_state) 0
    (loadMatrixBuffers example_hw (fun _ => black) 2 example_state)
    (loadMatrixBuffers example_hw (fun _ => black) 2 stale_state).
Proof.
  refine (proj1 (refill_overwrites_whole_slot example_hw (fun _ => black)
                   example_state stale_state 2 _ _ _)).
  - apply constructed_ctor.
  - left. reflexivity.
  - reflexivity.
Defined.

(** ** The shift-out channel *)

Lemma mloff_field_decode x :
  Z.shiftr (Z.land (Z.shiftl x 10) DMA_TCD_MLOFF_MASK) 10 = x mod 2 ^ 20.
Proof.
  change DMA_TCD_MLOFF_MASK with (Z.shiftl (Z.ones 20) 10).
  rewrite <- Z.shiftl_land, Z.shiftr_shiftl_l by lia.
  rewrite Z.sub_diag, Z.shiftl_0_r. apply Z.land_ones. lia.
Qed.

Lemma constructed_sizes (c : PanelConfig) :
  constructed c ->
  0 <= latchesPerRow c <= 85
  /\ dmaBufferBytesPerPixel c = 2 * latchesPerRow c
  /\ dmaBufferBytesPerRow c = 2 * latchesPerRow c * matrixWidth c.
Proof.
  intros (Hw & Hh & Hd & Hn & Hl & Hp & Hr).
  unfold COLOR_CHANNELS_PER_PIXEL, DMA_UPDATES_PER_CLOCK in *.
  rewrite uint8_eq in Hl, Hp. rewrite uint16_eq in Hr.
  assert (0 <= latchesPerRow c <= 85) as Hlat by lia.
  assert (dmaBufferBytesPerPixel c = 2 * latchesPerRow c) as Hbpp by lia.
  split; [done|]. split; [done|]. rewrite Hr, Hbpp.
  assert (0 <= 2 * latchesPerRow c * matrixWidth c < 65536) by nia. lia.
Qed.

Lemma minor_loop_offset_eq (c : PanelConfig) :
  constructed c ->
  shift_out_nbytes_field c = 2 * matrixWidth c
  /\ minor_loop_offset c = 1 - dmaBufferBytesPerPixel c * matrixWidth c
  /\ shift_out_nbytes_field c * latchesPerRow c + minor_loop_offset c = 1.
Proof.
  intros Hc. destruct (constructed_sizes c Hc) as (Hl & Hbpp & Hrow).
  destruct Hc as (Hw & _).
  assert (shift_out_nbytes_field c = 2 * matrixWidth c) as Hn.
  { unfold shift_out_nbytes_field, DMA_UPDATES_PER_CLOCK. rewrite int32_small; lia. }
  assert (0 <= dmaBufferBytesPerPixel c * matrixWidth c <= 43350) as Hprod by nia.
  assert (minor_loop_offset c = 1 - dmaBufferBytesPerPixel c * matrixWidth c) as Hoff.
  { unfold minor_loop_offset, shift_out_mloff_field.
    rewrite (int32_small (_ * _)) by lia. rewrite int32_small by lia.
    rewrite mloff_field_decode.
    set (x := dmaBufferBytesPerPixel c * matrixWidth c) in *.
    change (2 ^ 20) with 1048576. change (2 ^ 19) with 524288. lia. }
  split; [done|]. split; [done|]. rewrite Hn, Hoff, Hbpp. lia.
Qed.

Lemma shift_out_offset_eq (c : PanelConfig) (slot k m : Z) :
  constructed c ->
  shift_out_offset c slot k m = slot * dmaBufferBytesPerRow c + k + m * latchesPerRow c.
Proof.
  intros Hc. destruct (minor_loop_offset_eq c Hc) as (_ & _ & Hone).
  unfold shift_out_offset. rewrite Hone. lia.
Qed.

(** X14.  The transfer descriptor [begin] writes for the shift-out channel
    holds its numbers without loss: the byte count of a minor loop, two
    transfers per pixel, stays below the offset field, and the offset
    field reads back as [1 - dmaBufferBytesPerPixel * matrixWidth].  A
    minor loop advances the source by exactly one row buffer, so the
    offset leaves it one byte after the start of the loop: minor loop [k]
    reads the bytes [k], [k + latchesPerRow], [k + 2 * latchesPerRow], ...
    of the row buffer. *)
Theorem minor_loop_returns_one_byte_on (c : PanelConfig) (slot k m : Z) :
  constructed c ->
  shift_out_nbytes_field c = 2 * matrixWidth c
  /\ 0 <= shift_out_nbytes_field c < 2 ^ 10
  /\ Z.land (shift_out_nbytes_field c) DMA_TCD_MLOFF_MASK = 0
  /\ minor_loop_offset c = 1 - dmaBufferBytesPerPixel c * matrixWidth c
  /\ shift_out_nbytes_field c * latchesPerRow c = dmaBufferBytesPerRow c
  /\ shift_out_nbytes_field c * latchesPerRow c + minor_loop_offset c = 1
  /\ shift_out_offset c slot k m
     = slot * dmaBufferBytesPerRow c + k + m * latchesPerRow c.
Proof.
  intros Hc. destruct (constructed_sizes c Hc) as (Hl & Hbpp & Hrow).
  destruct (minor_loop_offset_eq c Hc) as (Hn & Hoff & Hone).
  pose proof (shift_out_offset_eq c slot k m Hc) as Hat.
  destruct Hc as (Hw & _).
  split; [done|]. split; [rewrite Hn; change (2 ^ 10) with 1024; lia|].
  split.
  { rewrite Hn. apply Z.bits_inj'. intros n Hn0. rewrite Z.land_spec, Z.bits_0.
    destruct (Z.lt_ge_cases n 10).
    - change DMA_TCD_MLOFF_MASK with (Z.shiftl (Z.ones 20) 10).
      rewrite Z.shiftl_spec_low by done. apply andb_false_r.
    - destruct (decide (matrixWidth c = 0)) as [->|Hpos]; [by rewrite Z.bits_0|].
      rewrite Z.bits_above_log2; [done|lia|].
      assert (Z.log2 (2 * matrixWidth c) < 10)
        by (apply Z.log2_lt_pow2; [lia|change (2 ^ 10) with 1024; lia]).
      lia. }
  split; [done|]. split; [rewrite Hn, Hrow; lia|]. done.
Qed.

Lemma minor_loop_returns_one_byte_on_witness :
  minor_loop_offset (config example_state) = -511
  /\ shift_out_offset (config example_state) 1 3 5 = 512 + 3 + 5 * 8.
Proof.
  pose proof (minor_loop_returns_one_byte_on (config example_state) 1 3 5
                (constructed_ctor 32 32 24 2 _)) as (_ & _ & _ & Hoff & _ & _ & Hat).
  split; [exact Hoff|exact Hat].
Defined.

(** X15.  On a constructed configuration with 8, 12 or 16 bit-planes
    (the plane counts the encoder lays out in whole words), the bytes the
    shift-out channel reads in minor loop [k] are the bytes the encoder
    wrote for bit-plane [k]: for pixel [i] of the row buffer, transfer
    [2 * i] reads byte [k mod 4] of word [k / 4] of the pixel's clock-low
    group and transfer [2 * i + 1] the same byte of the clock-high group
    [latchesPerRow / 4] words later, and both lie inside the row buffer.
    (With another plane count, 10 for one, the channel's stride and the
    encoder's word groups do not meet.) *)
Theorem shift_out_reads_plane (c : PanelConfig) (slot k i : Z) :
  constructed c -> supported_latches c ->
  0 <= k < latchesPerRow c -> 0 <= i < matrixWidth c ->
  let low := shift_out_offset c slot k (2 * i) in
  let high := shift_out_offset c slot k (2 * i + 1) in
  low / sizeof_uint32_t = pixel_tempptr c slot i + k / 4
  /\ low mod sizeof_uint32_t = k mod 4
  /\ high / sizeof_uint32_t = pixel_tempptr c slot i + latchesPerRow c / 4 + k / 4
  /\ high mod sizeof_uint32_t = k mod 4
  /\ slot_word c slot (low / sizeof_uint32_t)
  /\ slot_word c slot (high / sizeof_uint32_t).
Proof.
  intros Hc Hsup Hk Hi low high.
  subst low high. rewrite !shift_out_offset_eq by done.
  destruct (supported_layout c Hc Hsup) as [_ Hrow].
  unfold slot_word. rewrite pixel_tempptr_eq by done. rewrite Hrow.
  unfold sizeof_uint32_t.
  destruct Hsup as [Hl | [Hl | Hl]]; rewrite Hl in *;
    [change (8 / 2) with 4; change (8 / 4) with 2
    |change (12 / 2) with 6; change (12 / 4) with 3
    |change (16 / 2) with 8; change (16 / 4) with 4];
    set (sw := slot * matrixWidth c) in *; lia.
Qed.

Lemma shift_out_reads_plane_witness :
  shift_out_offset (config example_state) 1 6 (2 * 3) / 4
  = pixel_tempptr (config example_state) 1 3 + 6 / 4
  /\ shift_out_offset (config example_state) 1 6 (2 * 3) mod 4 = 6 mod 4.
Proof.
  destruct (shift_out_reads_plane (config example_state) 1 6 3) as (Hword & Hbyte & _).
  - apply constructed_ctor.
  - left. reflexivity.
  - vm_compute. split; congruence.
  - vm_compute. split; congruence.
  - split; [exact Hword|exact Hbyte].
Defined.

(** ** What the pump leaves in the row buffers *)

Section SlotContent.
Context (hw : MatrixHardware) {L : Type} `{!SM_Layer L}.
Variable u : Z -> rgb48.
Implicit Type s : SmartMatrix3 L.

Lemma enqueue_row_blocks s :
matrixUpdateBlocks (enqueue_row hw u s)
= load_blocks (config s) (addressLUT s) (timerLUT (once_per_frame hw s))
    (uint8 (next_row (config s) (currentRow s)))
    (uint8 (cbGetNextWrite (dmaBuffer s))) (matrixUpdateBlocks s).
Proof.
destruct (once_per_frame_statics hw s) as (Hcfg & Haddr & _).
destruct (once_per_frame_buffers hw s) as (Hblocks & _ & Hring & Hrow).
unfold enqueue_row, enqueue. cbv zeta. rewrite loadMatrixBuffers_eq. simpl.
by rewrite Hcfg, Haddr, Hblocks, Hring, Hrow.
Qed.

Lemma once_per_frame_fresh s :
fresh_table hw s -> timerLUT (once_per_frame hw s) = timerLUT s.
Proof.
intros Hfresh. unfold once_per_frame. destruct (currentRow s =? 0); [|done].
rewrite frame_updates_timerLUT. by destruct (brightnessChange s).
Qed.

Lemma enqueue_row_fresh s :
fresh_table hw s ->
timerLUT (enqueue_row hw u s) = timerLUT s /\ fresh_table hw (enqueue_row hw u s).
Proof.
intros Hfresh.
assert (timerLUT (enqueue_row hw u s) = timerLUT s) as Hsame.
{ unfold enqueue_row.
  destruct (enqueue_flags hw u (once_per_frame hw s)) as (-> & _).
  by apply once_per_frame_fresh. }
split; [done|]. unfold fresh_table. rewrite Hsame.
destruct (enqueue_row_statics hw u s) as (Hcfg & _ & _ & Hdim & _).
rewrite (calculateTimerLut_timerLUT hw s (enqueue_row hw u s)) by done. done.
Qed.

Lemma turns_fresh s (n : nat) :
fresh_table hw s ->
timerLUT (Nat.iter n (enqueue_row hw u) s) = timerLUT s
/\ fresh_table hw (Nat.iter n (enqueue_row hw u) s).
Proof.
intros Hfresh. induction n as [|n [IHsame IHfresh]]; [done|].
rewrite Nat.iter_succ.
destruct (enqueue_row_fresh _ IHfresh) as [Hsame Hnext].
split; [by rewrite Hsame|done].
Qed.

Lemma turns_statics s (n : nat) : same_statics s (Nat.iter n (enqueue_row hw u) s).
Proof.
induction n as [|n IH]; [apply same_statics_refl|].
rewrite Nat.iter_succ. eapply same_statics_trans; [exact IH|].
apply enqueue_row_statics.
Qed.

(** After [n] turns of the loop, started with at least [n] free slots and
  an up-to-date timer table, the [k]-th slot written holds in every
  block the timer pair of the block's plane and the address pair of the
  [k + 1]-st row after the cursor. *)
Lemma turns_blocks s (n : nat) (k j : Z) :
let c := config s in
let ring := dmaBuffer s in
let slot := (cb_start ring + cb_count ring + k) mod cb_size ring in
constructed c -> ring_ok ring -> fresh_table hw s ->
0 <= currentRow s < MATRIX_ROWS_PER_FRAME c ->
Z.of_nat n <= cb_size ring - cb_count ring ->
0 <= k < Z.of_nat n -> 0 <= j < latchesPerRow c ->
matrixUpdateBlocks (Nat.iter n (enqueue_row hw u) s) !! (slot * latchesPerRow c + j)
= Some {| timerValues := timerLUT s !!! j;
          addressValues :=
            addressLUT s !!! ((currentRow s + k + 1) mod MATRIX_ROWS_PER_FRAME c) |}.
Proof.
intros c ring slot Hc Hok Hfresh Hrow. subst slot ring.
set (ring := dmaBuffer s) in *.
set (slot := (cb_start ring + cb_count ring + k) mod cb_size ring).
assert (MATRIX_ROWS_PER_FRAME c < 256) as Hrows
  by (destruct Hc as (_ & Hh & _); unfold MATRIX_ROWS_PER_FRAME; lia).
destruct (constructed_nonneg c Hc) as [Hlat _].
induction n as [|n IH]; intros Hn Hk Hj; [lia|].
rewrite Nat.iter_succ, enqueue_row_blocks.
set (sn := Nat.iter n (enqueue_row hw u) s) in *.
destruct (turns_statics s n) as (Hcfg & Haddr & _). fold sn in Hcfg, Haddr.
destruct (turns_fresh s n Hfresh) as [Htimer Hfreshn]. fold sn in Htimer, Hfreshn.
assert (Z.of_nat n <= cb_size ring - cb_count ring) as Hfree by lia.
pose proof (turns_ring hw u s n Hok Hfree) as Hring. fold sn ring in Hring.
pose proof (turns_currentRow hw u s n Hrow Hrows) as Hcur. fold sn c in Hcur.
rewrite Hcfg, Haddr, (once_per_frame_fresh sn Hfreshn), Htimer, Hring, Hcur. fold c.
unfold cbGetNextWrite. cbn [cb_size cb_start cb_count]. fold ring.
assert (0 < cb_size ring) as Hsize by (destruct Hok; lia).
rewrite (uint8_small (_ mod cb_size ring))
  by (pose proof (Z.mod_pos_bound (cb_start ring + (cb_count ring + Z.of_nat n))
                    (cb_size ring) Hsize); destruct Hok; lia).
destruct (decide (k = Z.of_nat n)) as [->|Hne].
- subst slot. rewrite <- Z.add_assoc. rewrite load_blocks_lookup by done.
  do 2 f_equal.
  pose proof (Z.mod_pos_bound (currentRow s + Z.of_nat n) (MATRIX_ROWS_PER_FRAME c)
                ltac:(lia)) as Hin.
  pose proof (Z.mod_pos_bound (currentRow s + Z.of_nat n + 1) (MATRIX_ROWS_PER_FRAME c)
                ltac:(lia)) as Hin'.
  rewrite next_row_mod by done. rewrite Zplus_mod_idemp_l.
  rewrite uint8_small by lia. done.
- rewrite load_blocks_other; [apply IH; lia|].
  apply (slot_block_apart c slot); [done| |unfold slot_block; lia].
  subst slot. rewrite <- Z.add_assoc.
  apply same_residue_apart; [done|]. destruct Hok. lia.
Qed.
End SlotContent.

(** X16.  When [begin] returns on a constructed panel with at least one
    row pair, the pump has filled every row buffer of the ring (the ring
    as modelled above) in order, starting with row 1 of the frame, not
    row 0: block [j] of row buffer [k] holds the timer pair
    [calculateTimerLut] computes for plane [j] and the address pair of row
    [(k + 1) mod MATRIX_ROWS_PER_FRAME], and the row cursor has advanced
    by the number of row buffers. *)
Theorem begin_fills_slots_in_row_order (hw : MatrixHardware) {L : Type} `{!SM_Layer L}
    (u : Z -> rgb48) (s : SmartMatrix3 L) (k j : Z) :
  let c := config s in
  constructed c -> currentRow s = 0 -> 1 <= MATRIX_ROWS_PER_FRAME c ->
  0 <= k < dmaBufferNumRows c -> 0 <= j < latchesPerRow c ->
  matrixUpdateBlocks (begin hw u s) !! (k * latchesPerRow c + j)
  = Some {| timerValues := timer_block hw c (dimmingFactor s) j;
            addressValues := address_entry hw ((k + 1) mod MATRIX_ROWS_PER_FRAME c) |}
  /\ currentRow (begin hw u s) = dmaBufferNumRows c mod MATRIX_ROWS_PER_FRAME c.
Proof.
  intros c Hc Hzero Hrows Hk Hj.
  assert (MATRIX_ROWS_PER_FRAME c < 256) as Hrows'
    by (destruct Hc as (_ & Hh & _); unfold MATRIX_ROWS_PER_FRAME; lia).
  assert (0 <= dmaBufferNumRows c < 256) as Hnum by (by destruct Hc as (_ & _ & _ & ? & _)).
  set (p := prepared hw s).
  assert (config p = c) as Hcfg by done.
  assert (dmaBuffer p = cbInit (dmaBufferNumRows c)) as Hring by done.
  assert (currentRow p = 0) as Hcur by done.
  assert (ring_ok (dmaBuffer p)) as Hok by (rewrite Hring; unfold ring_ok; simpl; lia).
  assert (begin hw u s = start_hardware hw (matrixCalculations hw u p)) as -> by done.
  assert (forall x : SmartMatrix3 L,
            matrixUpdateBlocks (start_hardware hw x) = matrixUpdateBlocks x
            /\ currentRow (start_hardware hw x) = currentRow x) as Hstart by done.
  destruct (Hstart (matrixCalculations hw u p)) as [-> ->].
  rewrite matrixCalculations_iter by done. rewrite Hring. cbn [cbInit cb_size cb_count].
  rewrite Z.sub_0_r. split.
  - pose proof (turns_blocks hw u p (Z.to_nat (dmaBufferNumRows c)) k j) as Hblocks.
    cbv zeta in Hblocks. rewrite Hcfg, Hring, Hcur in Hblocks.
    cbn [cbInit cb_size cb_start cb_count] in Hblocks.
    rewrite !Z.add_0_l, (Z.mod_small k) in Hblocks by lia.
    rewrite Hblocks; [|done|by rewrite <- Hring| |lia|lia|lia|done].
    + f_equal. f_equal.
      * subst p. unfold prepared.
        rewrite lookup_total_alt, calculateTimerLut_lookup by done. done.
      * assert (addressLUT p = addressLUT (fill_addressLUT hw s)) as -> by done.
        rewrite lookup_total_alt, fill_addressLUT_lookup; [done|].
        apply Z.mod_pos_bound. fold c. lia.
    + subst p. unfold prepared. red. by rewrite calculateTimerLut_idempotent.
  - rewrite (turns_currentRow hw u p) by (rewrite ?Hcfg, ?Hcur; lia).
    rewrite Hcfg, Hcur, Z.add_0_l, Z2Nat.id by lia. done.
Qed.

Lemma begin_fills_slots_in_row_order_witness :
  matrixUpdateBlocks (begin example_hw (fun _ => black) constructed_state) !! (1 * 8 + 7)
  = Some {| timerValues := {| timer_oe := 5598; timer_period := 11132 |};
            addressValues := {| bits_to_clear := 208; bits_to_set := 32 |} |}.
Proof.
  refine (eq_trans
    (proj1 (begin_fills_slots_in_row_order example_hw (fun _ => black)
              constructed_state 1 7 _ _ _ _ _)) _).
  - apply constructed_ctor.
  - reflexivity.
  - vm_compute. congruence.
  - vm_compute. split; congruence.
  - vm_compute. split; congruence.
  - vm_compute. reflexivity.
Defined.

(** ** The two interrupt handlers together *)

(** X17.  In the running driver the ring (as modelled above) is full
    when a row has been shifted out.  On a constructed configuration with
    8, 12 or 16 bit-planes, with the read cursor inside the ring,
    [rowShiftCompleteISR] followed by [rowCalculationISR] then makes
    exactly one turn of the pump: it encodes one row, into the row buffer
    just released and nowhere else, the ring is full again, and the three
    source pointers name the next committed row buffer.  With two or more
    row buffers that is another buffer than the one being written; with a
    single row buffer it is the same one.  (With four planes the encoder
    writes one word beyond the row buffer.) *)
Theorem one_row_per_interrupt (hw : MatrixHardware) {L : Type} `{!SM_Layer L}
    (u : Z -> rgb48) (s : SmartMatrix3 L) :
  let c := config s in
  let released := cbGetNextRead (dmaBuffer s) in
  let next := (released + 1) mod cb_size (dmaBuffer s) in
  let s' := rowCalculationISR hw u (rowShiftCompleteISR s) in
  constructed c -> supported_latches c ->
  ring_ok (dmaBuffer s) -> cbIsFull (dmaBuffer s) = true ->
  0 <= released < cb_size (dmaBuffer s) ->
  s' = enqueue_row hw u (rowShiftCompleteISR s)
  /\ currentRow s' = next_row c (currentRow s)
  /\ cbIsFull (dmaBuffer s') = true
  /\ cbGetNextRead (dmaBuffer s') = next
  /\ writes_only_slot c released s s'
  /\ dmaUpdateAddress_SADDR (peripherals s') = next * latchesPerRow c
  /\ dmaUpdateTimer_SADDR (peripherals s') = next * latchesPerRow c
  /\ dmaClockOutData_SADDR (peripherals s') = next * dmaBufferBytesPerRow c
  /\ (2 <= cb_size (dmaBuffer s) -> next <> released)
  /\ (cb_size (dmaBuffer s) = 1 -> next = released).
Proof.
  intros c released next s' Hc Hsup Hok Hfull Hstart.
  set (s1 := rowShiftCompleteISR s).
  destruct (rowShiftCompleteISR_releases s Hok) as (Hblocks & Hdata & Hring & Hok1 & _).
  fold s1 in Hblocks, Hdata, Hring, Hok1.
  assert (config s1 = c) as Hcfg by done.
  assert (currentRow s1 = currentRow s) as Hcur by done.
  apply Z.eqb_eq in Hfull as Hcount. destruct Hok as [Hcnt Hsize].
  unfold cbGetNextRead in released. subst released.
  set (start := cb_start (dmaBuffer s)) in *.
  set (size := cb_size (dmaBuffer s)) in *.
  assert (dmaBuffer s1
          = {| cb_size := size; cb_start := next; cb_count := size - 1 |}) as Hring1.
  { rewrite Hring. unfold cbRead, cbIsEmpty. rewrite Hcount. fold size.
    destruct (Z.eqb_spec size 0); [lia|]. done. }
  assert (cbIsFull (dmaBuffer s1) = false) as Hfree
    by (rewrite Hring1; unfold cbIsFull; simpl; apply Z.eqb_neq; lia).
  assert (cbGetNextWrite (dmaBuffer s1) = start) as Hslot.
  { rewrite Hring1. unfold cbGetNextWrite. cbn [cb_size cb_start cb_count]. subst next.
    rewrite Zplus_mod_idemp_l.
    replace (start + 1 + (size - 1)) with (start + 1 * size) by lia.
    rewrite Z.mod_add by lia. apply Z.mod_small. lia. }
  assert (s' = enqueue_row hw u s1) as Hturn.
  { subst s'. unfold rowCalculationISR. fold s1.
    rewrite matrixCalculations_while, Hfree by done.
    apply matrixCalculations_full.
    rewrite enqueue_row_dmaBuffer, cbWrite_not_full, Hring1 by done.
    unfold cbIsFull. simpl. apply Z.eqb_eq. lia. }
  assert (dmaBuffer s' = {| cb_size := size; cb_start := next; cb_count := size |})
    as Hring'.
  { rewrite Hturn, enqueue_row_dmaBuffer, cbWrite_not_full, Hring1 by done.
    simpl. f_equal. lia. }
  destruct (enqueue_row_statics hw u s1) as (_ & _ & _ & _ & Hper).
  split; [done|].
  split; [by rewrite Hturn, enqueue_row_currentRow, Hcfg, Hcur|].
  split; [rewrite Hring'; unfold cbIsFull; simpl; by apply Z.eqb_eq|].
  split; [by rewrite Hring'|].
  split.
  { pose proof (enqueue_row_writes_only_slot hw u s1) as Hwrites.
    rewrite Hcfg, Hslot, <- Hturn in Hwrites.
    destruct (Hwrites Hc Hsup Hok1 Hfree) as [Hb Hd]. split.
    - intros b Hout. rewrite Hb by done. by rewrite Hblocks.
    - intros a Hout. rewrite Hd by done. by rewrite Hdata. }
  assert (cbGetNextRead (dmaBuffer s1) = next) as Hread by (by rewrite Hring1).
  rewrite Hturn, Hper.
  split; [subst s1; unfold rowShiftCompleteISR; simpl; by rewrite <- Hring, Hread|].
  split; [subst s1; unfold rowShiftCompleteISR; simpl; by rewrite <- Hring, Hread|].
  split; [subst s1; unfold rowShiftCompleteISR; simpl; by rewrite <- Hring, Hread|].
  subst next. split.
  - intros Htwo. destruct (decide (start + 1 = size)) as [Hlast|Hmid].
    + rewrite Hlast, Z_mod_same_full. lia.
    + rewrite Z.mod_small by lia. lia.
  - intros Hone. rewrite Hone. rewrite Z.mod_1_r. lia.
Qed.

Lemma one_row_per_interrupt_witness :
  cbIsFull (dmaBuffer (rowCalculationISR example_hw (fun _ => black)
                         (rowShiftCompleteISR running_state))) = true
  /\ writes_only_slot (config running_state) 0 running_state
       (rowCalculationISR example_hw (fun _ => black) (rowShiftCompleteISR running_state)).
Proof.
  destruct (one_row_per_interrupt example_hw (fun _ => black) running_state)
    as (_ & _ & Hfull & _ & Hwrites & _).
  - unfold constructed. vm_compute. repeat split; congruence.
  - left. vm_compute. reflexivity.
  - unfold ring_ok. vm_compute. repeat split; congruence.
  - vm_compute. reflexivity.
  - vm_compute. split; congruence.
  - split; [exact Hfull|exact Hwrites].
Defined.

(** ** Brightness *)

(** X18.  A pending brightness change is never lost and never waits
    longer than one frame: from a row cursor inside the frame, the timer
    table and the flag stay as they are until the cursor is back at row 0,
    which takes fewer turns of the pump than the frame has row pairs, and
    the turn that starts there stores the table [calculateTimerLut]
    computes and clears the flag. *)
Theorem brightness_change_applied_within_a_frame (hw : MatrixHardware) {L : Type}
    `{!SM_Layer L} (u : Z -> rgb48) (s : SmartMatrix3 L) :
  let rows := MATRIX_ROWS_PER_FRAME (config s) in
  let after n := Nat.iter n (enqueue_row hw u) s in
  let wait := Z.to_nat ((rows - currentRow s) mod rows) in
  0 <= currentRow s < rows -> rows < 256 -> brightnessChange s = true ->
  Z.of_nat wait < rows
  /\ (forall k, (k <= wait)%nat ->
        timerLUT (after k) = timerLUT s /\ brightnessChange (after k) = true)
  /\ currentRow (after wait) = 0
  /\ timerLUT (after (S wait)) = timerLUT (calculateTimerLut hw s)
  /\ brightnessChange (after (S wait)) = false.
Proof.
  intros rows after wait Hrow Hrows Hflag.
  pose proof (Z.mod_pos_bound (rows - currentRow s) rows ltac:(lia)) as Hwait.
  assert (Z.of_nat wait = (rows - currentRow s) mod rows) as Hw
    by (subst wait; rewrite Z2Nat.id; lia).
  assert (Hcur : forall k : nat, currentRow (after k) = (currentRow s + Z.of_nat k) mod rows)
    by (intros k; by apply turns_currentRow).
  assert (Hbefore : forall k : nat, (k < wait)%nat -> currentRow (after k) <> 0).
  { intros k Hk. rewrite Hcur.
    destruct (decide (currentRow s = 0)) as [Hzero|Hpos].
    - rewrite Hzero, Z.sub_0_r, Z_mod_same_full in Hw. lia.
    - rewrite Z.mod_small in Hw by lia. rewrite Z.mod_small by lia. lia. }
  assert (Hkeep : forall k, (k <= wait)%nat ->
            timerLUT (after k) = timerLUT s /\ brightnessChange (after k) = true).
  { intros k Hk.
    destruct (turns_elsewhere hw u s k) as (Htimer & Hbright & _).
    - intros i Hi. apply Hbefore. lia.
    - split; [exact Htimer|]. unfold after. by rewrite Hbright. }
  assert (currentRow (after wait) = 0) as Hzero.
  { rewrite Hcur, Hw.
    destruct (decide (currentRow s = 0)) as [Hz|Hpos].
    - rewrite Hz, Z.sub_0_r, Z_mod_same_full, Z.add_0_l. apply Z.mod_0_l. lia.
    - rewrite (Z.mod_small (rows - currentRow s)) by lia.
      replace (currentRow s + (rows - currentRow s)) with rows by lia.
      apply Z_mod_same_full. }
  split; [lia|]. split; [done|]. split; [done|].
  destruct (Hkeep wait ltac:(lia)) as [Htimer Hbright].
  subst after. cbv beta in *. rewrite Nat.iter_succ.
  set (sw := Nat.iter wait (enqueue_row hw u) s) in *.
  unfold enqueue_row.
  destruct (enqueue_flags hw u (once_per_frame hw sw)) as (-> & -> & _).
  rewrite once_per_frame_at_zero by done.
  rewrite frame_updates_timerLUT, frame_updates_brightnessChange, Hbright.
  split; [|done].
  destruct (turns_statics hw u s wait) as (Hcfg & _ & _ & Hdim & _).
  by apply calculateTimerLut_timerLUT.
Qed.

Lemma brightness_change_applied_within_a_frame_witness :
  timerLUT (Nat.iter 14 (enqueue_row example_hw (fun _ => black)) mid_frame_state)
  = timerLUT (calculateTimerLut example_hw mid_frame_state)
  /\ brightnessChange
       (Nat.iter 14 (enqueue_row example_hw (fun _ => black)) mid_frame_state) = false.
Proof.
  destruct (brightness_change_applied_within_a_frame example_hw (fun _ => black)
              mid_frame_state) as (_ & _ & _ & Htable & Hflag).
  - vm_compute. split; congruence.
  - vm_compute. reflexivity.
  - reflexivity.
  - split; [exact Htable|exact Hflag].
Defined.

(** ** The rows a frame draws *)

Section Recording.
Context (hw : MatrixHardware).
Variable u : Z -> rgb48.
Implicit Type s : SmartMatrix3 recording_layer.

Lemma once_per_frame_recording s l :
baseLayer s = [l] -> baseLayer (once_per_frame hw s) = [l].
Proof.
intros Hl. unfold once_per_frame. destruct (currentRow s =? 0); [|done].
rewrite frame_updates_baseLayer, Hl. simpl. by destruct (rotationChange s).
Qed.

Lemma enqueue_row_recording s l :
baseLayer s = [l] ->
let row := uint8 (next_row (config s) (currentRow s)) in
baseLayer (enqueue_row hw u s)
= [{| drawn_rows := row + MATRIX_ROW_PAIR_OFFSET (config s) :: row :: drawn_rows l |}].
Proof.
intros Hl row. subst row.
destruct (once_per_frame_statics hw s) as (Hcfg & _).
destruct (once_per_frame_buffers hw s) as (_ & _ & _ & Hrow).
pose proof (once_per_frame_recording s l Hl) as Hlayers.
unfold enqueue_row. revert Hcfg Hrow Hlayers.
generalize (once_per_frame hw s) as s1. intros s1 Hcfg Hrow Hlayers.
unfold enqueue. cbv zeta. rewrite loadMatrixBuffers_eq.
cbn [baseLayer set_dmaBuffer set_matrixUpdateData set_baseLayer set_matrixUpdateBlocks
     set_currentRow config currentRow].
rewrite Hlayers, Hcfg, Hrow. done.
Qed.

(** The rows the first [n] turns of a frame ask the layer for. *)
Lemma turns_recording s l (n : nat) :
let c := config s in
let rows := MATRIX_ROWS_PER_FRAME c in
let row k := (currentRow s + k + 1) mod rows in
constructed c -> baseLayer s = [l] -> 0 <= currentRow s < rows ->
Z.of_nat n <= rows ->
exists drawn,
  baseLayer (Nat.iter n (enqueue_row hw u) s) = [{| drawn_rows := drawn ++ drawn_rows l |}]
  /\ NoDup drawn
  /\ (forall y, y ∈ drawn <-> exists k, 0 <= k < Z.of_nat n /\ (y = row k \/ y = row k + rows)).
Proof.
intros c rows row Hc Hl Hcur.
assert (rows < 256) as Hrows
  by (destruct Hc as (_ & Hh & _); subst rows; unfold MATRIX_ROWS_PER_FRAME; lia).
assert (Hrange : forall k, 0 <= row k < rows) by (intros k; apply Z.mod_pos_bound; lia).
induction n as [|n IH]; intros Hn.
- exists []. split; [simpl; rewrite Hl; by destruct l|]. split; [constructor|].
  intros y. split; [by intros ?%elem_of_nil|]. intros (k & Hk & _). lia.
- destruct IH as (drawn & Hlayers & Hnodup & Hdrawn); [lia|].
  rewrite Nat.iter_succ.
  rewrite (enqueue_row_recording _ _ Hlayers). cbv zeta.
  rewrite (turns_config hw u), (turns_currentRow hw u) by done. fold c rows.
  pose proof (Z.mod_pos_bound (currentRow s + Z.of_nat n) rows ltac:(lia)) as Hin.
  rewrite next_row_mod by done. fold rows. rewrite Zplus_mod_idemp_l.
  fold (row (Z.of_nat n)).
  rewrite uint8_small by (specialize (Hrange (Z.of_nat n)); lia).
  change (MATRIX_ROW_PAIR_OFFSET c) with rows.
  assert (Hapart : forall k, 0 <= k < Z.of_nat n -> row k <> row (Z.of_nat n)).
  { intros k Hk. apply same_residue_apart; lia. }
  exists (row (Z.of_nat n) + rows :: row (Z.of_nat n) :: drawn).
  split; [done|]. split.
  + constructor; [|constructor; [|done]].
    * rewrite elem_of_cons, Hdrawn. intros [Heq|(k & Hk & [Heq|Heq])]; [lia| |].
      -- pose proof (Hrange k). pose proof (Hrange (Z.of_nat n)). lia.
      -- apply (Hapart k Hk). lia.
    * rewrite Hdrawn. intros (k & Hk & [Heq|Heq]).
      -- by apply (Hapart k Hk).
      -- pose proof (Hrange k). pose proof (Hrange (Z.of_nat n)). lia.
  + intros y. rewrite !elem_of_cons, Hdrawn. split.
    * intros [->|[->|(k & Hk & Hy)]].
      -- exists (Z.of_nat n). split; [lia|by right].
      -- exists (Z.of_nat n). split; [lia|by left].
      -- exists k. split; [lia|done].
    * intros (k & Hk & Hy). destruct (decide (k = Z.of_nat n)) as [->|Hne].
      -- destruct Hy as [-> | ->]; [right; by left|by left].
      -- right. right. exists k. split; [lia|done].
Qed.
End Recording.

(** X19.  One frame of the pump asks a layer for every row of the panel
    below twice the number of row pairs exactly once, whichever row the
    frame starts at: the turn for row pair [r] asks for rows [r] and
    [r + MATRIX_ROW_PAIR_OFFSET].  On a panel of odd height the last row is
    never asked for. *)
Theorem frame_draws_every_row_once (hw : MatrixHardware) (u : Z -> rgb48)
    (s : SmartMatrix3 recording_layer) (l : recording_layer) :
  let c := config s in
  let rows := MATRIX_ROWS_PER_FRAME c in
  constructed c -> baseLayer s = [l] -> 0 <= currentRow s < rows ->
  exists drawn,
    baseLayer (Nat.iter (Z.to_nat rows) (enqueue_row hw u) s)
    = [{| drawn_rows := drawn ++ drawn_rows l |}]
    /\ NoDup drawn
    /\ (forall y, y ∈ drawn <-> 0 <= y < 2 * rows)
    /\ 2 * rows <= matrixHeight c
    /\ (matrixHeight c mod 2 = 1 -> matrixHeight c - 1 ∉ drawn).
Proof.
  intros c rows Hc Hl Hcur.
  assert (Z.of_nat (Z.to_nat rows) <= rows) as Hfit by lia.
  destruct (turns_recording hw u s l (Z.to_nat rows) Hc Hl Hcur Hfit)
    as (drawn & Hlayers & Hnodup & Hdrawn).
  fold c rows in Hdrawn. rewrite Z2Nat.id in Hdrawn by lia.
  assert (2 * rows <= matrixHeight c) as Hheight
    by (destruct Hc as (_ & Hh & _); subst rows; unfold MATRIX_ROWS_PER_FRAME; lia).
  assert (Hcover : forall y, y ∈ drawn <-> 0 <= y < 2 * rows).
  { intros y. rewrite Hdrawn. split.
    - intros (k & Hk & Hy).
      pose proof (Z.mod_pos_bound (currentRow s + k + 1) rows ltac:(lia)). lia.
    - intros Hy.
      assert (Hturn : forall r, 0 <= r < rows ->
                (currentRow s + (r - currentRow s - 1) mod rows + 1) mod rows = r).
      { intros r Hr. rewrite <- Z.add_assoc, (Z.add_comm _ 1), Z.add_assoc.
        rewrite Zplus_mod_idemp_r.
        replace (currentRow s + 1 + (r - currentRow s - 1)) with r by lia.
        by apply Z.mod_small. }
      destruct (Z.lt_ge_cases y rows) as [Hlow|Hhigh].
      + exists ((y - currentRow s - 1) mod rows).
        split; [apply Z.mod_pos_bound; lia|]. left. rewrite Hturn; lia.
      + exists ((y - rows - currentRow s - 1) mod rows).
        split; [apply Z.mod_pos_bound; lia|]. right. rewrite Hturn; lia. }
  exists drawn. split; [done|]. split; [done|]. split; [done|]. split; [done|].
  intros Hodd. rewrite Hcover.
  destruct Hc as (_ & Hh & _). subst rows. unfold MATRIX_ROWS_PER_FRAME. lia.
Qed.

Lemma frame_draws_every_row_once_witness :
  exists drawn,
    baseLayer (Nat.iter 2 (enqueue_row example_hw (fun _ => black)) recording_state)
    = [{| drawn_rows := drawn ++ [] |}]
    /\ 3 ∈ drawn /\ 4 ∉ drawn.
Proof.
  destruct (frame_draws_every_row_once example_hw (fun _ => black) recording_state
              {| drawn_rows := [] |})
    as (drawn & Hlayers & _ & Hcover & _ & Hodd).
  - apply constructed_ctor.
  - reflexivity.
  - vm_compute. split; congruence.
  - exists drawn. split; [exact Hlayers|]. split.
    + apply Hcover. vm_compute. split; congruence.
    + apply Hodd. vm_compute. reflexivity.
Defined.
